(** * ai_voice: the Live2D animation core, embedded in Rocq

  A shallow embedding of the engine's core modules
  ([parameter.py], [bezier.py], [motion_parser.py], [physics.py],
  [renderer.py], [model_parser.py], [math_utils.py]) together with the
  properties the specification states about them, and of the code around
  them ([config.py], [resource.py] and the parts of [pet_manager.py] that
  drive the engine) with further properties of both.

  Conventions of the embedding.
  - Python [float]s (and numpy [float32] vectors) are idealised as real
    numbers [R]: rounding, infinities and NaN are outside the model.
  - Python [dict]s keyed by strings are [gmap string _] where only lookups
    matter, and lists of items in insertion order where the order is
    observable.
  - JSON documents are typed by the schema of their file kind
    (motion3.json, model3.json); a key that may be absent is an [option].
    A file can also decode to a value off the schema: those a parser
    raises on are told apart by the statement that raises.
  - Methods that mutate [self] become functions from the old object state
    to the new one; an exception is an explicit outcome. List objects that
    two names can share live in an explicit store.
  - Python [int] indices are [Z], with negative indices counting from the
    end of the sequence as [list.__getitem__] does.
  - What the host provides (files, image decoding, the GL context, the
    memory left to a loop that appends on every turn) is an explicit
    argument; GL calls are taken to succeed. *)

From Stdlib Require Import Reals Lra Lia ZArith List Ascii String Bool Psatz.
From Stdlib Require Import Sorting.Sorted Sorting.Permutation.
From stdpp Require Import gmap strings list pretty.
From Equations Require Import Equations.

Open Scope R_scope.

(** ** Python built-ins shared by the modules *)

Module Py.

(** The exception classes the modelled code can raise. *)
Inductive exn : Set :=
| AttributeError
| TypeError
| IndexError
| KeyError
| ZeroDivisionError
| FileNotFoundError
| JSONDecodeError
| MemoryError.

(** [max(a, b)]: the running maximum starts at [a] and is replaced by [b]
    only when [b > a]. *)
Definition max (a b : R) : R := if Rlt_dec a b then b else a.

(** [min(a, b)]: replaced by [b] only when [b < a]. *)
Definition min (a b : R) : R := if Rlt_dec b a then b else a.

(** Sequencing of computations that may raise: the first exception ends
    the computation. *)
Definition bind {A B : Type} (m : exn + A) (k : A -> exn + B) : exn + B :=
  match m with
  | inl e => inl e
  | inr a => k a
  end.

(** The position an index [i] denotes in a sequence of length [n]: a
    negative index counts from the end, an index outside [-n, n) raises
    IndexError. *)
Definition index_of (n : nat) (i : Z) : exn + nat :=
  let j := (if Z.ltb i 0 then i + Z.of_nat n else i)%Z in
  if (Z.ltb j 0 || Z.leb (Z.of_nat n) j)%bool then inl IndexError
  else inr (Z.to_nat j).

(** [seq[i]] for a Python list. *)
Definition getitem {A : Type} (l : list A) (i : Z) : exn + A :=
  bind (index_of (length l) i)
       (fun j => match nth_error l j with
                 | Some x => inr x
                 | None => inl IndexError
                 end).

(** The result of a method that mutates its object: the object as the
    method leaves it, and the exception if it ended by one. *)
Inductive outcome (S : Type) : Type :=
| Normal (s : S)
| Raised (e : exn) (s : S).
Arguments Normal {S} s.
Arguments Raised {S} e s.

Definition state_of {S : Type} (o : outcome S) : S :=
  match o with
  | Normal s => s
  | Raised _ s => s
  end.

(** Run [k] on the state a mutation left, unless it raised. *)
Definition and_then {S : Type} (o : outcome S) (k : S -> outcome S) : outcome S :=
  match o with
  | Normal s => k s
  | Raised e s => Raised e s
  end.

(** [range(n)] *)
Definition range (n : Z) : list Z := map Z.of_nat (seq 0 (Z.to_nat n)).

(** [d.get(k)] on a dict kept as the list of its items in insertion
    order. *)
Fixpoint dict_get {V : Type} (d : list (string * V)) (k : string) : option V :=
  match d with
  | [] => None
  | (k', v) :: rest => if String.eqb k' k then Some v else dict_get rest k
  end.

(** [d[k] = v]: replaces the value of a present key in place, appends a
    new key. *)
Fixpoint dict_set {V : Type} (d : list (string * V)) (k : string) (v : V)
    : list (string * V) :=
  match d with
  | [] => [(k, v)]
  | (k', v') :: rest =>
      if String.eqb k' k then (k, v) :: rest else (k', v') :: dict_set rest k v
  end.

(** [del d[k]] for a key that is present. *)
Definition dict_del {V : Type} (d : list (string * V)) (k : string)
    : list (string * V) :=
  List.filter (fun kv => negb (String.eqb (fst kv) k)) d.

(** [sorted(items, key=...)] with integer keys. Python's sort is stable:
    an item goes in front of the first item already placed whose key is not
    smaller, so items of equal key keep their order. *)
Fixpoint insert_by {A : Type} (key : A -> Z) (x : A) (l : list A) : list A :=
  match l with
  | [] => [x]
  | y :: rest =>
      if (key x <=? key y)%Z then x :: y :: rest
      else y :: insert_by key x rest
  end.

Fixpoint sorted {A : Type} (key : A -> Z) (l : list A) : list A :=
  match l with
  | [] => []
  | x :: rest => insert_by key x (sorted key rest)
  end.

End Py.

Notation "x <- m ;; k" := (Py.bind m (fun x => k))
  (at level 100, m at next level, right associativity).

(** ** The functions of [os.path] the modules use (POSIX flavour) *)

Module OsPath.

(** One more than [p.rfind(c)]: the position just after the last [c], 0
    when [c] does not occur. *)
Fixpoint rfind_succ (c : ascii) (p : list ascii) : nat :=
  match p with
  | [] => 0
  | x :: rest =>
      match rfind_succ c rest with
      | O => if Ascii.eqb x c then 1 else 0
      | S r => S (S r)
      end
  end.

Fixpoint drop_leading (c : ascii) (p : list ascii) : list ascii :=
  match p with
  | [] => []
  | x :: rest => if Ascii.eqb x c then drop_leading c rest else p
  end.

(** [p.rstrip('/')] *)
Definition rstrip_sep (p : list ascii) : list ascii :=
  rev (drop_leading "/"%char (rev p)).

(** [os.path.basename(p)] *)
Definition basename (p : string) : string :=
  let l := list_ascii_of_string p in
  string_of_list_ascii (skipn (rfind_succ "/"%char l) l).

(** [os.path.dirname(p)] *)
Definition dirname (p : string) : string :=
  let l := list_ascii_of_string p in
  let head := firstn (rfind_succ "/"%char l) l in
  string_of_list_ascii
    (if forallb (fun x => Ascii.eqb x "/"%char) head then head
     else rstrip_sep head).

(** [os.path.splitext(p)[0]]: the extension starts at the last dot of the
    last component, unless that component has only dots before it. *)
Definition splitext_root (p : string) : string :=
  let l := list_ascii_of_string p in
  let ss := rfind_succ "/"%char l in
  let ds := rfind_succ "."%char l in
  if (ss <? ds)%nat then
    let before := firstn (ds - 1 - ss) (skipn ss l) in
    if forallb (fun x => Ascii.eqb x "."%char) before then p
    else string_of_list_ascii (firstn (ds - 1) l)
  else p.

(** [p.endswith(suffix)] *)
Definition endswith (p suffix : string) : bool :=
  String.prefix (String.rev suffix) (String.rev p).

(** [os.path.join(a, b)] *)
Definition join (a b : string) : string :=
  if String.prefix "/" b then b
  else if (String.eqb a "" || endswith a "/")%bool then a +:+ b
  else a +:+ "/" +:+ b.

End OsPath.

(** ** math_utils.py *)

Module MathUtils.

(** [lerp(a, b, t)] *)
Definition lerp (a b t : R) : R := a + t * (b - a).

(** [clamp(value, min_value, max_value)] *)
Definition clamp (value min_value max_value : R) : R :=
  Py.max min_value (Py.min max_value value).

(** [calculate_distance(dx, dy)] *)
Definition calculate_distance (dx dy : R) : R := sqrt (dx * dx + dy * dy).

(** [map_range(value, source_min, source_max, target_min, target_max)] *)
Definition map_range (value source_min source_max target_min target_max : R) : R :=
  if Req_dec_T source_max source_min then target_min
  else
    let source_range := source_max - source_min in
    let target_range := target_max - target_min in
    let normalized := (value - source_min) / source_range in
    target_min + normalized * target_range.

(** A two-dimensional numpy array, as the list of its rows. *)
Definition ndarray : Type := list (list R).

(** [np.identity(n)] *)
Definition identity (n : nat) : ndarray :=
  map (fun i => map (fun j => if Nat.eqb i j then 1 else 0) (seq 0 n)) (seq 0 n).

(** [a[i, j] = v], for a position inside the array. *)
Definition setitem (a : ndarray) (i j : nat) (v : R) : ndarray :=
  alter (fun row => <[j := v]> row) i a.

(** Column [j] of an array. *)
Definition column (a : ndarray) (j : nat) : list R :=
  map (fun row => nth j row 0) a.

(** The sum of the products of two sequences, element by element. *)
Definition dot (u v : list R) : R :=
  fold_right Rplus 0 (zip_with Rmult u v).

(** [np.matmul(a, b)] *)
Definition matmul (a b : ndarray) : ndarray :=
  map (fun row => map (fun j => dot row (column b j))
                      (seq 0 (length (List.hd [] b))))
      a.

(** [create_transform_matrix(tx, ty, rotation, sx, sy)] *)
Definition create_transform_matrix (tx ty rotation sx sy : R) : ndarray :=
  let matrix := identity 4 in
  let cos_r := cos rotation in
  let sin_r := sin rotation in
  let matrix := setitem matrix 0 0 sx in
  let matrix := setitem matrix 1 1 sy in
  let rot_matrix := identity 4 in
  let rot_matrix := setitem rot_matrix 0 0 cos_r in
  let rot_matrix := setitem rot_matrix 0 1 (- sin_r) in
  let rot_matrix := setitem rot_matrix 1 0 sin_r in
  let rot_matrix := setitem rot_matrix 1 1 cos_r in
  let matrix := matmul matrix rot_matrix in
  let matrix := setitem matrix 0 3 tx in
  let matrix := setitem matrix 1 3 ty in
  matrix.

End MathUtils.

(** ** parameter.py *)

Module ParameterManager.

(** One entry of [parameter_definitions]: the dict
    [{"default": .., "min": .., "max": ..}]. *)
Record definition : Type := mkDefinition {
  def_default : R;
  def_min : R;
  def_max : R
}.

Record t : Type := mkParameterManager {
  parameters : gmap string R;
  parameter_definitions : gmap string definition
}.

(** [ParameterManager()] *)
Definition init : t :=
  {| parameters := ∅; parameter_definitions := ∅ |}.

(** [register_parameter(param_id, default_value, min_value, max_value)] *)
Definition register_parameter (pm : t) (param_id : string)
    (default_value min_value max_value : R) : t :=
  {| parameter_definitions :=
       <[param_id := mkDefinition default_value min_value max_value]>
         (parameter_definitions pm);
     parameters := <[param_id := default_value]> (parameters pm) |}.

(** The keyword defaults of [register_parameter]. *)
Definition register_parameter_default (pm : t)
    (param_id : string) : t :=
  register_parameter pm param_id 0 (-100) 100.

(** [set_parameter(param_id, value)] *)
Definition set_parameter (pm : t) (param_id : string)
    (value : R) : t :=
  let pm1 :=
    match parameter_definitions pm !! param_id with
    | None => register_parameter_default pm param_id
    | Some _ => pm
    end in
  let definition :=
    match parameter_definitions pm1 !! param_id with
    | Some d => (def_min d, def_max d)
    | None => (-100, 100)
    end in
  let clamped_value := Py.max (fst definition) (Py.min (snd definition) value) in
  {| parameter_definitions := parameter_definitions pm1;
     parameters := <[param_id := clamped_value]> (parameters pm1) |}.

(** [get_parameter(param_id, default)] *)
Definition get_parameter (pm : t) (param_id : string)
    (default : R) : R :=
  match parameters pm !! param_id with
  | Some v => v
  | None => default
  end.

(** [update_parameters(param_dict)]: the dict is walked in insertion
    order, so it is given as the list of its items. *)
Definition update_parameters (pm : t)
    (param_dict : list (string * R)) : t :=
  fold_left (fun acc kv => set_parameter acc (fst kv) (snd kv)) param_dict pm.

(** [reset_parameters()] *)
Definition reset_parameters (pm : t) : t :=
  {| parameter_definitions := parameter_definitions pm;
     parameters :=
       map_fold (fun k d acc => <[k := def_default d]> acc)
                (parameters pm) (parameter_definitions pm) |}.

(** [get_all_parameters()]: a copy of the dict; values are immutable, so
    the copy is the map itself. *)
Definition get_all_parameters (pm : t) : gmap string R :=
  parameters pm.

End ParameterManager.


(** ** bezier.py *)

Module BezierCalculator.

(** [curve_cache] maps a curve id to its list of [(t, value)] samples;
    [precision] is the attribute set to 200 by [__init__]. *)
Record t : Type := mkBezierCalculator {
  curve_cache : gmap string (list (R * R));
  precision : Z
}.

(** [BezierCalculator()] *)
Definition init : t := {| curve_cache := ∅; precision := 200 |}.

(** [calculate_point(p0, p1, p2, p3, t)] *)
Definition calculate_point (p0 p1 p2 p3 t : R) : R :=
  let mt := 1 - t in
  let mt2 := mt * mt in
  let mt3 := mt2 * mt in
  let t2 := t * t in
  let t3 := t2 * t in
  mt3 * p0 + 3 * mt2 * t * p1 + 3 * mt * t2 * p2 + t3 * p3.

(** The list built by the loop of [create_curve_cache]: one sample
    [(i / precision, calculate_point(.., i / precision))] for each [i] of
    [range(precision + 1)]. *)
Definition cache_data (precision : Z) (p0 p1 p2 p3 : R) : list (R * R) :=
  map (fun i : Z =>
         let t := IZR i / IZR precision in
         (t, calculate_point p0 p1 p2 p3 t))
      (Py.range (precision + 1)).

(** [create_curve_cache(curve_id, p0, p1, p2, p3)]. The division
    [i / self.precision] raises ZeroDivisionError when the precision is 0;
    a negative precision gives an empty range and an empty sample list. *)
Definition create_curve_cache (bc : t) (curve_id : string) (p0 p1 p2 p3 : R)
    : Py.exn + t :=
  if Z.eqb (precision bc) 0 then inl Py.ZeroDivisionError
  else inr {| curve_cache :=
                <[curve_id := cache_data (precision bc) p0 p1 p2 p3]> (curve_cache bc);
              precision := precision bc |}.

(** How the [while left <= right] loop of [evaluate_cached] ends: by the
    [return] on an exact match, by falling out of the loop with the final
    [right] and [left], or by an exception of [cached_curve[mid]]. *)
Inductive search_result : Type :=
| Found (v : R)
| Bracket (right_ left_ : Z)
| SearchRaise (e : Py.exn).

(** The binary search loop of [evaluate_cached], from the values of [left]
    and [right] at the loop head. *)
Equations? binary_search (cached_curve : list (R * R)) (t : R) (left_ right_ : Z)
    : search_result by wf (Z.to_nat (right_ - left_ + 1)) lt :=
  binary_search cached_curve t left_ right_ with Z_le_dec left_ right_ => {
    | right _ := Bracket right_ left_
    | left _ with Py.getitem cached_curve ((left_ + right_) / 2) => {
       | inl e := SearchRaise e
       | inr (tm, vm) with Rlt_dec tm t => {
           | left _ := binary_search cached_curve t ((left_ + right_) / 2 + 1) right_
           | right _ with Rgt_dec tm t => {
               | left _ := binary_search cached_curve t left_ ((left_ + right_) / 2 - 1)
               | right _ := Found vm } } } }.
Proof.
  all: pose proof (Z.div_mod (left_ + right_) 2 ltac:(lia));
       pose proof (Z.mod_pos_bound (left_ + right_) 2 ltac:(lia)); lia.
Qed.

(** The linear interpolation that closes [evaluate_cached]. *)
Definition interpolate (cached_curve : list (R * R)) (t : R)
    (low_index high_index : Z) : Py.exn + R :=
  low <- Py.getitem cached_curve low_index ;;
  high <- Py.getitem cached_curve high_index ;;
  let '(t1, v1) := low in
  let '(t2, v2) := high in
  let fraction := if Req_dec_T t2 t1 then 0 else (t - t1) / (t2 - t1) in
  inr (v1 + fraction * (v2 - v1)).

(** [evaluate_cached(curve_id, t)] *)
Definition evaluate_cached (bc : t) (curve_id : string) (t : R) : Py.exn + R :=
  match curve_cache bc !! curve_id with
  | None => inr 0
  | Some cached_curve =>
      first <- Py.getitem cached_curve 0 ;;
      if Rle_dec t (fst first) then inr (snd first) else
      last <- Py.getitem cached_curve (-1) ;;
      if Rge_dec t (fst last) then inr (snd last) else
      match binary_search cached_curve t 0 (Z.of_nat (length cached_curve) - 1) with
      | Found v => inr v
      | SearchRaise e => inl e
      | Bracket right_ left_ => interpolate cached_curve t right_ left_
      end
  end.

End BezierCalculator.


Module SegmentEvaluator.

(** [SegmentEvaluator] owns one [BezierCalculator]. *)
Record t : Type := mkSegmentEvaluator {
  bezier_calculator : BezierCalculator.t
}.

Definition init : t := {| bezier_calculator := BezierCalculator.init |}.

(** [evaluate_segment(segment_type, time, segment_data, segment_id)]: the
    value ([None] when the segment does not apply) or the exception, and the
    evaluator with the curve cache as the call leaves it. [segment_type] is
    an element of the segment list, a number. *)
Definition evaluate_segment (se : t) (segment_type time : R)
    (segment_data : list R) (segment_id : option string)
    : (Py.exn + option R) * t :=
  if Req_dec_T segment_type 0 then
    match segment_data with
    | t0 :: v0 :: _ => if Rle_dec time t0 then (inr (Some v0), se) else (inr None, se)
    | _ => (inr None, se)
    end
  else if Req_dec_T segment_type 1 then
    match segment_data with
    | d0 :: d1 :: d2 :: d3 :: d4 :: d5 :: _ =>
        let start_time := d0 in
        let end_time := d4 in
        if Rge_dec time start_time then
          if Rle_dec time end_time then
            let t := if Rgt_dec end_time start_time
                     then (time - start_time) / (end_time - start_time)
                     else 0.0 in
            let p0 := d1 in
            let p1 := d3 in
            let p2 := d5 in
            let p3 := d1 in
            match segment_id with
            | Some sid =>
                if String.eqb sid "" then
                  (inr (Some (BezierCalculator.calculate_point p0 p1 p2 p3 t)), se)
                else
                  let created :=
                    match BezierCalculator.curve_cache (bezier_calculator se) !! sid with
                    | Some _ => inr (bezier_calculator se)
                    | None =>
                        BezierCalculator.create_curve_cache
                          (bezier_calculator se) sid p0 p1 p2 p3
                    end in
                  match created with
                  | inl e => (inl e, se)
                  | inr bc =>
                      (v <- BezierCalculator.evaluate_cached bc sid t ;; inr (Some v),
                       {| bezier_calculator := bc |})
                  end
            | None =>
                (inr (Some (BezierCalculator.calculate_point p0 p1 p2 p3 t)), se)
            end
          else (inr None, se)
        else (inr None, se)
    | _ => (inr None, se)
    end
  else (inr None, se).

End SegmentEvaluator.

(** ** motion_parser.py: documents, the object store, [Motion] and [MotionParser] *)

Module MotionParser.

(** One element of a document's ["Curves"] list: a JSON object whose keys
    ["Target"], ["Id"] and ["Segments"] may each be absent. *)
Record curve : Type := mkCurve {
  Target : option string;
  Id : option string;
  Segments : option (list R)
}.

(** The ["Meta"] object of a document, each key possibly absent. *)
Record meta : Type := mkMeta {
  Duration : option R;
  Fps : option R;
  Loop : option bool;
  FadeInTime : option R;
  FadeOutTime : option R
}.

(** The empty dict [{}] given as default to [data.get("Meta", {})]. *)
Definition empty_meta : meta := mkMeta None None None None None.

(** Python list objects have an identity: two names may denote the same
    list, and [append] through one is seen through the other. The lists of
    curves live in a store, and a name holds a location of it. *)
Definition loc : Type := nat.

Record heap : Type := mkHeap {
  cells : gmap loc (list curve);
  next_loc : loc
}.

Definition empty_heap : heap := {| cells := ∅; next_loc := 0%nat |}.

(** A new list object with the given elements. *)
Definition alloc (h : heap) (l : list curve) : loc * heap :=
  (next_loc h, {| cells := <[next_loc h := l]> (cells h); next_loc := S (next_loc h) |}).

(** The elements of the list at a location. *)
Definition deref (h : heap) (r : loc) : list curve :=
  match cells h !! r with
  | Some l => l
  | None => []
  end.

(** [lst.append(x)] on the list at [r]. *)
Definition append (h : heap) (r : loc) (x : curve) : heap :=
  {| cells := <[r := deref h r ++ [x]]> (cells h); next_loc := next_loc h |}.

(** The text of a motion3.json file, following the schema
    [Meta{..}], [Curves[{Target, Id, Segments[]}]]. *)
Record document : Type := mkDocument {
  doc_meta : option meta;
  doc_curves : option (list curve)
}.

(** What [json.load] returns for a document: the dict whose ["Curves"]
    entry, when present, is one list object of the store. *)
Record motion_data : Type := mkMotionData {
  Meta : option meta;
  Curves : option loc
}.

(** [json.load(f)] *)
Definition json_load (doc : document) (h : heap) : motion_data * heap :=
  match doc_curves doc with
  | None => ({| Meta := doc_meta doc; Curves := None |}, h)
  | Some l =>
      let '(r, h') := alloc h l in
      ({| Meta := doc_meta doc; Curves := Some r |}, h')
  end.

(** A decoded value that leaves the schema where [parse_motion_file]
    raises on it, named by the first such place in the order the code
    reaches them:
    - [NotAnObject]: the document is a list, a text, a number or null, and
      [data.get("Meta", {})] of [from_dict] raises AttributeError;
    - [MetaNotAnObject]: ["Meta"] holds null, a list, a text or a number,
      and [meta.get("Duration", 0.0)] of [from_dict] raises AttributeError;
    - [CurvesNotIterable]: ["Curves"] holds null, a number or a boolean,
      and [for curve_data in curves] raises TypeError;
    - [CurvesOfText]: ["Curves"] holds a text or an object that is not
      empty; its elements are texts, and [curve_data.get] raises
      AttributeError;
    - [CurveNotAnObject before]: ["Curves"] is a list whose first entry
      that is no object (null, a number, a text, a list) comes after the
      objects [before]; [curve_data.get] raises AttributeError there. *)
Inductive off_schema : Type :=
| NotAnObject
| MetaNotAnObject
| CurvesNotIterable
| CurvesOfText
| CurveNotAnObject (before : list curve).

(** What a path holds for [open] and [json.load]: a motion document, a
    value off the schema, or bytes that [json.load] rejects. A path outside
    the map does not exist. *)
Inductive file : Type :=
| MotionDocument (doc : document)
| OffSchema (v : off_schema)
| NotJson.

(** [class Motion] *)
Record Motion : Type := mkMotion {
  id : string;
  duration : R;
  fps : R;
  loop : bool;
  fade_in_time : R;
  fade_out_time : R;
  curves : loc
}.

(** [data.get("Curves", [])]: the document's own list object when the key
    is present, a new empty list otherwise. *)
Definition get_curves (data : motion_data) (h : heap) : loc * heap :=
  match Curves data with
  | Some r => (r, h)
  | None => alloc h []
  end.

(** [Motion.from_dict(motion_id, data)]. [Motion.__init__] first binds
    [curves] to a new empty list, which [from_dict] then replaces. *)
Definition from_dict (motion_id : string) (data : motion_data) (h : heap)
    : Motion * heap :=
  let '(_, h0) := alloc h [] in
  let meta := match Meta data with Some m => m | None => empty_meta end in
  let '(c, h1) := get_curves data h0 in
  ({| id := motion_id;
      duration := default 0.0 (Duration meta);
      fps := default 30.0 (Fps meta);
      loop := default true (Loop meta);
      fade_in_time := default 1.0 (FadeInTime meta);
      fade_out_time := default 1.0 (FadeOutTime meta);
      curves := c |}, h1).

Record t : Type := mkMotionParser {
  motion_cache : gmap string Motion;
  segment_evaluator : SegmentEvaluator.t
}.

(** [MotionParser()] *)
Definition init : t :=
  {| motion_cache := ∅; segment_evaluator := SegmentEvaluator.init |}.

(** The loop [for curve_data in curves: ... motion.curves.append(curve)] of
    [parse_motion_file], from position [i] of the list iterator: the
    iterator reads the list at [curves] afresh at every step, and the body
    appends to the list at [target]. The host has [memory] for that many
    appended entries: the turn after them raises MemoryError. *)
Fixpoint append_curves (memory : nat) (h : heap) (curves target : loc) (i : nat)
    : Py.exn + heap :=
  match deref h curves !! i with
  | None => inr h
  | Some curve_data =>
      match memory with
      | O => inl Py.MemoryError
      | S memory' =>
          let curve :=
            {| Target := Some (default "" (Target curve_data));
               Id := Some (default "" (Id curve_data));
               Segments := Some (default [] (Segments curve_data)) |} in
          append_curves memory' (append h target curve) curves target (S i)
      end
  end.

(** The exception a value off the schema ends the [try] block with. Up to
    the entry that is no object every turn of the loop appends, so the
    memory can give out first. *)
Definition raised_on (memory : nat) (v : off_schema) : Py.exn :=
  match v with
  | NotAnObject => Py.AttributeError
  | MetaNotAnObject => Py.AttributeError
  | CurvesNotIterable => Py.TypeError
  | CurvesOfText => Py.AttributeError
  | CurveNotAnObject before =>
      if (length before <=? memory)%nat then Py.AttributeError
      else Py.MemoryError
  end.

(** The [try] block of [parse_motion_file] with the files [fs] on disk:
    the [Motion], the parser with the motion cached and the store, or the
    exception raised. *)
Definition parse_and_cache (memory : nat) (fs : gmap string file) (self : t)
    (h : heap) (motion_path : string) : Py.exn + (Motion * t * heap) :=
  match fs !! motion_path with
  | None => inl Py.FileNotFoundError
  | Some NotJson => inl Py.JSONDecodeError
  | Some (OffSchema v) => inl (raised_on memory v)
  | Some (MotionDocument doc) =>
      let '(motion_data, h1) := json_load doc h in
      let motion_id := OsPath.splitext_root (OsPath.basename motion_path) in
      let '(motion0, h2) := from_dict motion_id motion_data h1 in
      let meta := match Meta motion_data with Some m => m | None => empty_meta end in
      let motion :=
        {| id := id motion0;
           duration := default 0.0 (Duration meta);
           fps := default 30.0 (Fps meta);
           loop := default true (Loop meta);
           fade_in_time := default 1.0 (FadeInTime meta);
           fade_out_time := default 1.0 (FadeOutTime meta);
           curves := curves motion0 |} in
      let '(curves, h3) := get_curves motion_data h2 in
      h4 <- append_curves memory h3 curves (MotionParser.curves motion) 0 ;;
      inr (motion,
           {| motion_cache := <[motion_path := motion]> (motion_cache self);
              segment_evaluator := segment_evaluator self |},
           h4)
  end.

(** [parse_motion_file(motion_path)]: the value returned, the parser and
    the store. Whatever is raised inside the [try] is caught by
    [except Exception], and the call returns [None]: the cache is as it
    was, and so is the store, since the document, the [Motion] and their
    lists were known to the call alone. *)
Definition parse_motion_file (memory : nat) (fs : gmap string file) (self : t)
    (h : heap) (motion_path : string) : option Motion * t * heap :=
  match motion_cache self !! motion_path with
  | Some motion => (Some motion, self, h)
  | None =>
      match parse_and_cache memory fs self h motion_path with
      | inr (motion, self', h') => (Some motion, self', h')
      | inl _ => (None, self, h)
      end
  end.

(** How one turn of the [while i < len(segments)] loop of [evaluate_curve]
    goes on: with the next position and value, or by an exception. *)
Inductive turn : Type :=
| Continue (i : nat) (value : option R) (se : SegmentEvaluator.t)
| Abort (e : Py.exn) (se : SegmentEvaluator.t).

(** One evaluated segment of [evaluate_curve]: [n] numbers of data after
    the type, the segment id built from [curve['Id']] (KeyError when the
    curve has no id) and the position of the segment type. *)
Definition evaluate_one (se : SegmentEvaluator.t) (curve_id : option string)
    (segments : list R) (time segment_type : R) (i n : nat) (value : option R)
    : turn :=
  let segment_data := firstn n (skipn i segments) in
  let i' := (i + n)%nat in
  match curve_id with
  | None => Abort Py.KeyError se
  | Some cid =>
      let segment_id := cid +:+ "_" +:+ pretty (Z.of_nat i' - Z.of_nat n - 1)%Z in
      match SegmentEvaluator.evaluate_segment se segment_type time segment_data
              (Some segment_id) with
      | (inl e, se') => Abort e se'
      | (inr (Some segment_value), se') => Continue i' (Some segment_value) se'
      | (inr None, se') => Continue i' value se'
      end
  end.

(** The body of the loop, entered with [i < len(segments)] and
    [segment_type = segments[i]]. *)
Definition loop_body (se : SegmentEvaluator.t) (curve_id : option string)
    (segments : list R) (time segment_type : R) (i : nat) (value : option R)
    : turn :=
  let i := S i in
  if Req_dec_T segment_type 0 then
    if (i + 1 <? length segments)%nat
    then evaluate_one se curve_id segments time segment_type i 2 value
    else Continue i value se
  else if Req_dec_T segment_type 1 then
    if (i + 5 <? length segments)%nat
    then evaluate_one se curve_id segments time segment_type i 6 value
    else Continue i value se
  else Continue (S i) value se.

(** The [while] loop of [evaluate_curve], bounded by [fuel] turns; every
    turn advances [i], so [len(segments)] turns are enough. *)
Fixpoint segments_loop (fuel : nat) (se : SegmentEvaluator.t)
    (curve_id : option string) (segments : list R) (time : R) (i : nat)
    (value : option R) : (Py.exn + option R) * SegmentEvaluator.t :=
  match fuel with
  | O => (inr value, se)
  | S fuel' =>
      match segments !! i with
      | None => (inr value, se)
      | Some segment_type =>
          match loop_body se curve_id segments time segment_type i value with
          | Abort e se' => (inl e, se')
          | Continue i' value' se' =>
              segments_loop fuel' se' curve_id segments time i' value'
          end
      end
  end.

(** [evaluate_curve(curve, time)] *)
Definition evaluate_curve (self : t) (curve : MotionParser.curve) (time : R)
    : (Py.exn + R) * t :=
  let segments := default [] (Segments curve) in
  match segments with
  | [] => (inr 0.0, self)
  | _ =>
      let '(r, se) :=
        segments_loop (length segments) (segment_evaluator self) (Id curve)
                      segments time 0 None in
      (value <- r ;; inr (default 0.0 value),
       {| motion_cache := motion_cache self; segment_evaluator := se |})
  end.

End MotionParser.

(** ** motion_parser.py: [MotionManager] *)

Module MotionManager.

(** A value of the [motions] dict. [load_motion] stores [Motion] objects;
    [update] reads the values with [.get("Meta", ..)] and
    [.get("Curves", ..)], which only a raw document dict answers. Both kinds
    of object are modelled, with the AttributeError each raises for the
    accesses it lacks. *)
Inductive motion_object : Type :=
| MotionObject (m : MotionParser.Motion)
| RawDict (d : MotionParser.motion_data).

(** The dict held by [current_motion]. *)
Record current : Type := mkCurrent {
  name : string;
  time : R;
  loop : bool;
  fade_in_time : R
}.

(** The dict held by [fade_out_motion]. *)
Record fading : Type := mkFading {
  motion : motion_object;
  start_time : R;
  fade_out_time : R
}.

(** [fade_in_motion] is set to [None] by [__init__] and never used. *)
Record t : Type := mkMotionManager {
  parameter_manager : ParameterManager.t;
  motion_parser : MotionParser.t;
  current_motion : option current;
  fade_out_motion : option fading;
  current_time : R;
  last_update_time : R;
  motions : gmap string motion_object
}.

(** [MotionManager(parameter_manager)] *)
Definition init (pm : ParameterManager.t) : t :=
  {| parameter_manager := pm; motion_parser := MotionParser.init;
     current_motion := None; fade_out_motion := None;
     current_time := 0.0; last_update_time := 0.0; motions := ∅ |}.

Definition with_current (self : t) (c : option current) : t :=
  {| parameter_manager := parameter_manager self;
     motion_parser := motion_parser self;
     current_motion := c; fade_out_motion := fade_out_motion self;
     current_time := current_time self;
     last_update_time := last_update_time self; motions := motions self |}.

Definition with_fade_out (self : t) (f : option fading) : t :=
  {| parameter_manager := parameter_manager self;
     motion_parser := motion_parser self;
     current_motion := current_motion self; fade_out_motion := f;
     current_time := current_time self;
     last_update_time := last_update_time self; motions := motions self |}.

Definition with_current_time (self : t) (now : R) : t :=
  {| parameter_manager := parameter_manager self;
     motion_parser := motion_parser self;
     current_motion := current_motion self;
     fade_out_motion := fade_out_motion self;
     current_time := now;
     last_update_time := last_update_time self; motions := motions self |}.

Definition with_motion_parser (self : t) (mp : MotionParser.t) : t :=
  {| parameter_manager := parameter_manager self;
     motion_parser := mp;
     current_motion := current_motion self;
     fade_out_motion := fade_out_motion self;
     current_time := current_time self;
     last_update_time := last_update_time self; motions := motions self |}.

Definition with_parameter_manager (self : t) (pm : ParameterManager.t) : t :=
  {| parameter_manager := pm;
     motion_parser := motion_parser self;
     current_motion := current_motion self;
     fade_out_motion := fade_out_motion self;
     current_time := current_time self;
     last_update_time := last_update_time self; motions := motions self |}.

(** [load_motion(motion_path)]: the id returned ([None] on failure), the
    manager and the store; [memory] is what the host has left for
    [parse_motion_file]. *)
Definition load_motion (memory : nat) (fs : gmap string MotionParser.file)
    (self : t) (h : MotionParser.heap) (motion_path : string)
    : option string * t * MotionParser.heap :=
  match fs !! motion_path with
  | None => (None, self, h)
  | Some _ =>
      match MotionParser.parse_motion_file memory fs (motion_parser self) h motion_path with
      | (None, mp, h') => (None, with_motion_parser self mp, h')
      | (Some motion, mp, h') =>
          let motion_id := OsPath.splitext_root (OsPath.basename motion_path) in
          let self1 := with_motion_parser self mp in
          (Some motion_id,
           {| parameter_manager := parameter_manager self1;
              motion_parser := motion_parser self1;
              current_motion := current_motion self1;
              fade_out_motion := fade_out_motion self1;
              current_time := current_time self1;
              last_update_time := last_update_time self1;
              motions := <[motion_id := MotionObject motion]> (motions self1) |},
           h')
      end
  end.

(** The attribute reads [motion.loop], [motion.fade_in_time] and
    [motion.fade_out_time]: a dict has no such attribute. *)
Definition attr_loop (obj : motion_object) : Py.exn + bool :=
  match obj with
  | MotionObject m => inr (MotionParser.loop m)
  | RawDict _ => inl Py.AttributeError
  end.

Definition attr_fade_in_time (obj : motion_object) : Py.exn + R :=
  match obj with
  | MotionObject m => inr (MotionParser.fade_in_time m)
  | RawDict _ => inl Py.AttributeError
  end.

Definition attr_fade_out_time (obj : motion_object) : Py.exn + R :=
  match obj with
  | MotionObject m => inr (MotionParser.fade_out_time m)
  | RawDict _ => inl Py.AttributeError
  end.

(** [play_motion(motion_name, loop, fade_in_time)]: the manager after the
    call, and the value returned or the exception raised. Every read that
    can raise comes before the first assignment, so an exception leaves the
    manager as it was. *)
Definition play_motion (self : t) (motion_name : string)
    (loop : option bool) (fade_in_time : option R) : t * (Py.exn + bool) :=
  match motions self !! motion_name with
  | None => (self, inr false)
  | Some motion =>
      let started :=
        loop' <- match loop with
                 | Some b => inr b
                 | None => attr_loop motion
                 end ;;
        fade_in_time' <- match fade_in_time with
                         | Some x => inr x
                         | None => attr_fade_in_time motion
                         end ;;
        self1 <-
          match current_motion self with
          | None => inr self
          | Some cm =>
              match motions self !! name cm with
              | None => inl Py.KeyError
              | Some current_motion =>
                  fade_out_time <- attr_fade_out_time current_motion ;;
                  inr (with_fade_out self
                         (Some {| motion := current_motion;
                                  start_time := current_time self - time cm;
                                  fade_out_time := fade_out_time |}))
              end
          end ;;
        inr (with_current self1
               (Some {| name := motion_name; time := 0.0; loop := loop';
                        fade_in_time := fade_in_time' |})) in
      match started with
      | inl e => (self, inl e)
      | inr self' => (self', inr true)
      end
  end.

(** [obj.get("Meta", {}).get("Duration", 3.0)] *)
Definition meta_duration (obj : motion_object) : Py.exn + R :=
  match obj with
  | MotionObject _ => inl Py.AttributeError
  | RawDict d =>
      inr (default 3.0
             (MotionParser.Duration
                (match MotionParser.Meta d with
                 | Some m => m
                 | None => MotionParser.empty_meta
                 end)))
  end.

(** [obj.get("Curves", [])] *)
Definition get_curves (h : MotionParser.heap) (obj : motion_object)
    : Py.exn + list MotionParser.curve :=
  match obj with
  | MotionObject _ => inl Py.AttributeError
  | RawDict d =>
      inr (match MotionParser.Curves d with
           | Some r => MotionParser.deref h r
           | None => []
           end)
  end.

(** [x % y] on floats: the remainder has the sign of [y]. *)
Definition float_mod (x y : R) : Py.exn + R :=
  if Req_dec_T y 0 then inl Py.ZeroDivisionError
  else inr (x - y * IZR (Int_part (x / y))).

(** [x / y] on floats. *)
Definition float_div (x y : R) : Py.exn + R :=
  if Req_dec_T y 0 then inl Py.ZeroDivisionError else inr (x / y).

(** [if t > duration: t = t % duration] *)
Definition wrap (t duration : R) : Py.exn + R :=
  if Rgt_dec t duration then float_mod t duration else inr t.

(** The dict [parameters] of [update]: parameter id to
    [{"value": .., "weight": ..}], in insertion order. *)
Definition accumulator : Type := list (string * (R * R)).

(** The loop over the curves of the active motion: each curve targeting a
    parameter overwrites the entry of its parameter. *)
Fixpoint apply_current (mp : MotionParser.t) (curves : list MotionParser.curve)
    (motion_time fade_in_weight : R) (parameters : accumulator)
    : (Py.exn + accumulator) * MotionParser.t :=
  match curves with
  | [] => (inr parameters, mp)
  | curve :: rest =>
      match MotionParser.Target curve with
      | None => (inl Py.KeyError, mp)
      | Some target =>
          if String.eqb target "Parameter" then
            match MotionParser.Id curve with
            | None => (inl Py.KeyError, mp)
            | Some param_id =>
                match MotionParser.evaluate_curve mp curve motion_time with
                | (inl e, mp') => (inl e, mp')
                | (inr value, mp') =>
                    let weight := fade_in_weight in
                    apply_current mp' rest motion_time fade_in_weight
                      (Py.dict_set parameters param_id (value * weight, weight))
                end
            end
          else apply_current mp rest motion_time fade_in_weight parameters
      end
  end.

(** The loop over the curves of the fading-out motion: each curve targeting
    a parameter adds its weighted value to the entry of its parameter. *)
Fixpoint apply_fade_out (mp : MotionParser.t) (curves : list MotionParser.curve)
    (fade_out_time fade_out_weight : R) (parameters : accumulator)
    : (Py.exn + accumulator) * MotionParser.t :=
  match curves with
  | [] => (inr parameters, mp)
  | curve :: rest =>
      match MotionParser.Target curve with
      | None => (inl Py.KeyError, mp)
      | Some target =>
          if String.eqb target "Parameter" then
            match MotionParser.Id curve with
            | None => (inl Py.KeyError, mp)
            | Some param_id =>
                match MotionParser.evaluate_curve mp curve fade_out_time with
                | (inl e, mp') => (inl e, mp')
                | (inr value, mp') =>
                    let weight := fade_out_weight in
                    let entry :=
                      match Py.dict_get parameters param_id with
                      | Some (v, w) => (v + value * weight, w + weight)
                      | None => (value * weight, weight)
                      end in
                    apply_fade_out mp' rest fade_out_time fade_out_weight
                      (Py.dict_set parameters param_id entry)
                end
            end
          else apply_fade_out mp rest fade_out_time fade_out_weight parameters
      end
  end.

(** The dict [final_parameters]: [value / weight] for every entry of
    positive weight. *)
Definition final_parameters (parameters : accumulator) : list (string * R) :=
  omap (fun kv : string * (R * R) =>
          let '(param_id, (value, weight)) := kv in
          if Rgt_dec weight 0 then Some (param_id, value / weight) else None)
       parameters.

(** The block of [update] that computes [fade_out_weight] and drops a
    finished fade-out. *)
Definition fade_out_phase (self : t) : Py.exn + (R * t) :=
  match fade_out_motion self with
  | None => inr (0.0, self)
  | Some fo =>
      let fade_out_time := current_time self - start_time fo in
      fade_out_duration <- meta_duration (motion fo) ;;
      fade_out_time' <- wrap fade_out_time fade_out_duration ;;
      q <- float_div fade_out_time' (MotionManager.fade_out_time fo) ;;
      let fade_out_progress := Py.min q 1.0 in
      let fade_out_weight := 1.0 - fade_out_progress in
      inr (fade_out_weight,
           if Rge_dec fade_out_progress 1.0 then with_fade_out self None else self)
  end.

(** The last block of [update], after the parameters were written: the
    fading-out motion is evaluated into the local dict [parameters], which
    nothing reads afterwards. *)
Definition fade_out_block (self : t) (h : MotionParser.heap)
    (fade_out_weight : R) (parameters : accumulator) : Py.outcome t :=
  match fade_out_motion self with
  | None => Py.Normal self
  | Some fo =>
      if Rgt_dec fade_out_weight 0 then
        let fade_out_motion_obj := motion fo in
        let fade_out_time := current_time self - start_time fo in
        match
          (fade_out_duration <- meta_duration fade_out_motion_obj ;;
           fade_out_time' <- wrap fade_out_time fade_out_duration ;;
           curves <- get_curves h fade_out_motion_obj ;;
           inr (fade_out_time', curves))
        with
        | inl e => Py.Raised e self
        | inr (fade_out_time', curves) =>
            match apply_fade_out (motion_parser self) curves fade_out_time'
                    fade_out_weight parameters with
            | (inl e, mp) => Py.Raised e (with_motion_parser self mp)
            | (inr _, mp) => Py.Normal (with_motion_parser self mp)
            end
        end
      else Py.Normal self
  end.

(** [update(delta_time)] *)
Definition update (self : t) (h : MotionParser.heap) (delta_time : R)
    : Py.outcome t :=
  match current_motion self with
  | None => Py.Normal self
  | Some cm =>
      let cm1 := {| name := name cm; time := time cm + delta_time;
                    loop := loop cm; fade_in_time := fade_in_time cm |} in
      let self1 :=
        with_current (with_current_time self (current_time self + delta_time))
                     (Some cm1) in
      let motion_name := name cm1 in
      match motions self1 !! motion_name with
      | None => Py.Normal (with_current self1 None)
      | Some motion_obj =>
          match meta_duration motion_obj with
          | inl e => Py.Raised e self1
          | inr duration =>
              match (if loop cm1 then wrap (time cm1) duration
                     else inr (time cm1)) with
              | inl e => Py.Raised e self1
              | inr time2 =>
                  let cm2 := {| name := name cm1; time := time2;
                                loop := loop cm1;
                                fade_in_time := fade_in_time cm1 |} in
                  let self2 := with_current self1 (Some cm2) in
                  let fade_in_weight :=
                    if Rgt_dec (fade_in_time cm2) 0
                    then Py.min (time cm2 / fade_in_time cm2) 1.0
                    else 1.0 in
                  match fade_out_phase self2 with
                  | inl e => Py.Raised e self2
                  | inr (fade_out_weight, self3) =>
                      let motion_time := time cm2 in
                      let applied :=
                        if Rgt_dec fade_in_weight 0 then
                          match get_curves h motion_obj with
                          | inl e => (inl e, motion_parser self3)
                          | inr curves =>
                              apply_current (motion_parser self3) curves
                                motion_time fade_in_weight []
                          end
                        else (inr [], motion_parser self3) in
                      match applied with
                      | (inl e, mp) => Py.Raised e (with_motion_parser self3 mp)
                      | (inr parameters, mp) =>
                          let self4 := with_motion_parser self3 mp in
                          let self5 :=
                            with_parameter_manager self4
                              (ParameterManager.update_parameters
                                 (parameter_manager self4)
                                 (final_parameters parameters)) in
                          fade_out_block self5 h fade_out_weight parameters
                      end
                  end
              end
          end
      end
  end.

(** [has_motion(motion_name)] *)
Definition has_motion (self : t) (motion_name : string) : bool :=
  bool_decide (is_Some (motions self !! motion_name)).

End MotionManager.

(** ** model_parser.py *)

Module ModelParser.

(** One entry of a part's ["Deformers"] list. *)
Record deformer : Type := mkDeformer {
  d_parameter : option string;
  d_type : option string;
  d_scale : option R
}.

(** One element of the ["Parts"] list of a model3.json document: a JSON
    object whose keys may each be absent. *)
Record part : Type := mkPart {
  Id : option string;
  Name : option string;
  TexturePath : option string;
  Deformers : option (list deformer);
  Depth : option Z
}.

(** One entry of a motion group of ["FileReferences"]["Motions"]: an
    object with a ["File"] key, a bare path, or anything else (which
    [process_file_references] drops). *)
Inductive motion_entry : Type :=
| MotionWithFile (file_ : string)
| MotionPath (path : string)
| MotionOther.

Record file_references : Type := mkFileReferences {
  Moc : option string;
  Textures : option (list string);
  Physics : option string;
  Motions : option (list (string * list motion_entry))
}.

(** One parameter definition, as [load_parameter_definitions] reads it. *)
Record parameter_def : Type := mkParameterDef {
  pd_Id : option string;
  pd_Default : option R;
  pd_Min : option R;
  pd_Max : option R
}.

(** The ["Parameters"] entry: the Cubism 4 form, an object with an inner
    ["Parameters"] list, or the list itself. *)
Inductive parameters_entry : Type :=
| Cubism4 (inner : list parameter_def)
| Direct (defs : list parameter_def).

(** A model3.json document, following the schema [Version],
    [FileReferences], [Parameters], [Parts]. *)
Record document : Type := mkDocument {
  Version : option Z;
  FileReferences : option file_references;
  Parameters : option parameters_entry;
  Parts : option (list part)
}.

(** The dict built by [process_model_data]; ["Groups"] stays the empty
    list it is created with. *)
Record model : Type := mkModel {
  m_Version : Z;
  m_FileReferences : file_references;
  m_Parameters : list parameter_def;
  m_Parts : list part
}.

(** A decoded value that leaves the schema where [process_model_data]
    raises on it, named by the first such place in the order the code
    reaches them:
    - [NotAnObject]: the value is a list, a text, a number or null, and
      [model_data.get("Version", 3)] raises AttributeError;
    - [FileReferencesNotAContainer]: ["FileReferences"] holds null, a
      number or a boolean, and ["Moc" in file_refs] raises TypeError;
    - [ReferenceNotText]: ["Moc"], ["Physics"], an entry of ["Textures"] or
      the ["File"] of a motion entry holds null, a number, a boolean, a list
      or an object, and [os.path.join] raises TypeError;
    - [TexturesNotIterable]: ["Textures"] holds null, a number or a
      boolean, and [for texture in ...] raises TypeError;
    - [MotionsNotAnObject]: ["Motions"] holds anything but an object, and
      [.items()] raises AttributeError;
    - [MotionGroupNotIterable]: a motion group holds null, a number or a
      boolean, and [for motion in motions] raises TypeError;
    - [ParametersNotAContainer]: ["Parameters"] holds null, a number or a
      boolean, and ["Parameters" in params] raises TypeError;
    - [PartsNotIterable]: ["Parts"] holds null, a number or a boolean, and
      [for part in parts] raises TypeError;
    - [PartNotAnObject]: an entry of ["Parts"] is null, a number, a boolean
      or a text, and [part.copy()] raises AttributeError;
    - [TexturePathNotText]: the ["TexturePath"] of a part holds null, a
      number, a boolean, a list or an object, and [os.path.join] raises
      TypeError. *)
Inductive off_schema : Type :=
| NotAnObject
| FileReferencesNotAContainer
| ReferenceNotText
| TexturesNotIterable
| MotionsNotAnObject
| MotionGroupNotIterable
| ParametersNotAContainer
| PartsNotIterable
| PartNotAnObject
| TexturePathNotText.

(** What [json.load] returns for a model file: a document of the schema,
    or a value off it. *)
Inductive decoded : Type :=
| ModelDocument (doc : document)
| OffSchema (v : off_schema).

(** What the host file system answers: [os.path.exists], [os.path.isdir],
    and the value [open] and [json.load] produce for a path ([None] when
    either raises). *)
Record filesystem : Type := mkFilesystem {
  path_exists : string -> bool;
  isdir : string -> bool;
  read_json : string -> option decoded
}.

Record t : Type := mkModelParser {
  model_cache : gmap string model
}.

(** [ModelParser()] *)
Definition init : t := {| model_cache := ∅ |}.

(** [process_file_references(file_refs, model_path)] *)
Definition process_file_references (file_refs : file_references)
    (model_path : string) : file_references :=
  {| Moc := option_map (OsPath.join model_path) (Moc file_refs);
     Textures := option_map (map (OsPath.join model_path)) (Textures file_refs);
     Physics := option_map (OsPath.join model_path) (Physics file_refs);
     Motions :=
       option_map
         (map (fun group : string * list motion_entry =>
                 (fst group,
                  flat_map
                    (fun motion =>
                       match motion with
                       | MotionWithFile f => [MotionWithFile (OsPath.join model_path f)]
                       | MotionPath q => [MotionPath (OsPath.join model_path q)]
                       | MotionOther => []
                       end)
                    (snd group))))
         (Motions file_refs) |}.

(** [process_parts(parts, model_path)]: a copy of every part, its texture
    path made absolute. *)
Definition process_parts (parts : list part) (model_path : string) : list part :=
  map (fun part =>
         {| Id := Id part; Name := Name part;
            TexturePath := option_map (OsPath.join model_path) (TexturePath part);
            Deformers := Deformers part; Depth := Depth part |})
      parts.

(** [process_model_data(model_data, model_path)] *)
Definition process_model_data (model_data : document) (model_path : string)
    : model :=
  {| m_Version := default 3%Z (Version model_data);
     m_FileReferences :=
       process_file_references
         (default (mkFileReferences None None None None) (FileReferences model_data))
         model_path;
     m_Parameters :=
       match Parameters model_data with
       | Some (Cubism4 inner) => inner
       | Some (Direct defs) => defs
       | None => []
       end;
     m_Parts :=
       match Parts model_data with
       | Some parts => process_parts parts model_path
       | None => []
       end |}.

(** The first half of the [try] block of [parse_model_file]: the model
    file and its directory, [None] when no model file exists. *)
Definition locate (fs : filesystem) (model_path : string)
    : option (string * string) :=
  let '(model_file, model_dir) :=
    if OsPath.endswith model_path ".model3.json" then
      (model_path, OsPath.dirname model_path)
    else if isdir fs model_path then
      (OsPath.join model_path "model3.json", model_path)
    else
      (OsPath.join (OsPath.dirname model_path) "model3.json",
       OsPath.dirname model_path) in
  let model_file :=
    if path_exists fs model_file then model_file
    else OsPath.join model_dir "unitychan.model3.json" in
  if path_exists fs model_file then Some (model_file, model_dir) else None.

(** The exception [process_model_data] raises on a value off the
    schema. *)
Definition raised_on (v : off_schema) : Py.exn :=
  match v with
  | NotAnObject => Py.AttributeError
  | FileReferencesNotAContainer => Py.TypeError
  | ReferenceNotText => Py.TypeError
  | TexturesNotIterable => Py.TypeError
  | MotionsNotAnObject => Py.AttributeError
  | MotionGroupNotIterable => Py.TypeError
  | ParametersNotAContainer => Py.TypeError
  | PartsNotIterable => Py.TypeError
  | PartNotAnObject => Py.AttributeError
  | TexturePathNotText => Py.TypeError
  end.

(** The call [self.process_model_data(model_data, model_dir)] of
    [parse_model_file], on whatever [json.load] returned. *)
Definition process_decoded (model_data : decoded) (model_path : string)
    : Py.exn + model :=
  match model_data with
  | ModelDocument doc => inr (process_model_data doc model_path)
  | OffSchema v => inl (raised_on v)
  end.

(** [parse_model_file(model_path)]: the value returned and the parser with
    its cache. What [open], [json.load] or [process_model_data] raise is
    caught by [except Exception], and the call returns [None] before
    anything is cached. *)
Definition parse_model_file (fs : filesystem) (self : t) (model_path : string)
    : option model * t :=
  match model_cache self !! model_path with
  | Some cached => (Some cached, self)
  | None =>
      match locate fs model_path with
      | None => (None, self)
      | Some (model_file, model_dir) =>
          match read_json fs model_file with
          | None => (None, self)
          | Some model_data =>
              match process_decoded model_data model_dir with
              | inl _ => (None, self)
              | inr processed_model =>
                  (Some processed_model,
                   {| model_cache :=
                        <[model_path := processed_model]> (model_cache self) |})
              end
          end
      end
  end.

End ModelParser.

(** ** parameter.py: [load_parameter_definitions], which reads the
    parameter entries of a model *)

Module ParameterDefinitions.

(** [load_parameter_definitions(definitions)]: an entry without ["Id"], or
    with an empty one, is passed over; the others are registered with the
    keyword defaults of the call for the keys they lack. *)
Definition load_parameter_definitions (pm : ParameterManager.t)
    (definitions : list ModelParser.parameter_def) : ParameterManager.t :=
  fold_left
    (fun pm param_def =>
       let param_id := default "" (ModelParser.pd_Id param_def) in
       if String.eqb param_id "" then pm
       else
         ParameterManager.register_parameter pm param_id
           (default 0.0 (ModelParser.pd_Default param_def))
           (default (-100.0) (ModelParser.pd_Min param_def))
           (default 100.0 (ModelParser.pd_Max param_def)))
    definitions pm.

End ParameterDefinitions.

(** ** renderer.py: [Texture] and [TextureManager] *)

Module TextureManager.

(** [class Texture] *)
Record Texture : Type := mkTexture {
  id : Z;
  width : Z;
  height : Z
}.

(** What lies outside the program when a texture is loaded:
    [os.path.exists], and the size of the image [PIL.Image.open] decodes
    for a path ([None] when opening or decoding raises). *)
Record world : Type := mkWorld {
  file_exists : string -> bool;
  image_size : string -> option (Z * Z)
}.

(** [textures] and [texture_usage] are dicts walked in insertion order.
    [next_id] stands for the GL context: [glGenTextures] is taken to hand
    out increasing names. *)
Record t : Type := mkTextureManager {
  textures : list (string * Texture);
  quality : string;
  max_textures : Z;
  texture_usage : list (string * Z);
  next_id : Z
}.

(** [TextureManager()] *)
Definition init : t :=
  {| textures := []; quality := "high"; max_textures := 50;
     texture_usage := []; next_id := 1 |}.

(** [clear_cache()] *)
Definition clear_cache (self : t) : t :=
  {| textures := []; quality := quality self;
     max_textures := max_textures self; texture_usage := [];
     next_id := next_id self |}.

(** [set_quality(quality)] *)
Definition set_quality (self : t) (quality : string) : t :=
  if ((String.eqb quality "high" || String.eqb quality "medium"
       || String.eqb quality "low")
      && negb (String.eqb quality (TextureManager.quality self)))%bool
  then clear_cache
         {| textures := textures self; quality := quality;
            max_textures := max_textures self;
            texture_usage := texture_usage self; next_id := next_id self |}
  else self.

(** [_clean_least_used_textures()] *)
Definition clean_least_used_textures (self : t) : t :=
  match textures self with
  | [] => self
  | _ =>
      let sorted_textures := Py.sorted snd (texture_usage self) in
      let n := Z.max 1 (Z.of_nat (length sorted_textures) / 10) in
      let textures_to_delete := firstn (Z.to_nat n) sorted_textures in
      fold_left
        (fun acc kv =>
           match Py.dict_get (textures acc) (fst kv) with
           | Some _ =>
               {| textures := Py.dict_del (textures acc) (fst kv);
                  quality := quality acc; max_textures := max_textures acc;
                  texture_usage := Py.dict_del (texture_usage acc) (fst kv);
                  next_id := next_id acc |}
           | None => acc
           end)
        textures_to_delete self
  end.

(** [load_texture(path, force_reload)] *)
Definition load_texture (w : world) (self : t) (path : string)
    (force_reload : bool) : option Texture * t :=
  if (String.eqb path "" || negb (file_exists w path))%bool then (None, self)
  else
    let cache_key := path +:+ "_" +:+ quality self in
    match (if force_reload then None else Py.dict_get (textures self) cache_key) with
    | Some texture =>
        (Some texture,
         {| textures := textures self; quality := quality self;
            max_textures := max_textures self;
            texture_usage :=
              Py.dict_set (texture_usage self) cache_key
                (default 0%Z (Py.dict_get (texture_usage self) cache_key) + 1)%Z;
            next_id := next_id self |})
    | None =>
        let self1 :=
          if (max_textures self <=? Z.of_nat (length (textures self)))%Z
          then clean_least_used_textures self else self in
        match image_size w path with
        | None => (None, self1)
        | Some (image_width, image_height) =>
            let '(width, height) :=
              if String.eqb (quality self1) "medium" then
                (Z.max 1 (image_width * 3 / 4), Z.max 1 (image_height * 3 / 4))
              else if String.eqb (quality self1) "low" then
                (Z.max 1 (image_width / 2), Z.max 1 (image_height / 2))
              else (image_width, image_height) in
            let texture := mkTexture (next_id self1) width height in
            (Some texture,
             {| textures := Py.dict_set (textures self1) cache_key texture;
                quality := quality self1; max_textures := max_textures self1;
                texture_usage := Py.dict_set (texture_usage self1) cache_key 1%Z;
                next_id := (next_id self1 + 1)%Z |})
        end
    end.

End TextureManager.

(** ** renderer.py: [Renderer] *)

Module Renderer.

(** The OpenGL calls [render] issues, with the arguments that vary. *)
Inductive gl_call : Type :=
| glClear
| glUseProgram (program : Z)
| glActiveTexture
| glUniform1i
| glBindVertexArray (vao : Z)
| glUniform1f (alpha : R)
| glUniformMatrix4fv
| glBindTexture (texture_id : Z)
| glBindBuffer (buffer : Z)
| glBufferData
| glDrawElements (index_count : Z).

(** The mesh dict of a part; only its ["index_count"] varies. *)
Record mesh : Type := mkMesh {
  index_count : Z
}.

(** The dict [load_model] builds for one part. The debug quad has no
    ["id"]; a part has a ["texture"] key only when its texture loaded. *)
Record part : Type := mkPart {
  id : option string;
  name : string;
  opacity : R;
  visible : bool;
  texture_path : string;
  part_mesh : mesh;
  deformers : list ModelParser.deformer;
  depth : Z;
  texture : option TextureManager.Texture
}.

(** [parts] is the dict of parts in insertion order; [sorted_parts] is the
    attribute [_sorted_parts], absent until the first frame that sorts. *)
Record t : Type := mkRenderer {
  texture_manager : TextureManager.t;
  parts : list (string * part);
  initialized : bool;
  shader_program : Z;
  vao : Z;
  vbo : Z;
  ebo : Z;
  sorted_parts : option (list part)
}.

(** [Renderer(parameter_manager)]; the parameter store is shared with the
    other systems, so [render] is given its current state. *)
Definition init : t :=
  {| texture_manager := TextureManager.init; parts := []; initialized := false;
     shader_program := 0; vao := 0; vbo := 0; ebo := 0; sorted_parts := None |}.

(** [create_mesh_for_part(part_data)] *)
Definition create_mesh_for_part (part_data : ModelParser.part) : mesh :=
  {| index_count := 6 |}.

(** The part [create_simple_debug_mesh] stores under ["debug_quad"]. *)
Definition debug_quad (texture : TextureManager.Texture) : part :=
  {| id := None; name := ""; opacity := 1.0; visible := true;
     texture_path := ""; part_mesh := {| index_count := 6 |};
     deformers := []; depth := 0; texture := Some texture |}.

(** [initialize()] when the GL context accepts the calls ([gl_ok]): the
    shader program and the buffers get names, and
    [create_simple_debug_mesh] adds the debug quad and its 32 x 32 texture.
    Otherwise the exception is caught and [initialized] is [False]. *)
Definition initialize (gl_ok : bool) (self : t) : t :=
  if gl_ok then
    let tm := texture_manager self in
    let texture_obj := TextureManager.mkTexture (TextureManager.next_id tm) 32 32 in
    {| texture_manager :=
         {| TextureManager.textures :=
              Py.dict_set (TextureManager.textures tm) "debug" texture_obj;
            TextureManager.quality := TextureManager.quality tm;
            TextureManager.max_textures := TextureManager.max_textures tm;
            TextureManager.texture_usage := TextureManager.texture_usage tm;
            TextureManager.next_id := (TextureManager.next_id tm + 1)%Z |};
       parts := Py.dict_set (parts self) "debug_quad" (debug_quad texture_obj);
       initialized := true;
       shader_program := 1; vao := 1; vbo := 1; ebo := 2;
       sorted_parts := sorted_parts self |}
  else
    {| texture_manager := texture_manager self; parts := parts self;
       initialized := false;
       shader_program := shader_program self; vao := vao self;
       vbo := vbo self; ebo := ebo self; sorted_parts := sorted_parts self |}.

(** The body of the loop of [load_model] for one part of the model. *)
Definition load_part (w : TextureManager.world)
    (acc : TextureManager.t * list (string * part))
    (part_data : ModelParser.part) : TextureManager.t * list (string * part) :=
  let '(tm, parts) := acc in
  let part_id := default "" (ModelParser.Id part_data) in
  if String.eqb part_id "" then (tm, parts)
  else
    let texture_path := default "" (ModelParser.TexturePath part_data) in
    let '(texture, tm') :=
      if String.eqb texture_path "" then (None, tm)
      else TextureManager.load_texture w tm texture_path false in
    let part :=
      {| id := Some part_id;
         name := default "" (ModelParser.Name part_data);
         opacity := 1.0; visible := true;
         texture_path := texture_path;
         part_mesh := create_mesh_for_part part_data;
         deformers := default [] (ModelParser.Deformers part_data);
         depth := default 0%Z (ModelParser.Depth part_data);
         texture := texture |} in
    (tm', Py.dict_set parts part_id part).

(** [load_model(model_data)]. The model dict has no ["__model_dir__"]
    key, so the alternative texture path is never tried. *)
Definition load_model (w : TextureManager.world) (self : t)
    (model_data : ModelParser.model) : t :=
  let '(tm, parts) :=
    fold_left (load_part w) (ModelParser.m_Parts model_data)
              (texture_manager self, []) in
  {| texture_manager := tm; parts := parts; initialized := initialized self;
     shader_program := shader_program self; vao := vao self;
     vbo := vbo self; ebo := ebo self; sorted_parts := sorted_parts self |}.

(** The alpha of a part: its opacity times [1 + value * scale] for every
    opacity deformer, clamped to [0, 1]. *)
Definition part_alpha (pm : ParameterManager.t) (p : part) : R :=
  let alpha :=
    fold_left
      (fun alpha deformer =>
         let param_name := default "" (ModelParser.d_parameter deformer) in
         if (negb (String.eqb param_name "")
             && String.eqb (default "" (ModelParser.d_type deformer)) "opacity")%bool
         then
           let param_value := ParameterManager.get_parameter pm param_name 0.0 in
           alpha * (1.0 + param_value * default 0.0 (ModelParser.d_scale deformer))
         else alpha)
      (deformers p) (opacity p) in
  Py.max 0.0 (Py.min 1.0 alpha).

(** The calls of one turn of the loop [for part in self._sorted_parts].
    The mesh dict is never empty and never has a [_cached] attribute, so the
    buffers are filled on every frame. *)
Definition part_calls (self : t) (pm : ParameterManager.t) (p : part)
    : list gl_call :=
  if visible p then
    [glUniform1f (part_alpha pm p); glUniformMatrix4fv]
    ++ match texture p with
       | Some tex =>
           [glBindTexture (TextureManager.id tex);
            glBindBuffer (vbo self); glBufferData;
            glBindBuffer (ebo self); glBufferData;
            glDrawElements (index_count (part_mesh p))]
       | None => []
       end
  else [].

(** The list the loop of [render] walks: [_sorted_parts], sorted afresh
    when the attribute is missing or its length differs from the number of
    parts. *)
Definition refreshed_order (self : t) : list part :=
  match sorted_parts self with
  | Some cached =>
      if Nat.eqb (length cached) (length (parts self)) then cached
      else Py.sorted depth (map snd (parts self))
  | None => Py.sorted depth (map snd (parts self))
  end.

(** [render()]: the renderer after the frame and the GL calls issued. *)
Definition render (self : t) (pm : ParameterManager.t) : t * list gl_call :=
  if negb (initialized self) then (self, [])
  else
    match parts self with
    | [] => (self, [])
    | _ =>
        let order := refreshed_order self in
        ({| texture_manager := texture_manager self; parts := parts self;
            initialized := initialized self;
            shader_program := shader_program self; vao := vao self;
            vbo := vbo self; ebo := ebo self; sorted_parts := Some order |},
         [glClear; glUseProgram (shader_program self); glActiveTexture;
          glUniform1i; glBindVertexArray (vao self)]
         ++ flat_map (part_calls self pm) order
         ++ [glBindVertexArray 0; glUseProgram 0])
    end.

(** [set_quality(quality)] *)
Definition set_quality (self : t) (quality : string) : t :=
  {| texture_manager := TextureManager.set_quality (texture_manager self) quality;
     parts := parts self; initialized := initialized self;
     shader_program := shader_program self; vao := vao self;
     vbo := vbo self; ebo := ebo self; sorted_parts := sorted_parts self |}.

(** [cleanup()] *)
Definition cleanup (self : t) : t :=
  {| texture_manager := TextureManager.clear_cache (texture_manager self);
     parts := parts self; initialized := false;
     shader_program := shader_program self; vao := vao self;
     vbo := vbo self; ebo := ebo self; sorted_parts := sorted_parts self |}.

End Renderer.

(** ** physics.py *)

Module Physics.

(** A two-component numpy vector. *)
Definition vec2 : Type := (R * R)%type.

Definition vadd (u v : vec2) : vec2 := (fst u + fst v, snd u + snd v).
Definition vsub (u v : vec2) : vec2 := (fst u - fst v, snd u - snd v).
Definition vscale (v : vec2) (k : R) : vec2 := (fst v * k, snd v * k).
Definition vdiv (v : vec2) (k : R) : vec2 := (fst v / k, snd v / k).

(** [np.linalg.norm] of a two-component vector. *)
Definition norm (v : vec2) : R := sqrt (fst v * fst v + snd v * snd v).

Record PhysicsPoint : Type := mkPhysicsPoint {
  position : vec2;
  prev_position : vec2;
  velocity : vec2;
  mass : R;
  fixed : bool
}.

(** [PhysicsPoint(x, y, mass, fixed)] *)
Definition new_point (x y mass : R) (fixed : bool) : PhysicsPoint :=
  {| position := (x, y); prev_position := (x, y); velocity := (0, 0);
     mass := mass; fixed := fixed |}.

(** [rest_length] is [None] when the spring was built without a length. *)
Record PhysicsSpring : Type := mkPhysicsSpring {
  point1_idx : Z;
  point2_idx : Z;
  rest_length : option R;
  stiffness : R
}.

Record PhysicsGroup : Type := mkPhysicsGroup {
  id : string;
  influence_parameter : string;
  input_parameter : string;
  points : list PhysicsPoint;
  springs : list PhysicsSpring
}.

Definition with_points (group : PhysicsGroup) (pts : list PhysicsPoint)
    : PhysicsGroup :=
  {| id := id group; influence_parameter := influence_parameter group;
     input_parameter := input_parameter group;
     points := pts; springs := springs group |}.

Definition with_position (point : PhysicsPoint) (pos : vec2) : PhysicsPoint :=
  {| position := pos; prev_position := prev_position point;
     velocity := velocity point; mass := mass point; fixed := fixed point |}.

Definition with_velocity (point : PhysicsPoint) (v : vec2) : PhysicsPoint :=
  {| position := position point; prev_position := prev_position point;
     velocity := v; mass := mass point; fixed := fixed point |}.

(** [PhysicsGroup(group_id, influence_parameter, input_parameter)] *)
Definition new_group (group_id influence_parameter input_parameter : string)
    : PhysicsGroup :=
  {| id := group_id; influence_parameter := influence_parameter;
     input_parameter := input_parameter; points := []; springs := [] |}.

(** [add_point(x, y, mass, fixed)]: the group with the point appended, and
    the index returned. *)
Definition add_point (group : PhysicsGroup) (x y mass : R) (fixed : bool)
    : PhysicsGroup * Z :=
  let pts := points group ++ [new_point x y mass fixed] in
  (with_points group pts, (Z.of_nat (length pts) - 1)%Z).

(** [add_spring(point1_idx, point2_idx, length, stiffness)] *)
Definition add_spring (group : PhysicsGroup) (point1_idx point2_idx : Z)
    (length_ : option R) (stiffness : R) : Py.exn + PhysicsGroup :=
  let n := Z.of_nat (length (points group)) in
  length' <-
    match length_ with
    | None =>
        if (Z.ltb point1_idx n && Z.ltb point2_idx n)%bool then
          point1 <- Py.getitem (points group) point1_idx ;;
          point2 <- Py.getitem (points group) point2_idx ;;
          inr (Some (norm (vsub (position point2) (position point1))))
        else inr None
    | Some l => inr (Some l)
    end ;;
  inr {| id := id group; influence_parameter := influence_parameter group;
         input_parameter := input_parameter group; points := points group;
         springs := springs group
                    ++ [mkPhysicsSpring point1_idx point2_idx length' stiffness] |}.

Record PhysicsSystem : Type := mkPhysicsSystem {
  parameter_manager : ParameterManager.t;
  groups : list PhysicsGroup;
  gravity : vec2;
  air_resistance : R;
  last_update_time : R
}.

(** [PhysicsSystem(parameter_manager)] *)
Definition new_system (pm : ParameterManager.t) : PhysicsSystem :=
  {| parameter_manager := pm; groups := []; gravity := (0, -9.8);
     air_resistance := 0.01; last_update_time := 0 |}.

Definition with_groups (sys : PhysicsSystem) (gs : list PhysicsGroup)
    : PhysicsSystem :=
  {| parameter_manager := parameter_manager sys; groups := gs;
     gravity := gravity sys; air_resistance := air_resistance sys;
     last_update_time := last_update_time sys |}.

(** [create_group(group_id, influence_parameter, input_parameter)]: the
    system with the new group appended. The group object returned is the
    one the system holds, so it is named by its position in [groups]. *)
Definition create_group (sys : PhysicsSystem)
    (group_id influence_parameter input_parameter : string)
    : PhysicsSystem * nat :=
  (with_groups sys
     (groups sys ++ [new_group group_id influence_parameter input_parameter]),
   length (groups sys)).

(** The body of the loop of [apply_external_forces] for one point. *)
Definition apply_forces_to_point (gravity : vec2) (air_resistance : R)
    (input_value delta_time : R) (point : PhysicsPoint) : PhysicsPoint :=
  if fixed point then point
  else
    let gravity_force := vscale (vscale gravity (mass point)) delta_time in
    let input_force := vscale (input_value * 0.1, 0) delta_time in
    let v1 := vadd (velocity point) (vadd gravity_force input_force) in
    with_velocity point (vscale v1 (1.0 - air_resistance)).

(** [apply_external_forces(group, input_value, delta_time)] *)
Definition apply_external_forces (sys : PhysicsSystem) (group : PhysicsGroup)
    (input_value delta_time : R) : PhysicsGroup :=
  with_points group
    (map (apply_forces_to_point (gravity sys) (air_resistance sys)
            input_value delta_time)
         (points group)).

(** The body of the loop of [update_points] for one point. The division
    by [delta_time] is the real one: numpy's result for a zero step (inf or
    nan) is outside the model. *)
Definition update_point (delta_time : R) (point : PhysicsPoint) : PhysicsPoint :=
  if fixed point then point
  else
    let current_pos := position point in
    let new_pos :=
      vadd (vsub (vscale (position point) 2) (prev_position point))
           (vscale (velocity point) delta_time) in
    {| position := new_pos; prev_position := current_pos;
       velocity := vdiv (vsub new_pos current_pos) delta_time;
       mass := mass point; fixed := fixed point |}.

(** [update_points(group, delta_time)] *)
Definition update_points (group : PhysicsGroup) (delta_time : R) : PhysicsGroup :=
  with_points group (map (update_point delta_time) (points group)).

(** The body of the inner loop of [solve_constraints] for one spring: the
    points after it, or the exception it raises before it moved anything
    (an index below [-len(points)], or a spring without rest length). *)
Definition solve_spring (pts : list PhysicsPoint) (spring : PhysicsSpring)
    : Py.exn + list PhysicsPoint :=
  let n := Z.of_nat (length pts) in
  if (Z.leb n (point1_idx spring) || Z.leb n (point2_idx spring))%bool
  then inr pts
  else
    i1 <- Py.index_of (length pts) (point1_idx spring) ;;
    point1 <- Py.getitem pts (point1_idx spring) ;;
    i2 <- Py.index_of (length pts) (point2_idx spring) ;;
    point2 <- Py.getitem pts (point2_idx spring) ;;
    let delta := vsub (position point2) (position point1) in
    let current_length := norm delta in
    if Rlt_dec current_length 0.0001 then inr pts
    else
      match rest_length spring with
      | None => inl Py.TypeError
      | Some rest =>
          let diff_ratio := (rest - current_length) / current_length in
          let correction :=
            vscale (vscale (vscale delta diff_ratio) 0.5) (stiffness spring) in
          let pts1 :=
            if fixed point1 then pts
            else <[i1 := with_position point1 (vsub (position point1) correction)]> pts in
          let pts2 :=
            if fixed point2 then pts1
            else
              match pts1 !! i2 with
              | Some q => <[i2 := with_position q (vadd (position q) correction)]> pts1
              | None => pts1
              end in
          inr pts2
      end.

(** One pass of [for spring in group.springs]. *)
Fixpoint solve_springs (pts : list PhysicsPoint) (sprs : list PhysicsSpring)
    : Py.outcome (list PhysicsPoint) :=
  match sprs with
  | [] => Py.Normal pts
  | spring :: rest =>
      match solve_spring pts spring with
      | inl e => Py.Raised e pts
      | inr pts' => solve_springs pts' rest
      end
  end.

(** [for _ in range(n)]: [n] passes over the springs. *)
Fixpoint relax (n : nat) (pts : list PhysicsPoint) (sprs : list PhysicsSpring)
    : Py.outcome (list PhysicsPoint) :=
  match n with
  | O => Py.Normal pts
  | S k => Py.and_then (solve_springs pts sprs) (fun pts' => relax k pts' sprs)
  end.

(** [solve_constraints(group)] *)
Definition solve_constraints (group : PhysicsGroup) : Py.outcome PhysicsGroup :=
  match relax 3 (points group) (springs group) with
  | Py.Normal pts => Py.Normal (with_points group pts)
  | Py.Raised e pts => Py.Raised e (with_points group pts)
  end.

(** [calculate_result(group)] *)
Definition calculate_result (group : PhysicsGroup) : R :=
  match points group, last (points group) with
  | start_point :: _, Some end_point =>
      let horizontal_offset := fst (position end_point) - fst (position start_point) in
      horizontal_offset * 5.0
  | _, _ => 0.0
  end.

(** The first statement of [update]: [delta_time = min(delta_time, 0.033)]. *)
Definition clamped_delta_time (delta_time : R) : R := Py.min delta_time 0.033.

(** The body of the loop of [update] for one group, with the time step the
    loop uses: the parameter store and the group as the body leaves them. *)
Definition update_group (sys : PhysicsSystem) (delta_time : R)
    (pm : ParameterManager.t) (group : PhysicsGroup)
    : Py.outcome (ParameterManager.t * PhysicsGroup) :=
  let input_value := ParameterManager.get_parameter pm (input_parameter group) 0.0 in
  let g1 := apply_external_forces sys group input_value delta_time in
  let g2 := update_points g1 delta_time in
  match solve_constraints g2 with
  | Py.Raised e g3 => Py.Raised e (pm, g3)
  | Py.Normal g3 =>
      let result_value := calculate_result g3 in
      Py.Normal (ParameterManager.set_parameter pm (influence_parameter g3) result_value,
                 g3)
  end.

(** The loop [for group in self.groups] of [update], run with time step
    [delta_time]: [done] are the groups already updated, [todo] the ones
    still to visit. *)
Fixpoint update_groups (sys : PhysicsSystem) (delta_time : R)
    (pm : ParameterManager.t) (done todo : list PhysicsGroup)
    : Py.outcome PhysicsSystem :=
  let result pm gs :=
    {| parameter_manager := pm; groups := gs; gravity := gravity sys;
       air_resistance := air_resistance sys;
       last_update_time := last_update_time sys |} in
  match todo with
  | [] => Py.Normal (result pm done)
  | group :: rest =>
      match update_group sys delta_time pm group with
      | Py.Raised e (pm', g') => Py.Raised e (result pm' (done ++ g' :: rest))
      | Py.Normal (pm', g') => update_groups sys delta_time pm' (done ++ [g']) rest
      end
  end.

(** [update(delta_time)] *)
Definition update (sys : PhysicsSystem) (delta_time : R) : Py.outcome PhysicsSystem :=
  let delta_time := clamped_delta_time delta_time in
  update_groups sys delta_time (parameter_manager sys) [] (groups sys).

End Physics.

(** ** config.py *)

Module ConfigManager.

(** The values a configuration holds: the JSON scalars, and the one nested
    object, the mapping from motion types to motion file names. *)
Inductive value : Type :=
| Bool (b : bool)
| Int (n : Z)
| Float (x : R)
| Str (s : string)
| Motions (m : gmap string string).

(** What [config_path] holds for [load_config]: no file, a file that
    [open] or [json.load] rejects, or a JSON object given as the list of its
    items. *)
Inductive file : Type :=
| Missing
| Unreadable
| Document (loaded_config : list (string * value)).

Record t : Type := mkConfigManager {
  default_config : gmap string value;
  config : gmap string value;
  config_path : string
}.

(** The dict literal [__init__] binds to [default_config]. *)
Definition defaults : gmap string value :=
  list_to_map
    [("enabled", Bool true);
     ("model_path", Str "./Unitychan/runtime/unitychan.model3.json");
     ("window_width", Int 400);
     ("window_height", Int 600);
     ("opacity", Float 0.9);
     ("quality", Str "high");
     ("interaction_frequency", Int 60);
     ("mouse_follow", Bool true);
     ("fixed_position", Bool false);
     ("position_x", Int (-1));
     ("position_y", Int (-1));
     ("motions",
      Motions (list_to_map [("idle", "idle_01.motion3.json");
                            ("idle2", "idle_02.motion3.json");
                            ("talk", "m_01.motion3.json");
                            ("expression", "m_02.motion3.json")]))].

Definition with_config (self : t) (cfg : gmap string value) : t :=
  {| default_config := default_config self; config := cfg;
     config_path := config_path self |}.

(** [load_config()], given what the path holds: the manager and the value
    returned. A loaded key replaces the value of a key the configuration
    already has, and is dropped otherwise. *)
Definition load_config (f : file) (self : t) : t * bool :=
  match f with
  | Missing => (self, false)
  | Unreadable => (self, false)
  | Document loaded_config =>
      (with_config self
         (fold_left
            (fun cfg kv =>
               match cfg !! fst kv with
               | Some _ => <[fst kv := snd kv]> cfg
               | None => cfg
               end)
            loaded_config (config self)),
       true)
  end.

(** [ConfigManager(config_path)]; [home] is [os.path.expanduser("~")], and
    [disk] tells what a path holds. *)
Definition init (home : string) (disk : string -> file)
    (config_path : option string) : t :=
  let path :=
    match config_path with
    | Some q => if String.eqb q "" then OsPath.join home ".desktop_pet_config.json"
                else q
    | None => OsPath.join home ".desktop_pet_config.json"
    end in
  fst (load_config (disk path)
         {| default_config := defaults; config := defaults; config_path := path |}).

(** [get(key, default)]; Python's [None] is [None]. *)
Definition get (self : t) (key : string) (default : option value) : option value :=
  match config self !! key with
  | Some v => Some v
  | None => default
  end.

(** [set(key, value)]: both branches of the test store the value. *)
Definition set (self : t) (key : string) (v : value) : t :=
  with_config self (<[key := v]> (config self)).

(** [get_all()] *)
Definition get_all (self : t) : gmap string value := config self.

(** [reset()] *)
Definition reset (self : t) : t := with_config self (default_config self).

(** [get_motion_path(motion_type)]: [.get] on a value that is no dict
    raises AttributeError, [os.path.join] on a value that is no string
    raises TypeError. *)
Definition get_motion_path (self : t) (motion_type : string)
    : Py.exn + option string :=
  match get self "motions" (Some (Motions ∅)) with
  | Some (Motions motions) =>
      match motions !! motion_type with
      | None => inr None
      | Some motion_file =>
          if String.eqb motion_file "" then inr None
          else
            match get self "model_path" (Some (Str "")) with
            | Some (Str model_path) =>
                let motion_dir := OsPath.join model_path "motion" in
                inr (Some (OsPath.join motion_dir motion_file))
            | _ => inl Py.TypeError
            end
      end
  | _ => inl Py.AttributeError
  end.

End ConfigManager.

(** ** resource.py *)

Module ResourceManager.

Record t : Type := mkResourceManager {
  base_path : string
}.

(** [ResourceManager(base_path)] *)
Definition init (base_path : option string) : t :=
  {| base_path := default "./" base_path |}.

(** What precedes the first [c] in [s]; [None] when [c] does not occur,
    the case where [s.split(c)] has a single part. *)
Fixpoint before_first (c : ascii) (s : string) : option string :=
  match s with
  | EmptyString => None
  | String x rest =>
      if Ascii.eqb x c then Some EmptyString
      else option_map (String x) (before_first c rest)
  end.

(** The group [scan_motions] files a name under: [parts[0]] of
    [file.split("_")] when there is more than one part, ["default"]
    otherwise. *)
Definition group_of (file_ : string) : string :=
  default "default" (before_first "_"%char file_).

(** The loop of [scan_motions] over the directory listing; the dict of
    groups is kept in insertion order. *)
Definition collect (files : list string) (motions : list (string * list string))
    : list (string * list string) :=
  fold_left
    (fun motions file_ =>
       if OsPath.endswith file_ ".motion3.json" then
         let group := group_of file_ in
         let motions :=
           match Py.dict_get motions group with
           | Some _ => motions
           | None => Py.dict_set motions group []
           end in
         Py.dict_set motions group (default [] (Py.dict_get motions group) ++ [file_])
       else motions)
    files motions.

(** [scan_motions(motion_dir)]; [path_exists] is [os.path.exists] and
    [listdir] is [os.listdir], [None] where it raises. *)
Definition scan_motions (path_exists : string -> bool)
    (listdir : string -> option (list string)) (self : t) (motion_dir : string)
    : list (string * list string) :=
  if negb (path_exists motion_dir) then []
  else
    match listdir motion_dir with
    | None => []
    | Some files => collect files []
    end.

(** [get_model_path(model_name)] *)
Definition get_model_path (self : t) (model_name : string) : string :=
  OsPath.join (base_path self) model_name.

(** [get_motion_path(model_name, motion_file)] *)
Definition get_motion_path (self : t) (model_name motion_file : string) : string :=
  let model_path := get_model_path self model_name in
  OsPath.join (OsPath.join model_path "motion") motion_file.

End ResourceManager.

(** ** pet_manager.py: the parts of [PetManager] that drive the engine *)

Module PetManager.

(** [is_valid_model(model_data)] for a decoded model3.json document: the
    [isinstance] tests hold by the schema, so what is left is that
    ["Parts"] is present and not empty and that every part has an ["Id"]
    key. *)
Definition is_valid_model (model_data : ModelParser.document) : bool :=
  match ModelParser.Parts model_data with
  | None => false
  | Some parts =>
      if Nat.eqb (length parts) 0 then false
      else
        forallb (fun part =>
                   match ModelParser.Id part with
                   | Some _ => true
                   | None => false
                   end)
                parts
  end.

(** [setup_physics(physics_data)]: the argument is not read. The hair
    group is filled through the object [create_group] returned, which is
    the one the system holds. *)
Definition setup_physics (sys : Physics.PhysicsSystem) : Py.exn + Physics.PhysicsSystem :=
  let '(sys1, hair_group) :=
    Physics.create_group sys "hair" "PARAM_HAIR_FRONT" "PARAM_ANGLE_X" in
  let g0 :=
    default (Physics.new_group "hair" "PARAM_HAIR_FRONT" "PARAM_ANGLE_X")
            (Physics.groups sys1 !! hair_group) in
  let g1 := fst (Physics.add_point g0 0.0 0.0 1.0 true) in
  let g2 := fst (Physics.add_point g1 0.0 (-5.0) 1.0 false) in
  let g3 := fst (Physics.add_point g2 0.0 (-10.0) 1.0 false) in
  g4 <- Physics.add_spring g3 0 1 None 0.8 ;;
  g5 <- Physics.add_spring g4 1 2 None 0.7 ;;
  inr (Physics.with_groups sys1 (<[hair_group := g5]> (Physics.groups sys1))).

(** [play_motion(motion_type)]: the motion manager after the call, and
    the exception if one was raised. [.get] on a ["motions"] value that is
    no dict raises AttributeError. *)
Definition play_motion (config_manager : ConfigManager.t)
    (motion_manager : MotionManager.t) (motion_type : string)
    : MotionManager.t * (Py.exn + unit) :=
  match ConfigManager.get config_manager "motions"
          (Some (ConfigManager.Motions ∅)) with
  | Some (ConfigManager.Motions motions) =>
      let motion_file := default "" (motions !! motion_type) in
      if String.eqb motion_file "" then (motion_manager, inr tt)
      else
        let motion_name := OsPath.splitext_root (OsPath.basename motion_file) in
        let '(motion_manager', r) :=
          MotionManager.play_motion motion_manager motion_name None None in
        (motion_manager', _ <- r ;; inr tt)
  | _ => (motion_manager, inl Py.AttributeError)
  end.

End PetManager.

(* ================================================================== *)
(** * Vocabulary of the properties, and the scenarios they are tried on *)
(* ================================================================== *)

Section CurveVocabulary.
Import BezierCalculator.

(** What the loop returns from a state that satisfies the invariant: every
    sample left of [left] is below [t], every sample right of [right] is
    above it. *)
Definition search_post (N : Z) (time val : Z -> R) (t : R) (r : search_result)
    : Prop :=
  match r with
  | Found v => exists i, (0 <= i <= N)%Z /\ time i = t /\ v = val i
  | Bracket right_ left_ =>
      (0 <= right_)%Z /\ left_ = (right_ + 1)%Z /\ (left_ <= N)%Z
      /\ time right_ < t < time left_
  | SearchRaise _ => False
  end.

End CurveVocabulary.

Section PhysicsScenarios.
Import Physics.

(** A system with one group made of one free point of mass 1 at the
    origin: the point falls under gravity for one step. *)
Definition falling_point : PhysicsSystem :=
  {| parameter_manager := ParameterManager.init;
     groups := [fst (add_point (new_group "hair" "ParamHairFront" "ParamAngleX")
                               0 0 1 false)];
     gravity := (0, -9.8); air_resistance := 0.01; last_update_time := 0 |}.

(** Height of the first point of the first group of a system. *)
Definition first_height (sys : PhysicsSystem) : R :=
  match groups sys with
  | g :: _ => match points g with
              | p :: _ => snd (position p)
              | [] => 0
              end
  | [] => 0
  end.

(** The one spring of a two-point group, in either orientation, with
    stiffness 1 and rest length [L]. *)
Definition spring_between (swapped : bool) (L : R) : PhysicsSpring :=
  if swapped then mkPhysicsSpring 1 0 (Some L) 1
  else mkPhysicsSpring 0 1 (Some L) 1.

End PhysicsScenarios.

Section MotionScenarios.
Import MotionManager.

(** A curve on a parameter made of one linear segment [0, 100, value]: it
    holds [value] up to time 100. *)
Definition held_curve (param : string) (value : R) : MotionParser.curve :=
  MotionParser.mkCurve (Some "Parameter") (Some param) (Some [0; 100; value]).

(** Motion documents A and B, each driving ParamAngleX: A holds 10, B
    holds 20; both last 3 s and fade in and out over 1 s. *)
Definition doc_A : MotionParser.document :=
  MotionParser.mkDocument
    (Some (MotionParser.mkMeta (Some 3) None None (Some 1) (Some 1)))
    (Some [held_curve "ParamAngleX" 10]).

Definition doc_B : MotionParser.document :=
  MotionParser.mkDocument
    (Some (MotionParser.mkMeta (Some 3) None None (Some 1) (Some 1)))
    (Some [held_curve "ParamAngleX" 20]).



Definition data_A : MotionParser.motion_data :=
  fst (MotionParser.json_load doc_A MotionParser.empty_heap).

Definition heap_A : MotionParser.heap :=
  snd (MotionParser.from_dict "A" data_A
         (snd (MotionParser.json_load doc_A MotionParser.empty_heap))).

Definition data_B : MotionParser.motion_data :=
  fst (MotionParser.json_load doc_B heap_A).

(** The store holding the curve lists of both documents. *)
Definition heap_AB : MotionParser.heap :=
  snd (MotionParser.from_dict "B" data_B (snd (MotionParser.json_load doc_B heap_A))).

(** The [Motion] objects [Motion.from_dict] builds from A and B. *)
Definition motion_A : MotionParser.Motion :=
  fst (MotionParser.from_dict "A" data_A
         (snd (MotionParser.json_load doc_A MotionParser.empty_heap))).

Definition motion_B : MotionParser.Motion :=
  fst (MotionParser.from_dict "B" data_B (snd (MotionParser.json_load doc_B heap_A))).

Definition with_motions (self : MotionManager.t)
    (ms : gmap string motion_object) : MotionManager.t :=
  {| parameter_manager := parameter_manager self;
     motion_parser := motion_parser self;
     current_motion := current_motion self;
     fade_out_motion := fade_out_motion self;
     current_time := current_time self;
     last_update_time := last_update_time self; motions := ms |}.

(** A manager whose [motions] holds the two [Motion] objects, as
    [load_motion] stores them. *)
Definition manager_with_objects : MotionManager.t :=
  with_motions (init ParameterManager.init)
    (<["A" := MotionObject motion_A]> (<["B" := MotionObject motion_B]> ∅)).

(** The same manager after [play_motion("A")] then [play_motion("B")]. *)
Definition playing_B_over_A : MotionManager.t :=
  fst (play_motion (fst (play_motion manager_with_objects "A" None None))
         "B" None None).

(** A manager whose [motions] holds the raw documents, the kind of value
    [update] can read, in the state B-over-A: B current since 0 s, A fading
    out over 1 s. *)
Definition raw_playing_B_over_A : MotionManager.t :=
  {| parameter_manager := ParameterManager.init;
     motion_parser := MotionParser.init;
     current_motion :=
       Some {| name := "B"; time := 0; loop := true; fade_in_time := 1 |};
     fade_out_motion :=
       Some {| motion := RawDict data_A; start_time := 0; fade_out_time := 1 |};
     current_time := 0; last_update_time := 0;
     motions := <["A" := RawDict data_A]> (<["B" := RawDict data_B]> ∅) |}.

End MotionScenarios.

Section ModelScenarios.
Import ModelParser.

(** A host with one model file, which decodes to the given value. *)
Definition single_file (file_ : string) (model_data : decoded) : filesystem :=
  {| path_exists := fun q => String.eqb q file_;
     isdir := fun _ => false;
     read_json := fun q => if String.eqb q file_ then Some model_data else None |}.

(** A document with a version and nothing else: no part at all. *)
Definition no_parts : document := mkDocument (Some 3%Z) None None None.

(** A document whose only part has an empty id. *)
Definition empty_id_part : document :=
  mkDocument (Some 3%Z) None None
    (Some [mkPart (Some "") None (Some "texture_00.png") None (Some 0%Z)]).

End ModelScenarios.

Section SortVocabulary.

Definition key_le {A : Type} (key : A -> Z) (a b : A) : Prop :=
  (key a <= key b)%Z.

End SortVocabulary.

Section RenderVocabulary.
Import Renderer.

(** The calls that tell which part is drawn: the texture bound and the
    draw itself. *)
Definition is_bind_or_draw (c : gl_call) : bool :=
  match c with
  | glBindTexture _ | glDrawElements _ => true
  | _ => false
  end.

(** The parts [render] draws: those visible and holding a texture. *)
Definition drawable (p : part) : bool :=
  (visible p && match texture p with Some _ => true | None => false end)%bool.

(** The texture bind and the draw call of one drawn part. *)
Definition draw_of (p : part) : list gl_call :=
  match texture p with
  | Some tex => [glBindTexture (TextureManager.id tex);
                 glDrawElements (index_count (part_mesh p))]
  | None => []
  end.

(** The states a renderer goes through: built, then any sequence of its
    methods. *)
Inductive reachable (w : TextureManager.world) : Renderer.t -> Prop :=
| reach_init : reachable w Renderer.init
| reach_initialize (r : Renderer.t) (gl_ok : bool) :
    reachable w r -> reachable w (initialize gl_ok r)
| reach_load_model (r : Renderer.t) (m : ModelParser.model) :
    reachable w r -> reachable w (load_model w r m)
| reach_render (r : Renderer.t) (pm : ParameterManager.t) :
    reachable w r -> reachable w (fst (render r pm))
| reach_set_quality (r : Renderer.t) (q : string) :
    reachable w r -> reachable w (set_quality r q)
| reach_cleanup (r : Renderer.t) :
    reachable w r -> reachable w (cleanup r).

(** A cached order is always the result of a sort by depth. *)
Definition cache_sorted (r : Renderer.t) : Prop :=
  forall cached, sorted_parts r = Some cached ->
  exists l, cached = Py.sorted depth l.

(** A part of a model that [load_model] keeps and finds a texture for: a
    non-empty id, and a texture path that exists and decodes. *)
Definition loadable (w : TextureManager.world) (p : ModelParser.part)
    (part_id : string) : Prop :=
  ModelParser.Id p = Some part_id /\ part_id <> ""
  /\ exists path size,
       ModelParser.TexturePath p = Some path /\ path <> ""
       /\ TextureManager.file_exists w path = true
       /\ TextureManager.image_size w path = Some size.

(** A host where every texture file exists and decodes to 512 x 512. *)
Definition demo_world : TextureManager.world :=
  {| TextureManager.file_exists := fun _ => true;
     TextureManager.image_size := fun _ => Some (512, 512)%Z |}.

(** A model of two parts, the one at depth 1 declared first. *)
Definition demo_model : ModelParser.model :=
  {| ModelParser.m_Version := 3;
     ModelParser.m_FileReferences := ModelParser.mkFileReferences None None None None;
     ModelParser.m_Parameters := [];
     ModelParser.m_Parts :=
       [ModelParser.mkPart (Some "hair") None (Some "/m/hair.png") None (Some 1%Z);
        ModelParser.mkPart (Some "body") None (Some "/m/body.png") None (Some 0%Z)] |}.

(** The renderer after [initialize()] and [load_model(demo_model)]. *)
Definition demo_renderer : Renderer.t :=
  load_model demo_world (initialize true Renderer.init) demo_model.

(** Another model of two textured parts, at depths 0 and 1, with other
    ids. *)
Definition second_model : ModelParser.model :=
  {| ModelParser.m_Version := 3;
     ModelParser.m_FileReferences := ModelParser.mkFileReferences None None None None;
     ModelParser.m_Parameters := [];
     ModelParser.m_Parts :=
       [ModelParser.mkPart (Some "face") None (Some "/n/face.png") None (Some 0%Z);
        ModelParser.mkPart (Some "arm") None (Some "/n/arm.png") None (Some 1%Z)] |}.

(** The renderer after [initialize()], [load_model(demo_model)], one frame
    and [load_model(second_model)]. *)
Definition stale_renderer : Renderer.t :=
  load_model demo_world (fst (render demo_renderer ParameterManager.init))
             second_model.

(** A model of one textured part. *)
Definition solo_model : ModelParser.model :=
  {| ModelParser.m_Version := 3;
     ModelParser.m_FileReferences := ModelParser.mkFileReferences None None None None;
     ModelParser.m_Parameters := [];
     ModelParser.m_Parts :=
       [ModelParser.mkPart (Some "body") None (Some "/m/body.png") None (Some 0%Z)] |}.

(** The renderer after [initialize()], one frame (of the debug quad) and
    [load_model(solo_model)]. *)
Definition solo_renderer : Renderer.t :=
  load_model demo_world
             (fst (render (initialize true Renderer.init) ParameterManager.init))
             solo_model.

(** What tells the parts of a renderer apart: key, depth, visibility and
    the GL name of the texture held. *)
Definition part_summary (kv : string * part) : string * Z * bool * option Z :=
  (fst kv, depth (snd kv), visible (snd kv),
   option_map TextureManager.id (texture (snd kv))).

End RenderVocabulary.

Section ParameterVocabulary.
Import ParameterManager.

(** The bounds [set_parameter] clamps with: those registered for the id,
    or the ones it registers for an unknown id. *)
Definition bounds (pm : ParameterManager.t) (param_id : string) : R * R :=
  match parameter_definitions pm !! param_id with
  | Some d => (def_min d, def_max d)
  | None => (-100, 100)
  end.

(** An entry of a definition list that names the parameter [param_id]. *)
Definition registers (param_def : ModelParser.parameter_def) (param_id : string) : Prop :=
  ModelParser.pd_Id param_def = Some param_id /\ param_id <> "".

(** A definition whose default lies between its bounds. *)
Definition sane_definition (default_value min_value max_value : R) : Prop :=
  min_value <= default_value <= max_value.

(** The states of a parameter manager: a new one, then any sequence of
    its methods, [register_parameter] being called with arguments that
    satisfy [ok]. *)
Inductive reachable_parameters (ok : R -> R -> R -> Prop) : ParameterManager.t -> Prop :=
| reach_new : reachable_parameters ok ParameterManager.init
| reach_register pm param_id d lo hi :
    reachable_parameters ok pm -> ok d lo hi ->
    reachable_parameters ok (register_parameter pm param_id d lo hi)
| reach_set pm param_id v :
    reachable_parameters ok pm -> reachable_parameters ok (set_parameter pm param_id v)
| reach_update pm param_dict :
    reachable_parameters ok pm -> reachable_parameters ok (update_parameters pm param_dict)
| reach_reset pm :
    reachable_parameters ok pm -> reachable_parameters ok (reset_parameters pm).

(** Every value has a definition and every definition a value. *)
Definition agree (pm : ParameterManager.t) : Prop :=
  forall id, is_Some (parameters pm !! id) <-> is_Some (parameter_definitions pm !! id).

(** Every definition has its default between its bounds, and every value
    lies between the bounds of its definition. *)
Definition within_bounds (pm : ParameterManager.t) : Prop :=
  (forall id d, parameter_definitions pm !! id = Some d ->
     def_min d <= def_default d <= def_max d)
  /\ (forall id v d, parameters pm !! id = Some v ->
        parameter_definitions pm !! id = Some d -> def_min d <= v <= def_max d).

End ParameterVocabulary.

Section EvaluatorVocabulary.
Import BezierCalculator.

(** A calculator as the evaluator keeps it: a positive precision, and
    every cached table built by [create_curve_cache] at that precision. *)
Definition well_formed_cache (bc : BezierCalculator.t) : Prop :=
  (0 < precision bc)%Z
  /\ forall sid c, curve_cache bc !! sid = Some c ->
       exists p0 p1 p2 p3, c = cache_data (precision bc) p0 p1 p2 p3.

End EvaluatorVocabulary.

Section PathVocabulary.

(** A name with no path separator and no dot in it. *)
Definition plain_name (s : string) : Prop :=
  Forall (fun x => x <> "/"%char /\ x <> "."%char) (list_ascii_of_string s).

End PathVocabulary.

Section ManagerVocabulary.
Import MotionManager.

(** The states of a motion manager: a new one, then any sequence of
    [load_motion], [play_motion] and [update] calls, and of writes to the
    parameter store it shares with the other systems. *)
Inductive reachable_manager : MotionManager.t -> Prop :=
| reach_manager_init (pm : ParameterManager.t) : reachable_manager (init pm)
| reach_manager_load (memory : nat) (fs : gmap string MotionParser.file)
    (mm mm' : MotionManager.t) (h h' : MotionParser.heap) (motion_path : string)
    (r : option string) :
    reachable_manager mm ->
    load_motion memory fs mm h motion_path = (r, mm', h') ->
    reachable_manager mm'
| reach_manager_play (mm : MotionManager.t) (motion_name : string)
    (loop : option bool) (fade_in_time : option R) :
    reachable_manager mm ->
    reachable_manager (fst (play_motion mm motion_name loop fade_in_time))
| reach_manager_update (mm : MotionManager.t) (h : MotionParser.heap) (delta_time : R) :
    reachable_manager mm ->
    reachable_manager (Py.state_of (update mm h delta_time))
| reach_manager_parameters (mm : MotionManager.t) (pm : ParameterManager.t) :
    reachable_manager mm ->
    reachable_manager (with_parameter_manager mm pm).

(** Every stored motion is a [Motion] object, and the motion being played
    is one of the stored ones. *)
Definition loaded_objects (mm : MotionManager.t) : Prop :=
  (forall k o, motions mm !! k = Some o -> exists m, o = MotionObject m)
  /\ (forall cm, current_motion mm = Some cm -> is_Some (motions mm !! name cm)).

(** A motion file without curves, the one kind [parse_motion_file] gets
    through, and what parsing it into a new parser leaves behind. *)
Definition idle_path : string := "motions/idle_01.motion3.json".

Definition idle_files : gmap string MotionParser.file :=
  {[ idle_path := MotionParser.MotionDocument (MotionParser.mkDocument None None) ]}.

Definition idle_motion : MotionParser.Motion :=
  MotionParser.mkMotion "idle_01.motion3" 0.0 30.0 true 1.0 1.0 1%nat.

Definition idle_parser : MotionParser.t :=
  {| MotionParser.motion_cache := {[ idle_path := idle_motion ]};
     MotionParser.segment_evaluator := SegmentEvaluator.init |}.

Definition idle_heap : MotionParser.heap :=
  {| MotionParser.cells := <[2%nat := []]> (<[1%nat := []]> (<[0%nat := []]> ∅));
     MotionParser.next_loc := 3%nat |}.

(** The manager after [load_motion(idle_path)] on a new manager. *)
Definition idle_manager : MotionManager.t :=
  {| parameter_manager := ParameterManager.init;
     motion_parser := idle_parser;
     current_motion := None; fade_out_motion := None;
     current_time := 0.0; last_update_time := 0.0;
     motions := {[ "idle_01.motion3" := MotionObject idle_motion ]} |}.

(** The configuration of a host without configuration file. *)
Definition default_configuration : ConfigManager.t :=
  ConfigManager.init "/home/pet" (fun _ => ConfigManager.Missing) None.

End ManagerVocabulary.

Section PhysicsVocabulary.
Import Physics.

(** What [update] may change of a point: a point keeps its mass and its
    [fixed] flag, and a fixed point keeps everything. *)
Definition same_body (p p' : PhysicsPoint) : Prop :=
  mass p' = mass p /\ fixed p' = fixed p /\ (fixed p = true -> p' = p).

(** The same for the points of a group, position by position. *)
Definition same_bodies (pts pts' : list PhysicsPoint) : Prop :=
  length pts' = length pts
  /\ forall j p, pts !! j = Some p -> exists p', pts' !! j = Some p' /\ same_body p p'.

(** A group after an update: its identity, its parameters and its springs
    are the ones it had, and so are its bodies. *)
Definition same_frame (g g' : PhysicsGroup) : Prop :=
  id g' = id g
  /\ influence_parameter g' = influence_parameter g
  /\ input_parameter g' = input_parameter g
  /\ springs g' = springs g
  /\ same_bodies (points g) (points g').

(** A spring [solve_constraints] can process in a group of [n] points: it
    has a rest length, and no index below [-n]. *)
Definition spring_ok (n : nat) (spring : PhysicsSpring) : Prop :=
  (- Z.of_nat n <= point1_idx spring)%Z
  /\ (- Z.of_nat n <= point2_idx spring)%Z
  /\ is_Some (rest_length spring).

(** A point on the vertical line [x = x0] that does not move sideways. *)
Definition upright (x0 : R) (p : PhysicsPoint) : Prop :=
  fst (position p) = x0 /\ fst (prev_position p) = x0 /\ fst (velocity p) = 0.

(** The chain of three points [setup_physics] hangs from a fixed point, and
    a system that holds just this chain. *)
Definition hair_chain : PhysicsGroup :=
  {| id := "hair"; influence_parameter := "PARAM_HAIR_FRONT";
     input_parameter := "PARAM_ANGLE_X";
     points := [new_point 0 0 1 true; new_point 0 (-5) 1 false;
                new_point 0 (-10) 1 false];
     springs := [mkPhysicsSpring 0 1 (Some 5) 0.8;
                 mkPhysicsSpring 1 2 (Some 5) 0.7] |}.

Definition hair_system : PhysicsSystem :=
  with_groups (new_system ParameterManager.init) [hair_chain].

End PhysicsVocabulary.

Section TextureVocabulary.
Import TextureManager.

(** The states of a texture manager used on its own: a new one, then any
    sequence of its methods, on any host. *)
Inductive reachable_textures : TextureManager.t -> Prop :=
| reach_textures_init : reachable_textures TextureManager.init
| reach_textures_load (w : world) (tm : TextureManager.t) (path : string)
    (force_reload : bool) :
    reachable_textures tm ->
    reachable_textures (snd (load_texture w tm path force_reload))
| reach_textures_quality (tm : TextureManager.t) (quality : string) :
    reachable_textures tm -> reachable_textures (set_quality tm quality)
| reach_textures_clear (tm : TextureManager.t) :
    reachable_textures tm -> reachable_textures (clear_cache tm).

(** The cache and the usage counts have the same keys in the same order,
    each once, and the cache is within its limit of 50. *)
Definition cache_in_step (tm : TextureManager.t) : Prop :=
  max_textures tm = 50%Z
  /\ (textures tm).*1 = (texture_usage tm).*1
  /\ NoDup (textures tm).*1
  /\ (length (textures tm) <= 50)%nat.

End TextureVocabulary.

Section ModelVocabulary.

(** The dict [Renderer.load_model] reads when it is handed a decoded
    document: of the document's keys it reads ["Parts"] only. *)
Definition raw_model (model_data : ModelParser.document) : ModelParser.model :=
  {| ModelParser.m_Version := default 3%Z (ModelParser.Version model_data);
     ModelParser.m_FileReferences :=
       default (ModelParser.mkFileReferences None None None None)
               (ModelParser.FileReferences model_data);
     ModelParser.m_Parameters := [];
     ModelParser.m_Parts := default [] (ModelParser.Parts model_data) |}.

(** An initialised renderer holding one part without deformers. *)
Definition plain_part : Renderer.part :=
  {| Renderer.id := Some "body"; Renderer.name := "body"; Renderer.opacity := 1.0;
     Renderer.visible := true; Renderer.texture_path := "";
     Renderer.part_mesh := {| Renderer.index_count := 6 |};
     Renderer.deformers := []; Renderer.depth := 0; Renderer.texture := None |}.

Definition plain_renderer : Renderer.t :=
  {| Renderer.texture_manager := TextureManager.init;
     Renderer.parts := [("body", plain_part)]; Renderer.initialized := true;
     Renderer.shader_program := 1; Renderer.vao := 1; Renderer.vbo := 1;
     Renderer.ebo := 2; Renderer.sorted_parts := None |}.

End ModelVocabulary.

Section ConfigVocabulary.
Import ConfigManager.

(** The states of a configuration manager: built on any host, then any
    sequence of [set], [load_config] and [reset]. ([get] hands out the stored
    object itself; a caller that changes a dict it got in place is not one
    of these steps.) *)
Inductive reachable_config : ConfigManager.t -> Prop :=
| reach_config_init (home : string) (disk : string -> file) (config_path : option string) :
    reachable_config (ConfigManager.init home disk config_path)
| reach_config_set (self : ConfigManager.t) (key : string) (v : value) :
    reachable_config self -> reachable_config (set self key v)
| reach_config_load (self : ConfigManager.t) (f : file) :
    reachable_config self -> reachable_config (fst (load_config f self))
| reach_config_reset (self : ConfigManager.t) :
    reachable_config self -> reachable_config (reset self).

(** A configuration loaded from a file that sets one known key and one
    unknown key, changed by [set], then reset. *)
Definition sample_configuration : ConfigManager.t :=
  reset
    (set (ConfigManager.init "/home/pet"
            (fun _ => Document [("opacity", Float 0.5); ("theme", Str "dark")]) None)
         "quality" (Str "low")).

End ConfigVocabulary.

Section ResourceVocabulary.
Import ResourceManager.

(** The motion files of a listing that [scan_motions] files under the
    group [g], in the order of the listing. *)
Definition motions_of_group (g : string) (files : list string) : list string :=
  List.filter (fun f => (OsPath.endswith f ".motion3.json"
                         && String.eqb (group_of f) g)%bool) files.

End ResourceVocabulary.

(* ================================================================== *)
(** * Properties *)
(* ================================================================== *)

(** ** Parameter store *)

Section ParameterProperties.
Import ParameterManager.

Lemma clamp_within (v lo hi : R) :
  lo <= hi -> lo <= MathUtils.clamp v lo hi <= hi.
Proof.
  intros Hb. unfold MathUtils.clamp, Py.max, Py.min.
  repeat destruct (Rlt_dec _ _); lra.
Qed.

Lemma clamp_idempotent (v lo hi : R) :
  MathUtils.clamp (MathUtils.clamp v lo hi) lo hi = MathUtils.clamp v lo hi.
Proof.
  unfold MathUtils.clamp, Py.max, Py.min.
  repeat destruct (Rlt_dec _ _); lra.
Qed.

Lemma set_parameter_registered pm id v d :
  parameter_definitions pm !! id = Some d ->
  set_parameter pm id v =
    {| parameter_definitions := parameter_definitions pm;
       parameters :=
         <[id := MathUtils.clamp v (def_min d) (def_max d)]> (parameters pm) |}.
Proof. intros H. unfold set_parameter. rewrite H. simpl. rewrite H. reflexivity. Qed.

Lemma set_parameter_unregistered pm id v :
  parameter_definitions pm !! id = None ->
  set_parameter pm id v =
    {| parameter_definitions :=
         <[id := mkDefinition 0 (-100) 100]> (parameter_definitions pm);
       parameters :=
         <[id := MathUtils.clamp v (-100) 100]> (parameters pm) |}.
Proof.
  intros H. unfold set_parameter. rewrite H. simpl.
  rewrite lookup_insert_eq. simpl. rewrite insert_insert_eq. reflexivity.
Qed.

Lemma set_parameter_keeps_definition pm id v d :
  parameter_definitions pm !! id = Some d ->
  parameter_definitions (set_parameter pm id v) !! id = Some d.
Proof. intros H. rewrite (set_parameter_registered _ _ _ _ H). exact H. Qed.

(** C2. After [set_parameter(id, v)], [get_parameter(id)] is
    [clamp(v, min, max)] for the bounds registered for [id]; an id that was
    not registered is registered with default 0 and bounds [-100, 100] and
    stores [clamp(v, -100, 100)]; setting the same value again changes
    nothing, and clamping an already clamped value returns it. *)
Theorem C2_set_then_get_is_clamp (pm : ParameterManager.t) (id : string) (v dflt : R) :
  (forall d, parameter_definitions pm !! id = Some d ->
     get_parameter (set_parameter pm id v) id dflt
       = MathUtils.clamp v (def_min d) (def_max d)
     /\ parameter_definitions (set_parameter pm id v) !! id = Some d)
  /\ (parameter_definitions pm !! id = None ->
     parameter_definitions (set_parameter pm id v) !! id
       = Some (mkDefinition 0 (-100) 100)
     /\ get_parameter (set_parameter pm id v) id dflt
       = MathUtils.clamp v (-100) 100)
  /\ set_parameter (set_parameter pm id v) id v = set_parameter pm id v
  /\ set_parameter (set_parameter pm id v) id
       (get_parameter (set_parameter pm id v) id dflt)
     = set_parameter pm id v.
Proof.
  assert (Hreg : forall d, parameter_definitions pm !! id = Some d ->
            forall w,
            set_parameter (set_parameter pm id v) id w =
            {| parameter_definitions := parameter_definitions pm;
               parameters := <[id := MathUtils.clamp w (def_min d) (def_max d)]>
                               (parameters pm) |}).
  { intros d Hd w.
    rewrite (set_parameter_registered _ _ w d (set_parameter_keeps_definition _ _ _ _ Hd)).
    rewrite (set_parameter_registered _ _ v d Hd). simpl.
    rewrite insert_insert_eq. reflexivity. }
  assert (Hunreg : parameter_definitions pm !! id = None ->
            forall w,
            set_parameter (set_parameter pm id v) id w =
            {| parameter_definitions :=
                 <[id := mkDefinition 0 (-100) 100]> (parameter_definitions pm);
               parameters := <[id := MathUtils.clamp w (-100) 100]> (parameters pm) |}).
  { intros Hn w. rewrite (set_parameter_unregistered _ _ v Hn).
    erewrite set_parameter_registered by (simpl; apply lookup_insert_eq).
    simpl. rewrite insert_insert_eq. reflexivity. }
  split; [|split; [|split]].
  - intros d Hd. split.
    + rewrite (set_parameter_registered _ _ _ _ Hd). unfold get_parameter. simpl.
      rewrite lookup_insert_eq. reflexivity.
    + apply set_parameter_keeps_definition, Hd.
  - intros Hn. rewrite (set_parameter_unregistered _ _ _ Hn). unfold get_parameter.
    simpl. rewrite !lookup_insert_eq. split; reflexivity.
  - destruct (parameter_definitions pm !! id) as [d|] eqn:Hd.
    + rewrite (Hreg d eq_refl). rewrite (set_parameter_registered _ _ _ _ Hd). reflexivity.
    + rewrite (Hunreg eq_refl). rewrite (set_parameter_unregistered _ _ _ Hd). reflexivity.
  - destruct (parameter_definitions pm !! id) as [d|] eqn:Hd.
    + rewrite (Hreg d eq_refl). rewrite (set_parameter_registered _ _ v _ Hd).
      unfold get_parameter. simpl. rewrite lookup_insert_eq.
      rewrite clamp_idempotent. reflexivity.
    + rewrite (Hunreg eq_refl). rewrite (set_parameter_unregistered _ _ v Hd).
      unfold get_parameter. simpl. rewrite lookup_insert_eq.
      rewrite clamp_idempotent. reflexivity.
Qed.

(** A parameter registered with bounds [-30, 30] and one never registered,
    both written with a value above their upper bound. *)
Lemma C2_witness :
  get_parameter
    (set_parameter (register_parameter init "ParamAngleX" 0 (-30) 30)
       "ParamAngleX" 45) "ParamAngleX" 0 = 30
  /\ get_parameter (set_parameter init "ParamBreath" 250) "ParamBreath" 0 = 100.
Proof.
  split.
  - destruct (C2_set_then_get_is_clamp
                (register_parameter init "ParamAngleX" 0 (-30) 30)
                "ParamAngleX" 45 0) as [Hreg _].
    destruct (Hreg (mkDefinition 0 (-30) 30)) as [Hget _].
    { simpl. apply lookup_insert_eq. }
    rewrite Hget. unfold MathUtils.clamp, Py.max, Py.min. simpl.
    repeat destruct (Rlt_dec _ _); lra.
  - destruct (C2_set_then_get_is_clamp init "ParamBreath" 250 0) as [_ [Hunreg _]].
    destruct Hunreg as [_ Hget].
    { simpl. apply lookup_empty. }
    rewrite Hget. unfold MathUtils.clamp, Py.max, Py.min.
    repeat destruct (Rlt_dec _ _); lra.
Defined.

End ParameterProperties.

(** ** Curve evaluator: the sample table *)

Section CurveCacheProperties.
Import BezierCalculator.

Lemma range_length (n : Z) : length (Py.range n) = Z.to_nat n.
Proof. unfold Py.range. rewrite length_map, length_seq. reflexivity. Qed.

Lemma range_nth (n : Z) (i : nat) :
  (i < Z.to_nat n)%nat -> nth_error (Py.range n) i = Some (Z.of_nat i).
Proof.
  intros Hi. unfold Py.range. rewrite nth_error_map.
  rewrite nth_error_seq. apply Nat.ltb_lt in Hi. rewrite Hi. reflexivity.
Qed.

Lemma cache_data_length (N : Z) (p0 p1 p2 p3 : R) :
  length (cache_data N p0 p1 p2 p3) = Z.to_nat (N + 1).
Proof. unfold cache_data. rewrite length_map. apply range_length. Qed.

(** Sample [i] of a freshly built table is the curve at [i / precision]. *)
Lemma getitem_cache_data (N : Z) (p0 p1 p2 p3 : R) (i : Z) :
  (0 <= i <= N)%Z ->
  Py.getitem (cache_data N p0 p1 p2 p3) i
    = inr (IZR i / IZR N, calculate_point p0 p1 p2 p3 (IZR i / IZR N)).
Proof.
  intros Hi. unfold Py.getitem, Py.index_of. rewrite cache_data_length.
  replace (i <? 0)%Z with false by (symmetry; apply Z.ltb_ge; lia).
  replace (i <? 0)%Z with false by (symmetry; apply Z.ltb_ge; lia).
  replace (Z.of_nat (Z.to_nat (N + 1)) <=? i)%Z with false
    by (symmetry; apply Z.leb_gt; lia).
  simpl. unfold cache_data. rewrite nth_error_map.
  rewrite range_nth by lia. simpl. rewrite Z2Nat.id by lia. reflexivity.
Qed.

Lemma getitem_cache_data_last (N : Z) (p0 p1 p2 p3 : R) :
  (0 < N)%Z ->
  Py.getitem (cache_data N p0 p1 p2 p3) (-1)
    = inr (1, calculate_point p0 p1 p2 p3 1).
Proof.
  intros HN. unfold Py.getitem, Py.index_of. rewrite cache_data_length.
  change (-1 <? 0)%Z with true. cbv iota.
  replace (-1 + Z.of_nat (Z.to_nat (N + 1)))%Z with N by lia.
  replace (N <? 0)%Z with false by (symmetry; apply Z.ltb_ge; lia).
  replace (Z.of_nat (Z.to_nat (N + 1)) <=? N)%Z with false
    by (symmetry; apply Z.leb_gt; lia).
  simpl. unfold cache_data. rewrite nth_error_map.
  rewrite range_nth by lia. simpl. rewrite Z2Nat.id by lia.
  assert (HNR : IZR N <> 0) by (apply not_0_IZR; lia).
  replace (IZR N / IZR N) with 1 by (field; exact HNR). reflexivity.
Qed.

Lemma create_curve_cache_lookup (bc bc' : BezierCalculator.t) (id : string)
    (p0 p1 p2 p3 : R) :
  create_curve_cache bc id p0 p1 p2 p3 = inr bc' ->
  precision bc <> 0%Z
  /\ curve_cache bc' !! id = Some (cache_data (precision bc) p0 p1 p2 p3).
Proof.
  unfold create_curve_cache. destruct (Z.eqb_spec (precision bc) 0); [discriminate|].
  intros [= <-]. simpl. rewrite lookup_insert_eq. split; [assumption|reflexivity].
Qed.

(** [evaluate_cached] on any non-empty table, below its first sample time. *)
Lemma evaluate_cached_below (bc : BezierCalculator.t) (id : string)
    (c : list (R * R)) (first : R * R) (t : R) :
  curve_cache bc !! id = Some c ->
  Py.getitem c 0 = inr first ->
  t <= fst first ->
  evaluate_cached bc id t = inr (snd first).
Proof.
  intros Hc Hf Ht. unfold evaluate_cached. rewrite Hc, Hf. simpl.
  destruct (Rle_dec t (fst first)); [reflexivity|contradiction].
Qed.

(** [evaluate_cached] above the last sample time (and above the first). *)
Lemma evaluate_cached_above (bc : BezierCalculator.t) (id : string)
    (c : list (R * R)) (first last : R * R) (t : R) :
  curve_cache bc !! id = Some c ->
  Py.getitem c 0 = inr first ->
  Py.getitem c (-1) = inr last ->
  fst first < t ->
  fst last <= t ->
  evaluate_cached bc id t = inr (snd last).
Proof.
  intros Hc Hf Hl Ht1 Ht2. unfold evaluate_cached. rewrite Hc, Hf. simpl.
  destruct (Rle_dec t (fst first)); [lra|]. rewrite Hl. simpl.
  destruct (Rge_dec t (fst last)); [reflexivity|lra].
Qed.

(** C7. For a curve cached by [create_curve_cache] and a [t] outside
    [0, 1], [evaluate_cached] returns the value of the first sample (the
    sample at time 0) when [t] is below it and the value of the last sample
    (the sample at time 1) when [t] is above it: the boundary sample itself,
    whatever the distance of [t] from the interval. *)
Theorem C7_evaluate_cached_outside_unit_interval
    (bc bc' : BezierCalculator.t) (id : string) (p0 p1 p2 p3 t : R) :
  (0 < precision bc)%Z ->
  create_curve_cache bc id p0 p1 p2 p3 = inr bc' ->
  exists cached_curve first last,
    curve_cache bc' !! id = Some cached_curve
    /\ Py.getitem cached_curve 0 = inr first
    /\ Py.getitem cached_curve (-1) = inr last
    /\ fst first = 0 /\ fst last = 1
    /\ (t < 0 -> evaluate_cached bc' id t = inr (snd first))
    /\ (1 < t -> evaluate_cached bc' id t = inr (snd last)).
Proof.
  intros HN Hc. apply create_curve_cache_lookup in Hc as [_ Hc].
  pose proof (getitem_cache_data (precision bc) p0 p1 p2 p3 0 ltac:(lia)) as H0.
  pose proof (getitem_cache_data_last (precision bc) p0 p1 p2 p3 HN) as H1.
  assert (Hz : IZR 0 / IZR (precision bc) = 0).
  { unfold Rdiv. apply Rmult_0_l. }
  rewrite Hz in H0.
  eexists _, _, _. split; [exact Hc|]. split; [exact H0|]. split; [exact H1|].
  simpl. split; [reflexivity|]. split; [reflexivity|]. split.
  - intros Ht. rewrite (evaluate_cached_below _ _ _ _ _ Hc H0); [reflexivity|simpl; lra].
  - intros Ht. rewrite (evaluate_cached_above _ _ _ _ _ _ Hc H0 H1); [reflexivity|simpl; lra..].
Qed.

(** A cubic Bezier cached at the default precision, evaluated on both sides
    of the unit interval: the end control points are returned. *)
Lemma C7_witness :
  evaluate_cached
    {| curve_cache := <["ParamAngleX_0" := cache_data 200 0 1 2 3]> ∅;
       precision := 200 |} "ParamAngleX_0" (-5) = inr 0
  /\ evaluate_cached
    {| curve_cache := <["ParamAngleX_0" := cache_data 200 0 1 2 3]> ∅;
       precision := 200 |} "ParamAngleX_0" 7 = inr 3.
Proof.
  assert (Hends : forall t,
    (t < 0 -> evaluate_cached
       {| curve_cache := <["ParamAngleX_0" := cache_data 200 0 1 2 3]> ∅;
          precision := 200 |} "ParamAngleX_0" t = inr (calculate_point 0 1 2 3 0))
    /\ (1 < t -> evaluate_cached
       {| curve_cache := <["ParamAngleX_0" := cache_data 200 0 1 2 3]> ∅;
          precision := 200 |} "ParamAngleX_0" t = inr (calculate_point 0 1 2 3 1))).
  { intros t.
    destruct (C7_evaluate_cached_outside_unit_interval init
                {| curve_cache := <["ParamAngleX_0" := cache_data 200 0 1 2 3]> ∅;
                   precision := 200 |} "ParamAngleX_0" 0 1 2 3 t)
      as (c & first & last & Hc & Hf & Hl & _ & _ & Hlow & Hhigh).
    - simpl. lia.
    - reflexivity.
    - cbn [curve_cache] in Hc. rewrite lookup_insert_eq in Hc.
      injection Hc as <-.
      rewrite (getitem_cache_data 200 0 1 2 3 0 ltac:(lia)) in Hf.
      rewrite (getitem_cache_data_last 200 0 1 2 3 ltac:(lia)) in Hl.
      injection Hf as <-. injection Hl as <-. cbn [snd] in Hlow, Hhigh.
      replace (IZR 0 / IZR 200) with 0 in Hlow by lra.
      split; assumption. }
  split.
  - destruct (Hends (-5)) as [H _]. rewrite H by lra.
    f_equal. unfold calculate_point. lra.
  - destruct (Hends 7) as [_ H]. rewrite H by lra.
    f_equal. unfold calculate_point. lra.
Defined.

End CurveCacheProperties.

(** ** Curve evaluator: the binary search and the sampling error *)

Section BinarySearchInvariant.
Import BezierCalculator.

(** A table of [N + 1] samples [(time i, val i)] with increasing times, and
    a [t] strictly between the first and the last sample time. *)
Variables (c : list (R * R)) (N : Z) (time val : Z -> R) (t : R).
Hypothesis Hget : forall i, (0 <= i <= N)%Z -> Py.getitem c i = inr (time i, val i).
Hypothesis Hmono : forall i j, (0 <= i)%Z -> (i < j)%Z -> (j <= N)%Z -> time i < time j.
Hypothesis Ht : time 0 < t < time N.

Lemma time_mono_le (i j : Z) :
  (0 <= i)%Z -> (i <= j)%Z -> (j <= N)%Z -> time i <= time j.
Proof.
  intros H0 Hij HjN. destruct (Z.eq_dec i j) as [->|Hne]; [lra|].
  left. apply Hmono; lia.
Qed.

Lemma binary_search_invariant (left_ right_ : Z) :
  (0 <= left_ <= N)%Z -> (0 <= right_ <= N)%Z -> (left_ <= right_ + 1)%Z ->
  (forall i, (0 <= i < left_)%Z -> time i < t) ->
  (forall i, (right_ < i <= N)%Z -> t < time i) ->
  search_post N time val t (binary_search c t left_ right_).
Proof.
  funelim (binary_search c t left_ right_); intros Hl Hr Hlr Hlo Hhi;
    try (assert (Hmid : (left_ <= (left_ + right_) / 2 <= right_)%Z)
           by (pose proof (Z.div_mod (left_ + right_) 2 ltac:(lia));
               pose proof (Z.mod_pos_bound (left_ + right_) 2 ltac:(lia)); lia));
    try match goal with
        | Hg : Py.getitem c ?m = _ |- _ =>
            rewrite (Hget m) in Hg by lia; inversion Hg; subst; clear Hg
        end.
  - (* loop exit: right < left *)
    simpl. assert (left_ = (right_ + 1)%Z) by lia. subst left_.
    assert ((right_ + 1 <= N)%Z).
    { destruct (Z.eq_dec right_ N) as [->|]; [|lia].
      specialize (Hlo N ltac:(lia)). lra. }
    assert (right_ <> (-1)%Z).
    { intros ->. specialize (Hhi 0%Z ltac:(lia)). lra. }
    split; [lia|]. split; [reflexivity|]. split; [assumption|].
    split; [apply Hlo; lia|apply Hhi; lia].
  - (* sample at mid below t: left = mid + 1 *)
    set (mid := ((left_ + right_) / 2)%Z) in *.
    assert (mid <> N) by (intros Heq'; pose proof (f_equal time Heq'); lra).
    match goal with IH : _ -> _ -> _ -> _ -> _ -> search_post _ _ _ _ _ |- _ =>
      apply IH; try lia; [|exact Hhi] end.
    intros i Hi. apply Rle_lt_trans with (time mid); [|assumption].
    apply time_mono_le; lia.
  - (* sample at mid above t: right = mid - 1 *)
    set (mid := ((left_ + right_) / 2)%Z) in *.
    assert (mid <> 0%Z) by (intros Heq'; pose proof (f_equal time Heq'); lra).
    match goal with IH : _ -> _ -> _ -> _ -> _ -> search_post _ _ _ _ _ |- _ =>
      apply IH; try lia; [exact Hlo|] end.
    intros i Hi. apply Rlt_le_trans with (time mid); [assumption|].
    apply time_mono_le; lia.
  - (* exact match *)
    simpl. exists ((left_ + right_) / 2)%Z. split; [lia|]. split; [lra|reflexivity].
Qed.

End BinarySearchInvariant.

Lemma Rabs_bound_inv (x b : R) : Rabs x <= b -> - b <= x <= b.
Proof. unfold Rabs. destruct (Rcase_abs x); lra. Qed.

Section SamplingError.
Import BezierCalculator.

Variables (p0 p1 p2 p3 lo hi : R).

(** [lo] and [hi] enclose the values of the curve over the unit interval,
    so [hi - lo] is at least its value range. *)
Hypothesis Hrange :
  forall s, 0 <= s <= 1 -> lo <= calculate_point p0 p1 p2 p3 s <= hi.

(** Half the second derivative of the cubic at both ends of the interval,
    bounded by the value range through the values at 0, 1/3, 2/3 and 1. *)
Lemma bezier_curvature_bound :
  Rabs (3 * (p0 - 2 * p1 + p2)) <= 27 * (hi - lo)
  /\ Rabs (3 * (p1 - 2 * p2 + p3)) <= 27 * (hi - lo).
Proof.
  pose proof (Hrange 0 ltac:(lra)) as H0.
  pose proof (Hrange (1/3) ltac:(lra)) as H1.
  pose proof (Hrange (2/3) ltac:(lra)) as H2.
  pose proof (Hrange 1 ltac:(lra)) as H3.
  unfold calculate_point in H0, H1, H2, H3.
  split; apply Rabs_le; lra.
Qed.

(** The chord through two points of the cubic differs from the cubic by
    [(t - a) (t - b)] times a second divided difference. *)
Lemma chord_error_identity (a b t : R) :
  a <> b ->
  calculate_point p0 p1 p2 p3 a
    + (t - a) / (b - a)
      * (calculate_point p0 p1 p2 p3 b - calculate_point p0 p1 p2 p3 a)
    - calculate_point p0 p1 p2 p3 t
  = (t - a) * (b - t)
    * ((1 - (a + b + t) / 3) * (3 * (p0 - 2 * p1 + p2))
       + (a + b + t) / 3 * (3 * (p1 - 2 * p2 + p3))).
Proof. intros Hab. unfold calculate_point. field. lra. Qed.

Lemma chord_error_bound (a b t : R) :
  0 <= a -> a < t -> t < b -> b <= 1 ->
  Rabs (calculate_point p0 p1 p2 p3 a
        + (t - a) / (b - a)
          * (calculate_point p0 p1 p2 p3 b - calculate_point p0 p1 p2 p3 a)
        - calculate_point p0 p1 p2 p3 t)
  <= 27 * (hi - lo) * ((b - a) * (b - a) / 4).
Proof.
  intros Ha Hat Htb Hb.
  rewrite chord_error_identity by lra.
  destruct bezier_curvature_bound as [Hc0 Hc1].
  set (c0 := 3 * (p0 - 2 * p1 + p2)) in *.
  set (c1 := 3 * (p1 - 2 * p2 + p3)) in *.
  set (s := (a + b + t) / 3).
  set (M := 27 * (hi - lo)) in *.
  assert (Hs : 0 <= s <= 1) by (unfold s; lra).
  apply Rabs_bound_inv in Hc0. apply Rabs_bound_inv in Hc1.
  assert (HD : Rabs ((1 - s) * c0 + s * c1) <= M).
  { apply Rabs_le. split; nra. }
  assert (HM : 0 <= M) by (eapply Rle_trans; [apply Rabs_pos|exact HD]).
  assert (Hx : 0 <= (t - a) * (b - t) <= (b - a) * (b - a) / 4).
  { split; [apply Rmult_le_pos; lra|].
    pose proof (Rle_0_sqr (a + b - 2 * t)) as Hsq. unfold Rsqr in Hsq. lra. }
  rewrite Rabs_mult. rewrite (Rabs_right ((t - a) * (b - t))) by lra.
  rewrite (Rmult_comm M).
  apply Rmult_le_compat; try lra. apply Rabs_pos.
Qed.

End SamplingError.

Section CachedVersusDirect.
Import BezierCalculator.

Lemma sample_time_mono (N i j : Z) :
  (0 < N)%Z -> (i < j)%Z -> IZR i / IZR N < IZR j / IZR N.
Proof.
  intros HN Hij. apply IZR_lt in HN. apply IZR_lt in Hij.
  unfold Rdiv. apply Rmult_lt_compat_r; [apply Rinv_0_lt_compat; lra|lra].
Qed.

(** C5. For a Bezier curve cached at precision 200 and every [t] of
    [0, 1], the value read from the cache (binary search over the 201
    samples, then linear interpolation) is within [1 / (2 * 200)] of the
    curve's value range of the direct evaluation [calculate_point]; [lo]
    and [hi] are any bounds of the curve over [0, 1], so the statement
    holds for its exact range. *)
Theorem C5_cached_agrees_with_direct
    (bc bc' : BezierCalculator.t) (id : string) (p0 p1 p2 p3 t lo hi : R) :
  precision bc = 200%Z ->
  create_curve_cache bc id p0 p1 p2 p3 = inr bc' ->
  0 <= t <= 1 ->
  (forall s, 0 <= s <= 1 -> lo <= calculate_point p0 p1 p2 p3 s <= hi) ->
  exists v,
    evaluate_cached bc' id t = inr v
    /\ Rabs (v - calculate_point p0 p1 p2 p3 t) <= 1 / (2 * 200) * (hi - lo).
Proof.
  intros HN Hc Ht Hrange.
  apply create_curve_cache_lookup in Hc as [_ Hc]. rewrite HN in Hc.
  set (f := calculate_point p0 p1 p2 p3) in *.
  assert (Hw : 0 <= hi - lo) by (pose proof (Hrange 0 ltac:(lra)); lra).
  pose proof (getitem_cache_data 200 p0 p1 p2 p3) as Hget. fold f in Hget.
  pose proof (getitem_cache_data_last 200 p0 p1 p2 p3 ltac:(lia)) as Hlast.
  fold f in Hlast.
  pose proof (Hget 0%Z ltac:(lia)) as Hfirst.
  replace (IZR 0 / IZR 200) with 0 in Hfirst by lra.
  assert (Hexact : forall v, v = f t ->
            Rabs (v - f t) <= 1 / (2 * 200) * (hi - lo)).
  { intros v ->. replace (f t - f t) with 0 by lra. rewrite Rabs_R0. lra. }
  unfold evaluate_cached. rewrite Hc, Hfirst. cbn [Py.bind fst snd].
  destruct (Rle_dec t 0) as [Hle|Hgt0].
  { exists (f 0). split; [reflexivity|]. apply Hexact. f_equal. lra. }
  rewrite Hlast. cbn [Py.bind fst snd].
  destruct (Rge_dec t 1) as [Hge|Hlt1].
  { exists (f 1). split; [reflexivity|]. apply Hexact. f_equal. lra. }
  rewrite cache_data_length. change (Z.of_nat (Z.to_nat (200 + 1)) - 1)%Z with 200%Z.
  pose proof (binary_search_invariant (cache_data 200 p0 p1 p2 p3) 200
                (fun i => IZR i / IZR 200) (fun i => f (IZR i / IZR 200)) t
                Hget
                (fun i j _ Hij _ => sample_time_mono 200 i j ltac:(lia) Hij)
                ltac:(lra) 0 200 ltac:(lia) ltac:(lia) ltac:(lia)
                ltac:(intros; lia) ltac:(intros; lia)) as Hpost.
  destruct (binary_search (cache_data 200 p0 p1 p2 p3) t 0 200)
    as [v|right_ left_|e]; cbn [search_post] in Hpost.
  - destruct Hpost as (i & Hi & Hti & ->). exists (f (IZR i / IZR 200)).
    split; [reflexivity|]. apply Hexact. f_equal. exact Hti.
  - destruct Hpost as (Hr & -> & Hl & Hlow & Hhigh).
    unfold interpolate. rewrite (Hget right_) by lia.
    rewrite (Hget (right_ + 1)%Z) by lia. cbn [Py.bind].
    set (a := IZR right_ / IZR 200) in *.
    set (b := IZR (right_ + 1) / IZR 200) in *.
    assert (Hba : b - a = 1 / 200).
    { unfold a, b. rewrite plus_IZR. lra. }
    destruct (Req_dec_T b a) as [Heq|Hne]; [lra|].
    eexists. split; [reflexivity|].
    assert (Ha0 : 0 <= a).
    { unfold a. apply IZR_le in Hr. lra. }
    assert (Hb1 : b <= 1).
    { unfold b. apply IZR_le in Hl. lra. }
    pose proof (chord_error_bound p0 p1 p2 p3 lo hi Hrange a b t Ha0 Hlow Hhigh Hb1)
      as Hbound.
    fold f in Hbound.
    eapply Rle_trans; [exact Hbound|]. rewrite Hba. lra.
  - contradiction.
Qed.

(** The ease curve with control points 0, 0, 1, 1, whose values stay in
    [0, 1], read from the cache between two samples. *)
Lemma C5_witness :
  exists v,
    evaluate_cached
      {| curve_cache := <["ParamEyeLOpen_0" := cache_data 200 0 0 1 1]> ∅;
         precision := 200 |} "ParamEyeLOpen_0" (3 / 1000) = inr v
    /\ Rabs (v - calculate_point 0 0 1 1 (3 / 1000)) <= 1 / (2 * 200) * (1 - 0).
Proof.
  apply (C5_cached_agrees_with_direct init _ "ParamEyeLOpen_0" 0 0 1 1 (3 / 1000) 0 1).
  - reflexivity.
  - reflexivity.
  - lra.
  - intros s Hs. unfold calculate_point.
    assert (H1 : 0 <= (1 - s) * (s * s)) by (repeat apply Rmult_le_pos; lra).
    assert (H2 : 0 <= s * s * s) by (repeat apply Rmult_le_pos; lra).
    assert (H3 : 0 <= (1 - s) * (1 - s) * (1 - s)) by (repeat apply Rmult_le_pos; lra).
    assert (H4 : 0 <= (1 - s) * (1 - s) * s) by (repeat apply Rmult_le_pos; lra).
    split; lra.
Defined.

End CachedVersusDirect.

(** ** Physics: the time step of [update] *)

Section PhysicsTimeStep.
Import Physics.

Lemma clamped_delta_time_small (dt : R) :
  dt <= 0.033 -> clamped_delta_time dt = dt.
Proof.
  intros H. unfold clamped_delta_time, Py.min.
  destruct (Rlt_dec 0.033 dt); lra.
Qed.

Lemma clamped_delta_time_large (dt : R) :
  0.033 < dt -> clamped_delta_time dt = 0.033.
Proof.
  intros H. unfold clamped_delta_time, Py.min.
  destruct (Rlt_dec 0.033 dt); lra.
Qed.

Lemma falling_point_height (dt : R) :
  first_height
    (Py.state_of (update_groups falling_point dt
                    (parameter_manager falling_point) [] (groups falling_point)))
  = -9.8 * 1 * dt * (1.0 - 0.01) * dt.
Proof.
  unfold falling_point. cbn -[Rlt_dec ParameterManager.set_parameter].
  lra.
Qed.

(** C6 (as the code has it). [update] runs force application, integration
    and constraint solving of every group with the step
    [min(delta_time, 0.033)]: the step never exceeds 0.033 s, which is below
    1/30 s, a [delta_time] of at most 0.033 s is used unchanged and a larger
    one is replaced by 0.033. *)
Theorem C6_time_step_clamped (sys : PhysicsSystem) (delta_time : R) :
  update sys delta_time
    = update_groups sys (clamped_delta_time delta_time)
        (parameter_manager sys) [] (groups sys)
  /\ clamped_delta_time delta_time <= 0.033
  /\ 0.033 < 1 / 30
  /\ (delta_time <= 0.033 -> clamped_delta_time delta_time = delta_time)
  /\ (0.033 < delta_time -> clamped_delta_time delta_time = 0.033).
Proof.
  split; [reflexivity|]. split.
  - destruct (Rle_dec delta_time 0.033) as [H|H].
    + rewrite clamped_delta_time_small by exact H. exact H.
    + rewrite clamped_delta_time_large by lra. lra.
  - split; [lra|]. split.
    + apply clamped_delta_time_small.
    + apply clamped_delta_time_large.
Qed.

(** A frame of exactly 1/30 s is within the bound the claim gives, yet the
    step used is 0.033 s, and the falling point ends where a step of 0.033 s
    puts it, not where a step of 1/30 s would. *)
Lemma C6_counterexample :
  1 / 30 <= 1 / 30
  /\ clamped_delta_time (1 / 30) <> 1 / 30
  /\ first_height (Py.state_of (update falling_point (1 / 30)))
     = first_height (Py.state_of (update falling_point 0.033))
  /\ first_height (Py.state_of (update falling_point (1 / 30)))
     <> first_height
          (Py.state_of (update_groups falling_point (1 / 30)
                          (parameter_manager falling_point) []
                          (groups falling_point))).
Proof.
  assert (H30 : clamped_delta_time (1 / 30) = 0.033)
    by (apply clamped_delta_time_large; lra).
  assert (H33 : clamped_delta_time 0.033 = 0.033)
    by (apply clamped_delta_time_small; lra).
  split; [lra|]. split; [rewrite H30; lra|].
  unfold update. rewrite H30, H33. split; [reflexivity|].
  rewrite !falling_point_height. lra.
Qed.

End PhysicsTimeStep.

(** ** Physics: the spring relaxation *)

Section SpringRelaxation.
Import Physics.

Lemma nth_error_lookup_eq {A : Type} (l : list A) (i : nat) :
  nth_error l i = l !! i.
Proof. revert i. induction l as [|x l IH]; intros [|i]; simpl; auto. Qed.

Lemma getitem_lookup {A : Type} (l : list A) (idx : Z) (i : nat) (x : A) :
  Py.index_of (length l) idx = inr i ->
  Py.getitem l idx = inr x ->
  l !! i = Some x.
Proof.
  intros Hi Hg. unfold Py.getitem in Hg. rewrite Hi in Hg. simpl in Hg.
  rewrite nth_error_lookup_eq in Hg. destruct (l !! i); congruence.
Qed.

(** A spring step keeps the number of points and leaves every fixed point
    as it was. *)
Lemma solve_spring_fixed (pts pts' : list PhysicsPoint) (spring : PhysicsSpring) :
  solve_spring pts spring = inr pts' ->
  length pts' = length pts
  /\ forall j p, pts !! j = Some p -> fixed p = true -> pts' !! j = Some p.
Proof.
  unfold solve_spring.
  destruct (_ || _)%bool; [intros [= <-]; auto|].
  destruct (Py.index_of (length pts) (point1_idx spring)) as [e|i1] eqn:Hi1;
    [discriminate|]. cbn [Py.bind].
  destruct (Py.getitem pts (point1_idx spring)) as [e|point1] eqn:Hg1;
    [discriminate|]. cbn [Py.bind].
  destruct (Py.index_of (length pts) (point2_idx spring)) as [e|i2] eqn:Hi2;
    [discriminate|]. cbn [Py.bind].
  destruct (Py.getitem pts (point2_idx spring)) as [e|point2] eqn:Hg2;
    [discriminate|]. cbn [Py.bind].
  destruct (Rlt_dec _ _); [intros [= <-]; auto|].
  destruct (rest_length spring) as [rest|]; [|discriminate].
  intros [= <-].
  pose proof (getitem_lookup _ _ _ _ Hi1 Hg1) as Hp1.
  pose proof (getitem_lookup _ _ _ _ Hi2 Hg2) as Hp2.
  set (correction := vscale _ (stiffness spring)).
  set (pts1 := if fixed point1 then pts else _).
  assert (H1 : length pts1 = length pts
               /\ forall j p, pts !! j = Some p -> fixed p = true -> pts1 !! j = Some p).
  { unfold pts1. destruct (fixed point1) eqn:Hf1; [auto|].
    split; [apply length_insert|]. intros j p Hj Hfp.
    destruct (Nat.eq_dec i1 j) as [->|Hne].
    - rewrite Hp1 in Hj. injection Hj as ->. congruence.
    - rewrite list_lookup_insert_ne by exact Hne. exact Hj. }
  destruct H1 as [Hlen1 Hfix1].
  destruct (fixed point2) eqn:Hf2; [split; auto|].
  destruct (pts1 !! i2) as [q|] eqn:Hq; [|split; auto].
  split; [rewrite length_insert; exact Hlen1|].
  intros j p Hj Hfp. destruct (Nat.eq_dec i2 j) as [->|Hne].
  - rewrite Hp2 in Hj. injection Hj as ->. congruence.
  - rewrite list_lookup_insert_ne by exact Hne. apply Hfix1; assumption.
Qed.

Lemma solve_springs_fixed (sprs : list PhysicsSpring) (pts : list PhysicsPoint) :
  forall j p, pts !! j = Some p -> fixed p = true ->
  Py.state_of (solve_springs pts sprs) !! j = Some p.
Proof.
  revert pts. induction sprs as [|spring rest IH]; intros pts j p Hj Hf; simpl.
  - exact Hj.
  - destruct (solve_spring pts spring) as [e|pts'] eqn:Hs; simpl.
    + exact Hj.
    + apply IH; [|exact Hf]. apply (solve_spring_fixed _ _ _ Hs); assumption.
Qed.

Lemma relax_fixed (n : nat) (sprs : list PhysicsSpring) (pts : list PhysicsPoint) :
  forall j p, pts !! j = Some p -> fixed p = true ->
  Py.state_of (relax n pts sprs) !! j = Some p.
Proof.
  revert pts. induction n as [|n IH]; intros pts j p Hj Hf; simpl.
  - exact Hj.
  - pose proof (solve_springs_fixed sprs pts j p Hj Hf) as Hstep.
    destruct (solve_springs pts sprs) as [pts'|e pts']; simpl in *.
    + apply IH; assumption.
    + exact Hstep.
Qed.

(** Fixed points survive [solve_constraints] unchanged, whether it returns
    or raises. *)
Lemma solve_constraints_fixed (group : PhysicsGroup) (j : nat) (p : PhysicsPoint) :
  points group !! j = Some p -> fixed p = true ->
  points (Py.state_of (solve_constraints group)) !! j = Some p.
Proof.
  intros Hj Hf. unfold solve_constraints.
  pose proof (relax_fixed 3 (springs group) (points group) j p Hj Hf) as H.
  destruct (relax 3 (points group) (springs group)); exact H.
Qed.

Lemma norm_nonneg (v : vec2) : 0 <= norm v.
Proof. apply sqrt_pos. Qed.

Lemma norm_scaled (v : vec2) (k : R) :
  0 <= k -> norm (fst v * k, snd v * k) = k * norm v.
Proof.
  intros Hk. unfold norm. cbn [fst snd].
  replace (fst v * k * (fst v * k) + snd v * k * (snd v * k))
    with (k * k * (fst v * fst v + snd v * snd v)) by ring.
  rewrite sqrt_mult_alt by (apply Rmult_le_pos; exact Hk).
  rewrite sqrt_square by exact Hk. reflexivity.
Qed.

Lemma div_nonneg (x y : R) : 0 <= x -> 0 < y -> 0 <= x / y.
Proof.
  intros Hx Hy. unfold Rdiv. apply Rmult_le_pos; [exact Hx|].
  left. apply Rinv_0_lt_compat. exact Hy.
Qed.

Lemma norm_opposite (u v : vec2) : norm (vsub u v) = norm (vsub v u).
Proof. unfold norm, vsub. cbn [fst snd]. f_equal. ring. Qed.

(** One spring step on two free points: points at least 0.0001 apart end
    exactly [L] apart, closer points are left alone. *)
Lemma solve_spring_two_points (swapped : bool) (pA pB : PhysicsPoint) (L : R) :
  fixed pA = false -> fixed pB = false -> 0 <= L ->
  exists qA qB,
    solve_spring [pA; pB] (spring_between swapped L) = inr [qA; qB]
    /\ fixed qA = false /\ fixed qB = false
    /\ (0.0001 <= norm (vsub (position pB) (position pA)) ->
        norm (vsub (position qB) (position qA)) = L)
    /\ (norm (vsub (position pB) (position pA)) < 0.0001 -> qA = pA /\ qB = pB).
Proof.
  intros HfA HfB HL.
  set (d := norm (vsub (position pB) (position pA))).
  assert (Hhalf : 0.5 = 1 / 2) by lra.
  destruct swapped; unfold solve_spring, spring_between;
    cbn [length point1_idx point2_idx rest_length stiffness];
    change (Z.of_nat 2) with 2%Z;
    change (2 <=? 1)%Z with false; change (2 <=? 0)%Z with false;
    change (Py.index_of 2 0) with (@inr Py.exn nat 0%nat);
    change (Py.index_of 2 1) with (@inr Py.exn nat 1%nat);
    change (Py.getitem [pA; pB] 0) with (@inr Py.exn PhysicsPoint pA);
    change (Py.getitem [pA; pB] 1) with (@inr Py.exn PhysicsPoint pB);
    cbn [orb Py.bind].
  - (* spring from the second point to the first *)
    rewrite (norm_opposite (position pA) (position pB)). fold d.
    destruct (Rlt_dec d 0.0001) as [Hsmall|Hbig].
    + exists pA, pB. repeat split; try assumption. lra.
    + rewrite HfA, HfB. cbn [insert list_insert lookup list_lookup].
      eexists _, _. split; [reflexivity|]. cbn [fixed with_position position].
      split; [assumption|]. split; [assumption|]. split; [|lra].
      intros _. assert (Hd : d <> 0) by lra.
      rewrite norm_opposite.
      replace (vsub _ _)
        with (fst (vsub (position pA) (position pB)) * (L / d),
              snd (vsub (position pA) (position pB)) * (L / d)).
      * rewrite norm_scaled by (apply div_nonneg; lra).
        rewrite (norm_opposite (position pA) (position pB)). fold d.
        field. exact Hd.
      * unfold vsub, vadd, vscale. cbn [fst snd]. rewrite Hhalf.
        f_equal; field; exact Hd.
  - (* spring from the first point to the second *)
    fold d. destruct (Rlt_dec d 0.0001) as [Hsmall|Hbig].
    + exists pA, pB. repeat split; try assumption. lra.
    + rewrite HfA, HfB. cbn [insert list_insert lookup list_lookup].
      eexists _, _. split; [reflexivity|]. cbn [fixed with_position position].
      split; [assumption|]. split; [assumption|]. split; [|lra].
      intros _. assert (Hd : d <> 0) by lra.
      replace (vsub _ _)
        with (fst (vsub (position pB) (position pA)) * (L / d),
              snd (vsub (position pB) (position pA)) * (L / d)).
      * rewrite norm_scaled by (apply div_nonneg; lra).
        fold d. field. exact Hd.
      * unfold vsub, vadd, vscale. cbn [fst snd]. rewrite Hhalf.
        f_equal; field; exact Hd.
Qed.

(** One pass over the single spring: two free points that are [L] apart,
    or at least 0.0001 apart, end [L] apart. *)
Lemma solve_springs_two_points (swapped : bool) (pA pB : PhysicsPoint) (L : R) :
  fixed pA = false -> fixed pB = false -> 0 <= L ->
  norm (vsub (position pB) (position pA)) = L
  \/ 0.0001 <= norm (vsub (position pB) (position pA)) ->
  exists qA qB,
    solve_springs [pA; pB] [spring_between swapped L] = Py.Normal [qA; qB]
    /\ fixed qA = false /\ fixed qB = false
    /\ norm (vsub (position qB) (position qA)) = L.
Proof.
  intros HfA HfB HL Hd.
  destruct (solve_spring_two_points swapped pA pB L HfA HfB HL)
    as (qA & qB & Hstep & HqA & HqB & Hfar & Hnear).
  exists qA, qB. cbn [solve_springs]. rewrite Hstep.
  split; [reflexivity|]. split; [assumption|]. split; [assumption|].
  destruct (Rlt_dec (norm (vsub (position pB) (position pA))) 0.0001) as [Hlt|Hge].
  - destruct (Hnear Hlt) as [-> ->]. destruct Hd as [Hd|Hd]; [exact Hd|lra].
  - apply Hfar. lra.
Qed.

(** C4. A group of two free points joined by one spring of stiffness 1 and
    rest length [L], the points more than 0.0001 apart: after
    [solve_constraints] (three passes, nothing else applied) the points are
    exactly [L] apart. And in any group, a point marked fixed is where it
    was after [solve_constraints]. Distances are real numbers here, so the
    tolerance the claim allows for rounding is not needed. *)
Theorem C4_spring_relaxation_converges
    (group : PhysicsGroup) (pA pB : PhysicsPoint) (swapped : bool) (L : R) :
  points group = [pA; pB] ->
  springs group = [spring_between swapped L] ->
  fixed pA = false -> fixed pB = false ->
  0 <= L ->
  0.0001 < norm (vsub (position pB) (position pA)) ->
  (exists qA qB,
     solve_constraints group = Py.Normal (with_points group [qA; qB])
     /\ norm (vsub (position qB) (position qA)) = L)
  /\ (forall (g : PhysicsGroup) (j : nat) (p : PhysicsPoint),
       points g !! j = Some p -> fixed p = true ->
       points (Py.state_of (solve_constraints g)) !! j = Some p).
Proof.
  intros Hpts Hsprs HfA HfB HL Hd. split; [|apply solve_constraints_fixed].
  unfold solve_constraints. rewrite Hpts, Hsprs. cbn [relax].
  destruct (solve_springs_two_points swapped pA pB L HfA HfB HL)
    as (q1A & q1B & Hs1 & Hf1A & Hf1B & Hd1); [right; lra|].
  rewrite Hs1. cbn [Py.and_then].
  destruct (solve_springs_two_points swapped q1A q1B L Hf1A Hf1B HL)
    as (q2A & q2B & Hs2 & Hf2A & Hf2B & Hd2); [left; exact Hd1|].
  rewrite Hs2. cbn [Py.and_then].
  destruct (solve_springs_two_points swapped q2A q2B L Hf2A Hf2B HL)
    as (q3A & q3B & Hs3 & Hf3A & Hf3B & Hd3); [left; exact Hd2|].
  rewrite Hs3. cbn [Py.and_then].
  exists q3A, q3B. split; [reflexivity|exact Hd3].
Qed.

(** Two free points 5 apart on a spring of rest length 2. *)
Lemma C4_witness :
  exists qA qB,
    solve_constraints
      {| id := "hair"; influence_parameter := "ParamHairFront";
         input_parameter := "ParamAngleX";
         points := [new_point 0 0 1 false; new_point 3 4 1 false];
         springs := [spring_between false 2] |}
    = Py.Normal
        {| id := "hair"; influence_parameter := "ParamHairFront";
           input_parameter := "ParamAngleX";
           points := [qA; qB];
           springs := [spring_between false 2] |}
    /\ norm (vsub (position qB) (position qA)) = 2.
Proof.
  apply (C4_spring_relaxation_converges
           {| id := "hair"; influence_parameter := "ParamHairFront";
              input_parameter := "ParamAngleX";
              points := [new_point 0 0 1 false; new_point 3 4 1 false];
              springs := [spring_between false 2] |}
           (new_point 0 0 1 false) (new_point 3 4 1 false) false 2).
  - reflexivity.
  - reflexivity.
  - reflexivity.
  - reflexivity.
  - lra.
  - unfold norm, vsub, new_point. cbn [position fst snd].
    replace ((3 - 0) * (3 - 0) + (4 - 0) * (4 - 0)) with (5 * 5) by ring.
    rewrite sqrt_square by lra. lra.
Defined.

End SpringRelaxation.

(** ** Motion parser: the loop over an aliased list *)

Section MotionParserAliasing.
Import MotionParser.

Lemma deref_alloc (h : heap) (l : list curve) :
  deref (snd (alloc h l)) (fst (alloc h l)) = l.
Proof. unfold deref, alloc. simpl. rewrite lookup_insert_eq. reflexivity. Qed.

Lemma deref_alloc_other (h : heap) (l : list curve) (r : loc) :
  r <> next_loc h -> deref (snd (alloc h l)) r = deref h r.
Proof.
  intros Hne. unfold deref, alloc. simpl.
  rewrite lookup_insert_ne by congruence. reflexivity.
Qed.




(** [from_dict] binds [motion.curves] to the document's own list. *)
Lemma from_dict_shares_curves (motion_id : string) (data : motion_data)
    (h : heap) (r : loc) :
  Curves data = Some r ->
  curves (fst (from_dict motion_id data h)) = r.
Proof. intros Hc. unfold from_dict, get_curves. rewrite Hc. reflexivity. Qed.




End MotionParserAliasing.

(** ** Motion manager: unknown motions *)

Section MotionPlayback.
Import MotionManager.

(** C8. [play_motion] with a name that is not a key of [motions] returns
    [False], raises nothing and leaves the manager (current motion,
    fade-out state, clock and everything else) as it was. *)
Theorem C8_play_unknown_motion_fails_quietly
    (self : MotionManager.t) (motion_name : string)
    (loop : option bool) (fade_in_time : option R) :
  motions self !! motion_name = None ->
  play_motion self motion_name loop fade_in_time = (self, inr false).
Proof. intros Hn. unfold play_motion. rewrite Hn. reflexivity. Qed.

(** A manager with no motion loaded, asked for "idle". *)
Lemma C8_witness :
  play_motion (init ParameterManager.init) "idle" None None
  = (init ParameterManager.init, inr false)
  /\ current_motion (fst (play_motion (init ParameterManager.init) "idle" None None))
     = None.
Proof.
  rewrite (C8_play_unknown_motion_fails_quietly
             (init ParameterManager.init) "idle" None None).
  - split; reflexivity.
  - apply lookup_empty.
Defined.

End MotionPlayback.

Section SegmentLoop.
Import MotionParser.

(** Every turn of the loop of [evaluate_curve] moves [i] forward. *)
Lemma loop_body_advances (se se' : SegmentEvaluator.t) (curve_id : option string)
    (segments : list R) (time segment_type : R) (i i' : nat)
    (value value' : option R) :
  loop_body se curve_id segments time segment_type i value = Continue i' value' se' ->
  (i < i')%nat.
Proof.
  unfold loop_body, evaluate_one.
  repeat match goal with
         | |- context [Req_dec_T ?a ?b] => destruct (Req_dec_T a b)
         | |- context [(?a <? ?b)%nat] => destruct (a <? b)%nat
         | |- context [match ?c with Some _ => _ | None => _ end] => destruct c
         | |- context [SegmentEvaluator.evaluate_segment ?a ?b ?c ?d ?e] =>
             destruct (SegmentEvaluator.evaluate_segment a b c d e) as [[?|[?|]] ?]
         end;
    intros [= <- _ _] || discriminate; lia.
Qed.

(** So [len(segments)] turns always reach the end of the list: more fuel
    changes nothing. *)
Lemma segments_loop_fuel (segments : list R) (curve_id : option string) (time : R) :
  forall (n fuel fuel' i : nat) (se : SegmentEvaluator.t) (value : option R),
    (length segments - i <= n)%nat -> (n <= fuel)%nat -> (n <= fuel')%nat ->
    segments_loop fuel se curve_id segments time i value
    = segments_loop fuel' se curve_id segments time i value.
Proof.
  induction n as [|n IH]; intros fuel fuel' i se value Hn Hf Hf'.
  - assert (Hi : segments !! i = None) by (apply lookup_ge_None; lia).
    destruct fuel, fuel'; simpl; rewrite ?Hi; reflexivity.
  - destruct fuel as [|fuel]; [lia|]. destruct fuel' as [|fuel']; [lia|].
    simpl. destruct (segments !! i) as [segment_type|] eqn:Hi; [|reflexivity].
    destruct (loop_body se curve_id segments time segment_type i value)
      as [i' value' se'|e se'] eqn:Hb; [|reflexivity].
    apply loop_body_advances in Hb. apply IH; lia.
Qed.

End SegmentLoop.

(** ** Motion manager: what [update] writes while two motions overlap *)

Section MotionBlend.
Import MotionManager.

(** Decide one comparison between constants met while running the model
    on concrete numbers. *)
Ltac decide_with dec P :=
  first
    [ let H := fresh in
      assert (H : P) by lra; destruct dec as [_|?]; [clear H|contradiction]
    | let H := fresh in
      assert (H : ~ P) by lra; destruct dec as [?|_]; [contradiction|clear H] ].

Ltac decide_real :=
  match goal with
  | |- context [Rlt_dec ?a ?b] => decide_with (Rlt_dec a b) (a < b)
  | |- context [Rle_dec ?a ?b] => decide_with (Rle_dec a b) (a <= b)
  | |- context [Rgt_dec ?a ?b] => decide_with (Rgt_dec a b) (a > b)
  | |- context [Rge_dec ?a ?b] => decide_with (Rge_dec a b) (a >= b)
  | |- context [Req_dec_T ?a ?b] => decide_with (Req_dec_T a b) (a = b)
  end.

Ltac decide_reals := repeat (cbn [Py.bind]; decide_real).

Lemma loop_body_held (se : SegmentEvaluator.t) (param : string) (value time : R) :
  time <= 100 ->
  MotionParser.loop_body se (Some param) [0; 100; value] time 0 0 None
  = MotionParser.Continue 3 (Some value) se.
Proof.
  intros Ht. unfold MotionParser.loop_body.
  destruct (Req_dec_T 0 0) as [_|Hn]; [|exfalso; apply Hn; reflexivity].
  cbn. unfold SegmentEvaluator.evaluate_segment.
  destruct (Req_dec_T 0 0) as [_|Hn]; [|exfalso; apply Hn; reflexivity].
  destruct (Rle_dec time 100) as [_|Hn]; [|contradiction].
  reflexivity.
Qed.

Lemma evaluate_held_curve (mp : MotionParser.t) (param : string) (value time : R) :
  time <= 100 ->
  MotionParser.evaluate_curve mp (held_curve param value) time = (inr value, mp).
Proof.
  intros Ht. unfold MotionParser.evaluate_curve, held_curve.
  cbn. rewrite loop_body_held by exact Ht. cbn. destruct mp. reflexivity.
Qed.

Lemma update_on_motion_objects :
  exists s,
    update playing_B_over_A heap_AB 0.5 = Py.Raised Py.AttributeError s
    /\ parameter_manager s = ParameterManager.init.
Proof.
  unfold playing_B_over_A, manager_with_objects.
  unfold play_motion at 2. cbn [motions with_motions init].
  rewrite lookup_insert_eq. cbn.
  unfold play_motion. cbn [motions with_motions init with_current].
  rewrite lookup_insert_ne by discriminate. rewrite lookup_insert_eq.
  cbn. rewrite lookup_insert_eq. cbn.
  unfold update. cbn. rewrite lookup_insert_ne by discriminate.
  rewrite lookup_insert_eq. cbn.
  eexists. split; reflexivity.
Qed.

Lemma play_motion_on_objects :
  snd (play_motion manager_with_objects "A" None None) = inr true
  /\ snd (play_motion (fst (play_motion manager_with_objects "A" None None))
            "B" None None) = inr true.
Proof.
  unfold manager_with_objects.
  unfold play_motion at 1. cbn [motions with_motions init].
  rewrite lookup_insert_eq. cbn. split; [reflexivity|].
  unfold play_motion at 2. cbn [motions with_motions init].
  rewrite lookup_insert_eq. cbn.
  unfold play_motion. cbn [motions with_motions init with_current].
  rewrite lookup_insert_ne by discriminate. rewrite lookup_insert_eq.
  cbn. rewrite lookup_insert_eq. reflexivity.
Qed.

Lemma update_on_raw_dicts :
  exists s,
    update raw_playing_B_over_A heap_AB 0.5 = Py.Normal s
    /\ ParameterManager.get_parameter (parameter_manager s) "ParamAngleX" 0 = 20.
Proof.
  unfold raw_playing_B_over_A, update.
  cbn [current_motion motions with_current with_current_time name time loop
       fade_in_time current_time].
  rewrite lookup_insert_ne by discriminate. rewrite lookup_insert_eq.
  change (meta_duration (RawDict data_B)) with (@inr Py.exn R 3).
  cbv iota beta.
  unfold fade_out_phase.
  cbn [fade_out_motion with_current with_current_time current_motion motion
       start_time fade_out_time current_time].
  change (meta_duration (RawDict data_A)) with (@inr Py.exn R 3).
  unfold wrap, float_div, Py.min. decide_reals.
  change (get_curves heap_AB (RawDict data_B))
    with (@inr Py.exn _ [held_curve "ParamAngleX" 20]).
  cbn [apply_current].
  change (MotionParser.Target (held_curve "ParamAngleX" 20)) with (Some "Parameter").
  change (MotionParser.Id (held_curve "ParamAngleX" 20)) with (Some "ParamAngleX").
  cbn [String.eqb Ascii.eqb Bool.eqb].
  rewrite evaluate_held_curve; [|lra].
  cbn [Py.dict_set final_parameters omap list_omap]. decide_reals.
  unfold fade_out_block.
  cbn [fade_out_motion with_current with_current_time current_motion motion
       start_time fade_out_time current_time with_parameter_manager
       with_motion_parser motion_parser].
  decide_reals.
  change (meta_duration (RawDict data_A)) with (@inr Py.exn R 3).
  change (get_curves heap_AB (RawDict data_A))
    with (@inr Py.exn _ [held_curve "ParamAngleX" 10]).
  unfold wrap. decide_reals. cbn [Py.bind apply_fade_out].
  change (MotionParser.Target (held_curve "ParamAngleX" 10)) with (Some "Parameter").
  change (MotionParser.Id (held_curve "ParamAngleX" 10)) with (Some "ParamAngleX").
  cbn [String.eqb Ascii.eqb Bool.eqb].
  rewrite evaluate_held_curve; [|lra].
  eexists. split; [reflexivity|].
  cbn [parameter_manager with_parameter_manager with_current with_current_time
       with_motion_parser ParameterManager.update_parameters fold_left fst snd].
  rewrite set_parameter_unregistered by apply lookup_empty.
  unfold ParameterManager.get_parameter. cbn [ParameterManager.parameters].
  rewrite lookup_insert_eq. unfold MathUtils.clamp, Py.max, Py.min.
  decide_reals; lra.
Qed.

(** With raw documents in [motions], the state B-over-A cannot come from
    [play_motion]: replacing a current motion reads its [fade_out_time]
    attribute. *)
Lemma play_motion_on_raw_dicts :
  snd (play_motion
         (with_fade_out raw_playing_B_over_A None) "A" (Some true) (Some 1))
  = inl Py.AttributeError.
Proof.
  unfold play_motion, raw_playing_B_over_A.
  cbn [motions with_fade_out current_motion name].
  rewrite lookup_insert_eq. cbn [Py.bind].
  rewrite lookup_insert_ne by discriminate. rewrite lookup_insert_eq.
  reflexivity.
Qed.

(** C1 (the code at the claim's scenario). Motions A and B drive
    ParamAngleX with the values 10 and 20 and fade over 1 s; B is played
    while A is active and [update(0.5)] follows, so the blend the claim
    describes is (10 * 0.5 + 20 * 0.5) / (0.5 + 0.5) = 15.
    With [Motion] objects in [motions], which is what [load_motion] stores,
    both [play_motion] calls succeed and [update] raises AttributeError at
    [motion_obj.get("Meta", ..)] before any parameter is written. With raw
    document dicts in [motions], which is what [update] can read, [update]
    writes 20, the value of the active motion alone: the parameters are
    written before the fading-out motion is accumulated. *)
Theorem C1_update_writes_no_blend :
  snd (play_motion manager_with_objects "A" None None) = inr true
  /\ snd (play_motion (fst (play_motion manager_with_objects "A" None None))
            "B" None None) = inr true
  /\ (exists s,
        update playing_B_over_A heap_AB 0.5 = Py.Raised Py.AttributeError s
        /\ parameter_manager s = ParameterManager.init)
  /\ (exists s,
        update raw_playing_B_over_A heap_AB 0.5 = Py.Normal s
        /\ ParameterManager.get_parameter (parameter_manager s) "ParamAngleX" 0 = 20)
  /\ (10 * 0.5 + 20 * 0.5) / (0.5 + 0.5) = 15.
Proof.
  destruct play_motion_on_objects as [HA HB].
  split; [exact HA|]. split; [exact HB|].
  split; [exact update_on_motion_objects|].
  split; [exact update_on_raw_dicts|]. lra.
Qed.

End MotionBlend.

(** ** Model parser: what is accepted *)

Section ModelParsing.
Import ModelParser.

Lemma process_parts_length (parts : list part) (model_path : string) :
  length (process_parts parts model_path) = length parts.
Proof. unfold process_parts. apply length_map. Qed.

Lemma process_parts_ids (parts : list part) (model_path : string) :
  map Id (process_parts parts model_path) = map Id parts.
Proof. unfold process_parts. rewrite map_map. reflexivity. Qed.

(** C3 (as the code has it). [parse_model_file] does not look at the
    parts: whenever a model file is found and decodes to a document of the
    schema, the result is a non-null model, cached under the path, whose
    [Parts] holds one processed copy of every part of the document with its
    id untouched, however few parts there are and whatever their ids. The
    result is null when no model file exists, when opening or decoding it
    raises, and when [process_model_data] raises on a decoded value off the
    schema; and whenever the result is null, the parser with its cache is
    left as it was. *)
Theorem C3_parse_model_file_accepts_any_parts
    (fs : filesystem) (self : ModelParser.t) (model_path : string) :
  model_cache self !! model_path = None ->
  (forall model_file model_dir model_data,
     locate fs model_path = Some (model_file, model_dir) ->
     read_json fs model_file = Some (ModelDocument model_data) ->
     exists m,
       parse_model_file fs self model_path
         = (Some m, {| model_cache := <[model_path := m]> (model_cache self) |})
       /\ m = process_model_data model_data model_dir
       /\ length (m_Parts m) = length (default [] (Parts model_data))
       /\ map Id (m_Parts m) = map Id (default [] (Parts model_data)))
  /\ (locate fs model_path = None
      \/ (exists model_file model_dir,
            locate fs model_path = Some (model_file, model_dir)
            /\ (read_json fs model_file = None
                \/ exists v, read_json fs model_file = Some (OffSchema v))) ->
      parse_model_file fs self model_path = (None, self))
  /\ (fst (parse_model_file fs self model_path) = None ->
      snd (parse_model_file fs self model_path) = self).
Proof.
  intros Hcache. unfold parse_model_file. rewrite Hcache. split; [|split].
  - intros model_file model_dir model_data Hloc Hread. rewrite Hloc, Hread.
    cbn [process_decoded].
    eexists. split; [reflexivity|]. split; [reflexivity|].
    unfold process_model_data. cbn [m_Parts].
    destruct (Parts model_data) as [parts|]; cbn [default from_option].
    + split; [apply process_parts_length|apply process_parts_ids].
    + split; reflexivity.
  - intros [Hloc|(model_file & model_dir & Hloc & [Hread|[v Hread]])];
      rewrite Hloc; [reflexivity| |]; rewrite Hread; reflexivity.
  - destruct (locate fs model_path) as [[model_file model_dir]|]; [|reflexivity].
    destruct (read_json fs model_file) as [model_data|]; [|reflexivity].
    destruct (process_decoded model_data model_dir); [reflexivity|discriminate].
Qed.

(** Both documents parse to a non-null model: the first with zero parts,
    the second with its part of empty id. *)
Lemma C3_counterexample :
  (exists m,
     fst (parse_model_file
            (single_file "/models/hero.model3.json" (ModelDocument no_parts))
            init "/models/hero.model3.json") = Some m
     /\ Parts no_parts = None /\ m_Parts m = [])
  /\ (exists m,
     fst (parse_model_file
            (single_file "/models/hero.model3.json" (ModelDocument empty_id_part))
            init "/models/hero.model3.json") = Some m
     /\ map Id (m_Parts m) = [Some ""]).
Proof.
  split; eexists; (split; [reflexivity|]); [split|]; reflexivity.
Qed.

(** The document whose part has an empty id is accepted and cached; a file
    holding [{"Parts": null}] gives null and an empty cache. *)
Lemma C3_witness :
  (exists m,
     parse_model_file
       (single_file "/models/hero.model3.json" (ModelDocument empty_id_part))
       init "/models/hero.model3.json"
     = (Some m, {| model_cache := <["/models/hero.model3.json" := m]> ∅ |})
     /\ length (m_Parts m) = 1%nat
     /\ map Id (m_Parts m) = [Some ""])
  /\ parse_model_file
       (single_file "/models/hero.model3.json" (OffSchema PartsNotIterable))
       init "/models/hero.model3.json"
     = (None, init).
Proof.
  split.
  - destruct (C3_parse_model_file_accepts_any_parts
                (single_file "/models/hero.model3.json" (ModelDocument empty_id_part))
                init "/models/hero.model3.json") as [Haccept _].
    + reflexivity.
    + destruct (Haccept "/models/hero.model3.json" "/models" empty_id_part)
        as (m & Hparse & _ & Hlen & Hids); [reflexivity|reflexivity|].
      exists m. split; [exact Hparse|]. split; [exact Hlen|exact Hids].
  - destruct (C3_parse_model_file_accepts_any_parts
                (single_file "/models/hero.model3.json" (OffSchema PartsNotIterable))
                init "/models/hero.model3.json") as [_ [Hnull _]].
    + reflexivity.
    + apply Hnull. right. exists "/models/hero.model3.json", "/models".
      split; [reflexivity|]. right. exists PartsNotIterable. reflexivity.
Defined.

End ModelParsing.

(** ** Python's stable sort *)

Section StableSort.
Context {A : Type} (key : A -> Z).

Lemma insert_by_permutation (x : A) (l : list A) :
  Permutation (Py.insert_by key x l) (x :: l).
Proof.
  induction l as [|y l IH]; simpl; [reflexivity|].
  destruct (key x <=? key y)%Z; [reflexivity|].
  rewrite IH. apply perm_swap.
Qed.

Lemma sorted_permutation (l : list A) : Permutation (Py.sorted key l) l.
Proof.
  induction l as [|x l IH]; simpl; [reflexivity|].
  rewrite insert_by_permutation. constructor. exact IH.
Qed.

Lemma sorted_length (l : list A) : length (Py.sorted key l) = length l.
Proof. apply Permutation_length, sorted_permutation. Qed.

Lemma insert_by_sorted (x : A) (l : list A) :
  StronglySorted (key_le key) l -> StronglySorted (key_le key) (Py.insert_by key x l).
Proof.
  induction 1 as [|y l Hs IH Hall]; simpl.
  - constructor; constructor.
  - destruct (key x <=? key y)%Z eqn:Hxy.
    + apply Z.leb_le in Hxy. constructor; [constructor; assumption|].
      constructor; [exact Hxy|].
      eapply Forall_impl; [exact Hall|]. unfold key_le. intros; lia.
    + apply Z.leb_gt in Hxy. constructor; [exact IH|].
      eapply Permutation_Forall; [symmetry; apply insert_by_permutation|].
      constructor; [unfold key_le; lia|exact Hall].
Qed.

(** The result is in ascending key order. *)
Lemma sorted_ascending (l : list A) : StronglySorted (key_le key) (Py.sorted key l).
Proof.
  induction l as [|x l IH]; simpl; [constructor|]. apply insert_by_sorted, IH.
Qed.

Lemma insert_by_stable (k : Z) (x : A) (l : list A) :
  List.filter (fun y => (key y =? k)%Z) (Py.insert_by key x l)
  = List.filter (fun y => (key y =? k)%Z) (x :: l).
Proof.
  induction l as [|y l IH]; [reflexivity|].
  cbn [Py.insert_by]. destruct (key x <=? key y)%Z eqn:Hxy; [reflexivity|].
  apply Z.leb_gt in Hxy. cbn [List.filter] in *. rewrite IH.
  destruct (key y =? k)%Z eqn:Hy, (key x =? k)%Z eqn:Hx; try reflexivity.
  apply Z.eqb_eq in Hy, Hx. lia.
Qed.

(** Items of equal key keep the order they had in the input. *)
Lemma sorted_stable (k : Z) (l : list A) :
  List.filter (fun y => (key y =? k)%Z) (Py.sorted key l)
  = List.filter (fun y => (key y =? k)%Z) l.
Proof.
  induction l as [|x l IH]; [reflexivity|].
  cbn [Py.sorted]. rewrite insert_by_stable. cbn [List.filter]. rewrite IH.
  reflexivity.
Qed.

Lemma filter_sorted (f : A -> bool) (l : list A) :
  StronglySorted (key_le key) l -> StronglySorted (key_le key) (List.filter f l).
Proof.
  induction 1 as [|y l Hs IH Hall]; simpl; [constructor|].
  destruct (f y); [|exact IH]. constructor; [exact IH|].
  clear -Hall. induction Hall as [|z l Hz _ IHl]; simpl; [constructor|].
  destruct (f z); [constructor; assumption|assumption].
Qed.

End StableSort.

(** ** Renderer: the order of the draw calls *)

Section RenderOrder.
Import Renderer.

Lemma part_calls_draws (self : Renderer.t) (pm : ParameterManager.t) (p : part) :
  List.filter is_bind_or_draw (part_calls self pm p)
  = if drawable p then draw_of p else [].
Proof.
  unfold part_calls, drawable, draw_of.
  destruct (visible p); [|reflexivity].
  destruct (texture p); reflexivity.
Qed.

Lemma frame_draws (self : Renderer.t) (pm : ParameterManager.t) (order : list part) :
  List.filter is_bind_or_draw (flat_map (part_calls self pm) order)
  = flat_map draw_of (List.filter drawable order).
Proof.
  induction order as [|p order IH]; [reflexivity|].
  cbn [flat_map List.filter]. rewrite List.filter_app, part_calls_draws, IH.
  destruct (drawable p); reflexivity.
Qed.

Lemma load_model_sorted_parts (w : TextureManager.world) (r : Renderer.t)
    (m : ModelParser.model) :
  sorted_parts (load_model w r m) = sorted_parts r.
Proof. unfold load_model. destruct (fold_left _ _ _). reflexivity. Qed.

Lemma refreshed_order_sorted (r : Renderer.t) :
  cache_sorted r -> exists l, refreshed_order r = Py.sorted depth l.
Proof.
  intros Hc. unfold refreshed_order.
  destruct (sorted_parts r) as [cached|] eqn:Hs; [|eauto].
  destruct (Nat.eqb _ _); [apply Hc; exact Hs|eauto].
Qed.

Lemma render_sorted_parts (r : Renderer.t) (pm : ParameterManager.t) :
  initialized r = true -> parts r <> [] ->
  sorted_parts (fst (render r pm)) = Some (refreshed_order r).
Proof.
  intros Hi Hp. unfold render. rewrite Hi. cbn [negb].
  destruct (parts r); [contradiction|reflexivity].
Qed.

Lemma reachable_cache_sorted (w : TextureManager.world) (r : Renderer.t) :
  reachable w r -> cache_sorted r.
Proof.
  induction 1 as [|r ok _ IH|r m _ IH|r pm _ IH|r q _ IH|r _ IH].
  - intros cached Hc. discriminate.
  - intros cached Hc. apply IH. destruct ok; exact Hc.
  - intros cached Hc. rewrite load_model_sorted_parts in Hc. apply IH, Hc.
  - intros cached Hc. unfold render in Hc.
    destruct (negb (initialized r)); [apply IH, Hc|].
    destruct (parts r); [apply IH, Hc|].
    cbn [fst sorted_parts] in Hc. injection Hc as <-.
    apply refreshed_order_sorted, IH.
  - intros cached Hc. apply IH, Hc.
  - intros cached Hc. apply IH, Hc.
Qed.

Lemma load_texture_succeeds (w : TextureManager.world) (tm : TextureManager.t)
    (path : string) (size : Z * Z) :
  path <> "" ->
  TextureManager.file_exists w path = true ->
  TextureManager.image_size w path = Some size ->
  exists tex tm', TextureManager.load_texture w tm path false = (Some tex, tm').
Proof.
  intros Hne Hex Hsize. unfold TextureManager.load_texture.
  apply String.eqb_neq in Hne. rewrite Hne, Hex. cbn [orb negb].
  destruct (Py.dict_get _ _); [eauto|].
  rewrite Hsize. destruct size as [iw ih].
  destruct (_ <=? _)%Z;
    repeat match goal with |- context [String.eqb ?a ?b] => destruct (String.eqb a b) end;
    eauto.
Qed.

Lemma load_part_loadable (w : TextureManager.world) (tm : TextureManager.t)
    (acc : list (string * part)) (p : ModelParser.part) (part_id : string) :
  loadable w p part_id ->
  exists tex tm' q,
    load_part w (tm, acc) p = (tm', Py.dict_set acc part_id q)
    /\ id q = Some part_id /\ visible q = true /\ opacity q = 1.0
    /\ texture q = Some tex
    /\ depth q = default 0%Z (ModelParser.Depth p).
Proof.
  intros (Hid & Hne & path & size & Hpath & Hpne & Hex & Hsize).
  destruct (load_texture_succeeds w tm path size Hpne Hex Hsize) as (tex & tm' & Hload).
  unfold load_part. rewrite Hid, Hpath. cbn [default from_option Datatypes.id].
  apply String.eqb_neq in Hne, Hpne. rewrite Hne, Hpne, Hload.
  eexists tex, tm', _. split; [reflexivity|]. cbn. auto.
Qed.

Lemma refreshed_order_length (r : Renderer.t) :
  length (refreshed_order r) = length (parts r).
Proof.
  unfold refreshed_order. destruct (sorted_parts r) as [cached|].
  - destruct (Nat.eqb_spec (length cached) (length (parts r))) as [E|_]; [exact E|].
    rewrite sorted_length. apply length_map.
  - rewrite sorted_length. apply length_map.
Qed.

Lemma part_calls_buffers (a b : Renderer.t) (pm : ParameterManager.t) (p : part) :
  vbo a = vbo b -> ebo a = ebo b -> part_calls a pm p = part_calls b pm p.
Proof. intros Hv He. unfold part_calls. rewrite Hv, He. reflexivity. Qed.

(** The GL calls of a frame, for a renderer that is initialised and has
    parts. *)
Lemma render_calls (r : Renderer.t) (pm : ParameterManager.t) :
  initialized r = true -> parts r <> [] ->
  snd (render r pm)
  = [glClear; glUseProgram (shader_program r); glActiveTexture;
     glUniform1i; glBindVertexArray (vao r)]
    ++ flat_map (part_calls r pm) (refreshed_order r)
    ++ [glBindVertexArray 0; glUseProgram 0].
Proof.
  intros Hi Hp. unfold render. rewrite Hi. cbn [negb].
  destruct (parts r); [contradiction|reflexivity].
Qed.

Lemma render_draws (r : Renderer.t) (pm : ParameterManager.t) :
  initialized r = true -> parts r <> [] ->
  List.filter is_bind_or_draw (snd (render r pm))
  = flat_map draw_of (List.filter drawable (refreshed_order r)).
Proof.
  intros Hi Hp. rewrite render_calls by assumption.
  rewrite !List.filter_app. cbn [List.filter is_bind_or_draw app].
  rewrite app_nil_r. apply frame_draws.
Qed.

(** What [load_model] and a frame leave alone. *)
Lemma load_model_keeps (w : TextureManager.world) (r : Renderer.t)
    (m : ModelParser.model) :
  initialized (load_model w r m) = initialized r
  /\ shader_program (load_model w r m) = shader_program r
  /\ vao (load_model w r m) = vao r
  /\ vbo (load_model w r m) = vbo r
  /\ ebo (load_model w r m) = ebo r.
Proof. unfold load_model. destruct (fold_left _ _ _). cbn. auto. Qed.

Lemma render_keeps (r : Renderer.t) (pm : ParameterManager.t) :
  initialized (fst (render r pm)) = initialized r
  /\ shader_program (fst (render r pm)) = shader_program r
  /\ vao (fst (render r pm)) = vao r
  /\ vbo (fst (render r pm)) = vbo r
  /\ ebo (fst (render r pm)) = ebo r
  /\ parts (fst (render r pm)) = parts r.
Proof.
  unfold render. destruct (negb (initialized r)); [cbn; auto 10|].
  destruct (parts r) eqn:Hp; cbn; rewrite ?Hp; auto 10.
Qed.

(** C9 (where the code leaves the claim). As long as no order is cached,
    or the cached one has another length than [parts], a frame sorts the
    current parts by depth, stably with respect to their declaration order,
    and draws the visible, textured ones in that order. But the test that
    guards the sort compares lengths only: once a frame has cached an order,
    loading a model that leaves as many parts as before does not renew it,
    and every later frame walks the parts of the replaced model: its GL
    calls are those of the frame before the load, whatever the new parts
    are. On the renderer that drew [demo_model] and then loaded
    [second_model], whose two opaque parts at depths 0 and 1 hold textures 4
    and 5, the frame binds textures 3 and 2, those of the replaced parts;
    and on the renderer that drew its debug quad and then loaded
    [solo_model], the frame draws the debug quad again and not the part of
    the model. *)
Theorem C9_render_walks_the_order_of_replaced_parts
    (w : TextureManager.world) (r : Renderer.t) (pm pm' : ParameterManager.t)
    (model : ModelParser.model) :
  reachable w r ->
  initialized r = true ->
  parts r <> [] ->
  (sorted_parts r = None
   \/ (exists cached, sorted_parts r = Some cached
                      /\ length cached <> length (parts r)) ->
   List.filter is_bind_or_draw (snd (render r pm))
   = flat_map draw_of
       (List.filter drawable (Py.sorted depth (map snd (parts r))))
   /\ StronglySorted (key_le depth)
        (List.filter drawable (Py.sorted depth (map snd (parts r))))
   /\ forall d,
        List.filter (fun p => (depth p =? d)%Z) (Py.sorted depth (map snd (parts r)))
        = List.filter (fun p => (depth p =? d)%Z) (map snd (parts r)))
  /\ (length (parts (load_model w (fst (render r pm)) model)) = length (parts r) ->
      reachable w (load_model w (fst (render r pm)) model)
      /\ initialized (load_model w (fst (render r pm)) model) = true
      /\ refreshed_order (load_model w (fst (render r pm)) model) = refreshed_order r
      /\ snd (render (load_model w (fst (render r pm)) model) pm') = snd (render r pm')
      /\ List.filter is_bind_or_draw
           (snd (render (load_model w (fst (render r pm)) model) pm'))
         = flat_map draw_of (List.filter drawable (refreshed_order r)))
  /\ (reachable demo_world stale_renderer
      /\ initialized stale_renderer = true
      /\ map part_summary (parts stale_renderer)
         = [("face", 0%Z, true, Some 4%Z); ("arm", 1%Z, true, Some 5%Z)]
      /\ Forall (fun kv => opacity (snd kv) = 1.0) (parts stale_renderer)
      /\ flat_map draw_of
           (List.filter drawable (Py.sorted depth (map snd (parts stale_renderer))))
         = [glBindTexture 4; glDrawElements 6; glBindTexture 5; glDrawElements 6]
      /\ List.filter is_bind_or_draw (snd (render stale_renderer ParameterManager.init))
         = [glBindTexture 3; glDrawElements 6; glBindTexture 2; glDrawElements 6])
  /\ (reachable demo_world solo_renderer
      /\ initialized solo_renderer = true
      /\ map part_summary (parts solo_renderer) = [("body", 0%Z, true, Some 2%Z)]
      /\ List.filter is_bind_or_draw (snd (render solo_renderer ParameterManager.init))
         = [glBindTexture 1; glDrawElements 6]).
Proof.
  intros Hreach Hinit Hparts. split; [|split; [|split]].
  - intros Hfresh.
    assert (Horder : refreshed_order r = Py.sorted depth (map snd (parts r))).
    { unfold refreshed_order. destruct Hfresh as [Hnone|(cached & Hc & Hlen)].
      - rewrite Hnone. reflexivity.
      - rewrite Hc. apply Nat.eqb_neq in Hlen. rewrite Hlen. reflexivity. }
    split; [rewrite render_draws by assumption; rewrite Horder; reflexivity|].
    split; [apply filter_sorted, sorted_ascending|].
    intros d. apply sorted_stable.
  - intros Hlen.
    destruct (render_keeps r pm) as (Hi1 & Hs1 & Ha1 & Hv1 & He1 & Hp1).
    destruct (load_model_keeps w (fst (render r pm)) model)
      as (Hi2 & Hs2 & Ha2 & Hv2 & He2).
    assert (Hinit' : initialized (load_model w (fst (render r pm)) model) = true)
      by (rewrite Hi2, Hi1; exact Hinit).
    assert (Hparts' : parts (load_model w (fst (render r pm)) model) <> []).
    { intros E. rewrite E in Hlen. destruct (parts r); [contradiction|discriminate]. }
    assert (Horder : refreshed_order (load_model w (fst (render r pm)) model)
                     = refreshed_order r).
    { unfold refreshed_order at 1.
      rewrite load_model_sorted_parts, render_sorted_parts by assumption.
      rewrite Hlen, refreshed_order_length, Nat.eqb_refl. reflexivity. }
    assert (Hcalls : snd (render (load_model w (fst (render r pm)) model) pm')
                     = snd (render r pm')).
    { rewrite !render_calls by assumption.
      rewrite Horder, Hs2, Hs1, Ha2, Ha1. do 2 f_equal.
      apply flat_map_ext. intros p. apply part_calls_buffers; congruence. }
    split; [apply reach_load_model, reach_render; exact Hreach|].
    split; [exact Hinit'|]. split; [exact Horder|]. split; [exact Hcalls|].
    rewrite Hcalls. apply render_draws; assumption.
  - split; [apply reach_load_model, reach_render, reach_load_model,
              reach_initialize, reach_init|].
    split; [reflexivity|]. split; [reflexivity|].
    split; [repeat constructor|]. split; reflexivity.
  - split; [apply reach_load_model, reach_render, reach_initialize, reach_init|].
    split; [reflexivity|]. split; reflexivity.
Qed.

(** The theorem at the renderer that holds [demo_model] and has not drawn
    yet, and at [second_model] loaded after its first frame. *)
Lemma C9_witness :
  List.filter is_bind_or_draw (snd (render demo_renderer ParameterManager.init))
  = [glBindTexture 3; glDrawElements 6; glBindTexture 2; glDrawElements 6]
  /\ snd (render stale_renderer ParameterManager.init)
     = snd (render demo_renderer ParameterManager.init).
Proof.
  destruct (C9_render_walks_the_order_of_replaced_parts demo_world demo_renderer
              ParameterManager.init ParameterManager.init second_model)
    as (Hfresh & Hstale & _).
  - unfold demo_renderer. apply reach_load_model, reach_initialize, reach_init.
  - reflexivity.
  - discriminate.
  - split.
    + destruct (Hfresh (or_introl eq_refl)) as (Hdraws & _). rewrite Hdraws.
      reflexivity.
    + destruct (Hstale eq_refl) as (_ & _ & _ & Hcalls & _). exact Hcalls.
Defined.

End RenderOrder.

(* ================================================================== *)
(** * Further properties of the engine and of the code around it *)
(* ================================================================== *)

(** ** math_utils.py *)

Section MathUtilsProperties.
Import MathUtils.

(** X1. [map_range] sends the source range onto the target range: the
    ends go to the ends, a value inside stays inside, mapping back with the
    ranges exchanged returns the value, and the result is the [lerp] of the
    target ends at the value's relative position. A source range of zero
    width gives [target_min] whatever the value. *)
Theorem map_range_maps_the_source_range_onto_the_target
    (v a b c d : R) :
  map_range v a a c d = c
  /\ (a <> b -> map_range a a b c d = c /\ map_range b a b c d = d)
  /\ (a < b -> a <= v <= b -> c <= d -> c <= map_range v a b c d <= d)
  /\ (a <> b -> c <> d -> map_range (map_range v a b c d) c d a b = v)
  /\ (a <> b -> map_range v a b c d = lerp c d ((v - a) / (b - a))).
Proof.
  unfold map_range, lerp. repeat split.
  - destruct (Req_dec_T a a); [reflexivity|congruence].
  - destruct (Req_dec_T b a); [congruence|]. field. lra.
  - destruct (Req_dec_T b a); [congruence|]. field. lra.
  - destruct (Req_dec_T b a); [lra|].
    match goal with H : a <= v <= b |- _ => destruct H end.
    assert (0 <= (v - a) / (b - a)) by (apply div_nonneg; lra).
    nra.
  - destruct (Req_dec_T b a); [lra|].
    match goal with H : a <= v <= b |- _ => destruct H end.
    assert ((v - a) / (b - a) <= 1).
    { apply Rmult_le_reg_r with (b - a); [lra|].
      unfold Rdiv. rewrite Rmult_assoc, Rinv_l by lra. lra. }
    nra.
  - intros Hab Hcd.
    destruct (Req_dec_T b a) as [E|_]; [congruence|].
    destruct (Req_dec_T d c) as [E|_]; [congruence|].
    field. split; lra.
  - intros Hab. destruct (Req_dec_T b a); [congruence|]. reflexivity.
Qed.

(** [lerp] starts at [a], ends at [b] and stays between them. *)
Lemma lerp_between (a b t : R) :
  0 <= t <= 1 ->
  lerp a b 0 = a /\ lerp a b 1 = b
  /\ (a <= b -> a <= lerp a b t <= b)
  /\ (b <= a -> b <= lerp a b t <= a).
Proof.
  intros Ht. unfold lerp. repeat split; try lra; nra.
Qed.

(** [clamp] never goes below [min_value]; with the bounds in the wrong
    order it returns [min_value] whatever the value. *)
Lemma clamp_edge_cases (v lo hi : R) :
  lo <= clamp v lo hi
  /\ (lo <= v <= hi -> clamp v lo hi = v)
  /\ (v < lo -> clamp v lo hi = lo)
  /\ (lo <= hi -> hi < v -> clamp v lo hi = hi)
  /\ (hi < lo -> clamp v lo hi = lo).
Proof.
  unfold clamp, Py.max, Py.min.
  repeat split; intros; repeat destruct (Rlt_dec _ _); lra.
Qed.

(** [calculate_distance] is the Euclidean length of [(dx, dy)]. *)
Lemma calculate_distance_is_a_norm (dx dy k : R) :
  0 <= calculate_distance dx dy
  /\ (calculate_distance dx dy = 0 <-> dx = 0 /\ dy = 0)
  /\ calculate_distance dy dx = calculate_distance dx dy
  /\ calculate_distance (- dx) dy = calculate_distance dx dy
  /\ calculate_distance (k * dx) (k * dy) = Rabs k * calculate_distance dx dy
  /\ Rabs dx <= calculate_distance dx dy.
Proof.
  unfold calculate_distance. repeat split.
  - apply sqrt_pos.
  - apply sqrt_eq_0 in H; nra.
  - apply sqrt_eq_0 in H; nra.
  - intros [-> ->]. replace (0 * 0 + 0 * 0) with 0 by ring. apply sqrt_0.
  - f_equal. ring.
  - f_equal. ring.
  - replace (k * dx * (k * dx) + k * dy * (k * dy))
      with (Rabs k * Rabs k * (dx * dx + dy * dy)).
    + rewrite sqrt_mult_alt by (apply Rmult_le_pos; apply Rabs_pos).
      rewrite sqrt_square by apply Rabs_pos. reflexivity.
    + assert (Rabs k * Rabs k = k * k).
      { unfold Rabs. destruct (Rcase_abs k); ring. }
      rewrite H. ring.
  - rewrite <- (sqrt_square (Rabs dx)) by apply Rabs_pos.
    apply sqrt_le_1_alt.
    assert (Rabs dx * Rabs dx = dx * dx).
    { unfold Rabs. destruct (Rcase_abs dx); ring. }
    nra.
Qed.

Ltac rows_eq :=
  repeat match goal with
         | |- _ :: _ = _ :: _ => apply (f_equal2 (@cons _))
         | |- [] = [] => reflexivity
         | |- _ => ring
         end.

(** X2. [create_transform_matrix] returns the 4 x 4 array of a rotation
    followed by a scaling along the axes and then a translation: applied to
    the column [(x, y, 0, 1)] it gives
    [(sx (x cos r - y sin r) + tx, sy (x sin r + y cos r) + ty, 0, 1)]; with
    no rotation it is the diagonal scaling with the translation in the last
    column, the form [render_model] uses. *)
Theorem create_transform_matrix_closed_form (tx ty rotation sx sy x y : R) :
  create_transform_matrix tx ty rotation sx sy
    = [[sx * cos rotation; sx * - sin rotation; 0; tx];
       [sy * sin rotation; sy * cos rotation; 0; ty];
       [0; 0; 1; 0];
       [0; 0; 0; 1]]
  /\ matmul (create_transform_matrix tx ty rotation sx sy) [[x]; [y]; [0]; [1]]
     = [[sx * (x * cos rotation - y * sin rotation) + tx];
        [sy * (x * sin rotation + y * cos rotation) + ty];
        [0];
        [1]]
  /\ create_transform_matrix tx ty 0 sx sy
     = [[sx; 0; 0; tx]; [0; sy; 0; ty]; [0; 0; 1; 0]; [0; 0; 0; 1]].
Proof.
  assert (H : create_transform_matrix tx ty rotation sx sy
    = [[sx * cos rotation; sx * - sin rotation; 0; tx];
       [sy * sin rotation; sy * cos rotation; 0; ty];
       [0; 0; 1; 0];
       [0; 0; 0; 1]]).
  { unfold create_transform_matrix, matmul, identity, setitem, column, dot.
    cbn. rows_eq. }
  split; [exact H|]. split.
  - rewrite H. unfold matmul, column, dot. cbn. rows_eq.
  - unfold create_transform_matrix, matmul, identity, setitem, column, dot.
    rewrite cos_0, sin_0. cbn. rows_eq.
Qed.

End MathUtilsProperties.

(** ** The parameter store as a whole *)


Section ParameterStoreProperties.
Import ParameterManager.

Lemma set_parameter_lookup (pm : ParameterManager.t) (id : string) (v : R) :
  parameters (set_parameter pm id v) !! id
    = Some (MathUtils.clamp v (fst (bounds pm id)) (snd (bounds pm id)))
  /\ parameter_definitions (set_parameter pm id v) !! id
     = Some (default (mkDefinition 0 (-100) 100) (parameter_definitions pm !! id)).
Proof.
  unfold bounds. destruct (parameter_definitions pm !! id) as [d|] eqn:Hd.
  - rewrite (set_parameter_registered _ _ _ _ Hd). simpl.
    rewrite lookup_insert_eq. auto.
  - rewrite (set_parameter_unregistered _ _ _ Hd). simpl.
    rewrite !lookup_insert_eq. auto.
Qed.

Lemma set_parameter_other (pm : ParameterManager.t) (id id' : string) (v : R) :
  id' <> id ->
  parameters (set_parameter pm id v) !! id' = parameters pm !! id'
  /\ parameter_definitions (set_parameter pm id v) !! id'
     = parameter_definitions pm !! id'.
Proof.
  intros Hne. destruct (parameter_definitions pm !! id) as [d|] eqn:Hd.
  - rewrite (set_parameter_registered _ _ _ _ Hd). simpl.
    rewrite lookup_insert_ne by congruence. auto.
  - rewrite (set_parameter_unregistered _ _ _ Hd). simpl.
    rewrite !lookup_insert_ne by congruence. auto.
Qed.

Lemma update_parameters_other (param_dict : list (string * R)) :
  forall (pm : ParameterManager.t) (id : string),
  id ∉ param_dict.*1 ->
  parameters (update_parameters pm param_dict) !! id = parameters pm !! id
  /\ parameter_definitions (update_parameters pm param_dict) !! id
     = parameter_definitions pm !! id.
Proof.
  induction param_dict as [|[k v] rest IH]; intros pm id Hid; [auto|].
  cbn [fmap list_fmap fst] in Hid. apply not_elem_of_cons in Hid as [Hne Hrest].
  unfold update_parameters in *. cbn [fold_left fst snd].
  destruct (IH (set_parameter pm k v) id Hrest) as [-> ->].
  apply set_parameter_other. exact Hne.
Qed.

(** X3. [update_parameters] given a dict (distinct keys): afterwards every
    listed parameter reads its value clamped to the bounds the manager had
    for it (those of an unknown id being [-100, 100]), and a parameter the
    dict does not list reads what it read before. *)
Theorem update_parameters_sets_each (pm : ParameterManager.t)
    (param_dict : list (string * R)) (id : string) (v dflt : R) :
  NoDup (param_dict.*1) ->
  (id, v) ∈ param_dict ->
  get_parameter (update_parameters pm param_dict) id dflt
    = MathUtils.clamp v (fst (bounds pm id)) (snd (bounds pm id))
  /\ (forall id', id' ∉ param_dict.*1 ->
        get_parameter (update_parameters pm param_dict) id' dflt
          = get_parameter pm id' dflt).
Proof.
  intros Hnd Hin. split.
  2:{ intros id' Hid'. unfold get_parameter.
      destruct (update_parameters_other param_dict pm id' Hid') as [-> _].
      reflexivity. }
  revert pm Hnd Hin.
  induction param_dict as [|[k w] rest IH]; intros pm Hnd Hin.
  - apply elem_of_nil in Hin. contradiction.
  - cbn [fmap list_fmap fst] in Hnd. apply NoDup_cons in Hnd as [Hk Hnd].
    unfold update_parameters in *. cbn [fold_left fst snd].
    apply elem_of_cons in Hin as [Heq|Hin].
    + injection Heq as -> ->.
      unfold get_parameter.
      destruct (update_parameters_other rest (set_parameter pm k w) k Hk) as [Hp _].
      unfold update_parameters in Hp. rewrite Hp.
      destruct (set_parameter_lookup pm k w) as [-> _]. reflexivity.
    + assert (Hne : id <> k).
      { intros ->. apply Hk. apply list_elem_of_fmap. exists (k, v). auto. }
      rewrite (IH (set_parameter pm k w) Hnd Hin).
      unfold bounds. destruct (set_parameter_other pm k id w Hne) as [_ ->].
      reflexivity.
Qed.

Lemma reset_parameters_lookup (pm : ParameterManager.t) (id : string) :
  parameters (reset_parameters pm) !! id
    = match parameter_definitions pm !! id with
      | Some d => Some (def_default d)
      | None => parameters pm !! id
      end.
Proof.
  unfold reset_parameters. cbn [parameters].
  apply (map_fold_weak_ind
           (fun r (m : gmap string definition) =>
              r !! id = match m !! id with
                        | Some d => Some (def_default d)
                        | None => parameters pm !! id
                        end)).
  - rewrite lookup_empty. reflexivity.
  - intros k d m r Hk IH. destruct (decide (k = id)) as [->|Hne].
    + rewrite !lookup_insert_eq. reflexivity.
    + rewrite !lookup_insert_ne by exact Hne. exact IH.
Qed.

Lemma update_parameters_sets_each_witness :
  get_parameter
    (update_parameters (register_parameter ParameterManager.init "ParamEyeLOpen" 1 0 1)
                       [("ParamAngleX", 250); ("ParamEyeLOpen", 0.5)])
    "ParamAngleX" 0
  = MathUtils.clamp 250
      (fst (bounds (register_parameter ParameterManager.init "ParamEyeLOpen" 1 0 1)
                   "ParamAngleX"))
      (snd (bounds (register_parameter ParameterManager.init "ParamEyeLOpen" 1 0 1)
                   "ParamAngleX"))
  /\ (forall id', id' ∉ [("ParamAngleX", 250); ("ParamEyeLOpen", 0.5)].*1 ->
        get_parameter
          (update_parameters (register_parameter ParameterManager.init "ParamEyeLOpen" 1 0 1)
                             [("ParamAngleX", 250); ("ParamEyeLOpen", 0.5)])
          id' 0
        = get_parameter (register_parameter ParameterManager.init "ParamEyeLOpen" 1 0 1)
                        id' 0).
Proof.
  apply (update_parameters_sets_each
           (register_parameter ParameterManager.init "ParamEyeLOpen" 1 0 1)
           [("ParamAngleX", 250); ("ParamEyeLOpen", 0.5)] "ParamAngleX" 250 0).
  - cbn. repeat constructor; intros H.
    + apply elem_of_cons in H as [H|H]; [discriminate|].
      apply elem_of_nil in H. exact H.
    + apply elem_of_nil in H. exact H.
  - apply elem_of_cons. auto.
Defined.

(** X4. [reset_parameters] puts every registered parameter back to the
    default of its definition, whatever was set since, and changes neither
    the definitions nor a value that has no definition. *)
Theorem reset_parameters_restores_defaults (pm : ParameterManager.t)
    (id : string) (d lo hi v dflt : R) :
  get_parameter
    (reset_parameters (set_parameter (register_parameter pm id d lo hi) id v))
    id dflt = d
  /\ (forall k def, parameter_definitions pm !! k = Some def ->
        get_parameter (reset_parameters pm) k dflt = def_default def)
  /\ (forall k, parameter_definitions pm !! k = None ->
        get_parameter (reset_parameters pm) k dflt = get_parameter pm k dflt)
  /\ parameter_definitions (reset_parameters pm) = parameter_definitions pm.
Proof.
  repeat split.
  - unfold get_parameter. rewrite reset_parameters_lookup.
    destruct (set_parameter_lookup (register_parameter pm id d lo hi) id v) as [_ ->].
    cbn [register_parameter parameter_definitions]. rewrite lookup_insert_eq.
    reflexivity.
  - intros k def Hk. unfold get_parameter. rewrite reset_parameters_lookup, Hk.
    reflexivity.
  - intros k Hk. unfold get_parameter. rewrite reset_parameters_lookup, Hk.
    reflexivity.
Qed.


Lemma set_parameter_agree (pm : ParameterManager.t) (id : string) (v : R) :
  agree pm -> agree (set_parameter pm id v).
Proof.
  intros H k. destruct (decide (k = id)) as [->|Hne].
  - destruct (set_parameter_lookup pm id v) as [-> ->]. split; eauto.
  - destruct (set_parameter_other pm id k v Hne) as [-> ->]. apply H.
Qed.

Lemma update_parameters_fold (P : ParameterManager.t -> Prop) :
  (forall pm id v, P pm -> P (set_parameter pm id v)) ->
  forall param_dict pm, P pm -> P (update_parameters pm param_dict).
Proof.
  intros Hstep param_dict. unfold update_parameters.
  induction param_dict as [|[k v] rest IH]; intros pm Hpm; [exact Hpm|].
  cbn [fold_left]. apply IH. apply Hstep. exact Hpm.
Qed.

(** X5. In every state a parameter manager reaches, the ids that have a
    value are exactly the ids that have a definition: [set_parameter] on an
    unknown id registers it, and no method removes an entry. *)
Theorem every_value_has_a_definition (ok : R -> R -> R -> Prop)
    (pm : ParameterManager.t) (id : string) :
  reachable_parameters ok pm ->
  is_Some (parameters pm !! id) <-> is_Some (parameter_definitions pm !! id).
Proof.
  intros Hr. revert id. change (agree pm).
  induction Hr as [|pm k d lo hi _ IH _|pm k v _ IH|pm dict _ IH|pm _ IH].
  - intros id. cbn. rewrite !lookup_empty. split; intros [? [=]].
  - intros id. cbn. destruct (decide (id = k)) as [->|Hne].
    + rewrite !lookup_insert_eq. split; eauto.
    + rewrite !lookup_insert_ne by congruence. apply IH.
  - apply set_parameter_agree. exact IH.
  - apply update_parameters_fold; [|exact IH].
    intros. apply set_parameter_agree. assumption.
  - intros id. rewrite reset_parameters_lookup. cbn [reset_parameters parameter_definitions].
    destruct (parameter_definitions pm !! id) as [d|] eqn:Hd.
    + split; eauto.
    + rewrite <- Hd. apply IH.
Qed.

Lemma every_value_has_a_definition_witness :
  is_Some (parameters
             (reset_parameters
                (set_parameter
                   (register_parameter ParameterManager.init "ParamEyeLOpen" 1 0 1)
                   "ParamAngleX" 30)) !! "ParamAngleX")
  <-> is_Some (parameter_definitions
                 (reset_parameters
                    (set_parameter
                       (register_parameter ParameterManager.init "ParamEyeLOpen" 1 0 1)
                       "ParamAngleX" 30)) !! "ParamAngleX").
Proof.
  apply (every_value_has_a_definition (fun _ _ _ => True)).
  apply reach_reset, reach_set, reach_register; [apply reach_new|exact I].
Defined.


Lemma set_parameter_within_bounds (pm : ParameterManager.t) (id : string) (v : R) :
  within_bounds pm -> within_bounds (set_parameter pm id v).
Proof.
  intros [Hsane Hin]. split.
  - intros k d. destruct (decide (k = id)) as [->|Hne].
    + destruct (set_parameter_lookup pm id v) as [_ ->].
      destruct (parameter_definitions pm !! id) as [d0|] eqn:Hd0; cbn.
      * intros [= <-]. eapply Hsane; eauto.
      * intros [= <-]. cbn. lra.
    + destruct (set_parameter_other pm id k v Hne) as [_ ->]. apply Hsane.
  - intros k w d. destruct (decide (k = id)) as [->|Hne].
    + destruct (set_parameter_lookup pm id v) as [-> ->]. unfold bounds.
      destruct (parameter_definitions pm !! id) as [d0|] eqn:Hd0; cbn.
      * intros [= <-] [= <-]. apply clamp_within.
        specialize (Hsane _ _ Hd0). lra.
      * intros [= <-] [= <-]. cbn. apply clamp_within. lra.
    + destruct (set_parameter_other pm id k v Hne) as [-> ->]. apply Hin.
Qed.

(** X6. When parameters are only registered with a default between their
    bounds, every value the manager holds lies between the bounds of its
    definition, after any sequence of [register_parameter], [set_parameter],
    [update_parameters] and [reset_parameters]. *)
Theorem values_stay_within_bounds (pm : ParameterManager.t)
    (id : string) (v : R) (d : definition) :
  reachable_parameters sane_definition pm ->
  parameters pm !! id = Some v ->
  parameter_definitions pm !! id = Some d ->
  def_min d <= v <= def_max d.
Proof.
  intros Hr. enough (H : within_bounds pm) by (apply H).
  clear id v d.
  induction Hr as [|pm k d lo hi _ IH Hok|pm k v _ IH|pm dict _ IH|pm _ IH].
  - split; cbn; intros *; rewrite lookup_empty; discriminate.
  - destruct IH as [Hsane Hin]. unfold sane_definition in Hok. split; cbn.
    + intros id e. destruct (decide (id = k)) as [->|Hne].
      * rewrite lookup_insert_eq. intros [= <-]. exact Hok.
      * rewrite lookup_insert_ne by congruence. apply Hsane.
    + intros id w e. destruct (decide (id = k)) as [->|Hne].
      * rewrite !lookup_insert_eq. intros [= <-] [= <-]. exact Hok.
      * rewrite !lookup_insert_ne by congruence. apply Hin.
  - apply set_parameter_within_bounds. exact IH.
  - apply update_parameters_fold; [|exact IH].
    intros. apply set_parameter_within_bounds. assumption.
  - destruct IH as [Hsane Hin]. split.
    + exact Hsane.
    + intros id w e. rewrite reset_parameters_lookup.
      cbn [reset_parameters parameter_definitions]. intros Hw He.
      rewrite He in Hw. injection Hw as <-. eapply Hsane; eauto.
Qed.

Lemma values_stay_within_bounds_witness :
  def_min (mkDefinition 0 (-30) 30) <= 30 <= def_max (mkDefinition 0 (-30) 30).
Proof.
  apply (values_stay_within_bounds
           (set_parameter (register_parameter ParameterManager.init "ParamAngleX" 0 (-30) 30)
                          "ParamAngleX" 45)
           "ParamAngleX" 30 (mkDefinition 0 (-30) 30)).
  - apply reach_set, reach_register; [apply reach_new|].
    unfold sane_definition. lra.
  - destruct (set_parameter_lookup
                (register_parameter ParameterManager.init "ParamAngleX" 0 (-30) 30)
                "ParamAngleX" 45) as [-> _].
    unfold bounds. cbn. rewrite lookup_insert_eq. cbn. f_equal.
    unfold MathUtils.clamp, Py.max, Py.min.
    repeat destruct (Rlt_dec _ _); lra.
  - destruct (set_parameter_lookup
                (register_parameter ParameterManager.init "ParamAngleX" 0 (-30) 30)
                "ParamAngleX" 45) as [_ ->].
    cbn. rewrite lookup_insert_eq. reflexivity.
Defined.

End ParameterStoreProperties.

Section ParameterDefinitionsProperties.
Import ParameterManager ParameterDefinitions.

Lemma load_parameter_definitions_app (pm : ParameterManager.t)
    (l1 l2 : list ModelParser.parameter_def) :
  load_parameter_definitions pm (l1 ++ l2)
    = load_parameter_definitions (load_parameter_definitions pm l1) l2.
Proof. unfold load_parameter_definitions. apply fold_left_app. Qed.

Lemma load_parameter_definitions_other (defs : list ModelParser.parameter_def) :
  forall (pm : ParameterManager.t) (id : string),
  (forall e, e ∈ defs -> ~ registers e id) ->
  parameters (load_parameter_definitions pm defs) !! id = parameters pm !! id
  /\ parameter_definitions (load_parameter_definitions pm defs) !! id
     = parameter_definitions pm !! id.
Proof.
  induction defs as [|e rest IH]; intros pm id Hno; [auto|].
  unfold load_parameter_definitions in *. cbn [fold_left].
  assert (Hrest : forall e', e' ∈ rest -> ~ registers e' id).
  { intros e' He'. apply Hno. apply elem_of_cons. auto. }
  specialize (Hno e ltac:(apply elem_of_cons; auto)).
  destruct (String.eqb_spec (default "" (ModelParser.pd_Id e)) "") as [He|He].
  - apply IH. exact Hrest.
  - destruct (IH (register_parameter pm (default "" (ModelParser.pd_Id e))
                    (default 0.0 (ModelParser.pd_Default e))
                    (default (-100.0) (ModelParser.pd_Min e))
                    (default 100.0 (ModelParser.pd_Max e))) id Hrest) as [-> ->].
    assert (Hne : default "" (ModelParser.pd_Id e) <> id).
    { intros Heq. apply Hno. unfold registers.
      destruct (ModelParser.pd_Id e) as [i|]; cbn in *; [|congruence].
      subst i. auto. }
    cbn. rewrite !lookup_insert_ne by exact Hne. auto.
Qed.

Lemma load_parameter_definitions_last_wins (pm : ParameterManager.t)
    (before after : list ModelParser.parameter_def)
    (d : ModelParser.parameter_def) (id : string) (dflt : R) :
  registers d id ->
  (forall e, e ∈ after -> ~ registers e id) ->
  parameter_definitions (load_parameter_definitions pm (before ++ d :: after)) !! id
    = Some (mkDefinition (default 0.0 (ModelParser.pd_Default d))
                         (default (-100.0) (ModelParser.pd_Min d))
                         (default 100.0 (ModelParser.pd_Max d)))
  /\ get_parameter (load_parameter_definitions pm (before ++ d :: after)) id dflt
     = default 0.0 (ModelParser.pd_Default d).
Proof.
  intros [Hid Hne] Hafter.
  rewrite load_parameter_definitions_app.
  set (pm1 := load_parameter_definitions pm before).
  change (d :: after) with ([d] ++ after). rewrite load_parameter_definitions_app.
  unfold get_parameter.
  destruct (load_parameter_definitions_other after
              (load_parameter_definitions pm1 [d]) id Hafter) as [-> ->].
  unfold load_parameter_definitions. cbn [fold_left]. rewrite Hid.
  cbn [default from_option Datatypes.id].
  destruct (String.eqb_spec id "") as [E|_]; [contradiction|].
  cbn. rewrite !lookup_insert_eq. split; reflexivity.
Qed.

Lemma load_parameter_definitions_nameless (pm : ParameterManager.t)
    (defs : list ModelParser.parameter_def) :
  (forall e, e ∈ defs ->
     ModelParser.pd_Id e = None \/ ModelParser.pd_Id e = Some "") ->
  load_parameter_definitions pm defs = pm.
Proof.
  revert pm. induction defs as [|e rest IH]; intros pm H; [reflexivity|].
  unfold load_parameter_definitions in *. cbn [fold_left].
  assert (He : default "" (ModelParser.pd_Id e) = "").
  { destruct (H e ltac:(apply elem_of_cons; auto)) as [-> | ->]; reflexivity. }
  rewrite He. cbn. apply IH. intros e' He'. apply H. apply elem_of_cons. auto.
Qed.

(** X7. [load_parameter_definitions] registers every entry that has a
    non-empty ["Id"], with 0, -100 and 100 for a missing ["Default"],
    ["Min"] and ["Max"], and sets the parameter to that default; of several
    entries with the same id the last one decides; an id no entry names is
    left as it was, and a list of entries without id (or with an empty one)
    changes nothing. *)
Theorem load_parameter_definitions_registers_the_named_entries
    (pm : ParameterManager.t) (before after : list ModelParser.parameter_def)
    (d : ModelParser.parameter_def) (id : string) (dflt : R) :
  registers d id ->
  (forall e, e ∈ after -> ~ registers e id) ->
  (parameter_definitions (load_parameter_definitions pm (before ++ d :: after)) !! id
     = Some (mkDefinition (default 0.0 (ModelParser.pd_Default d))
                          (default (-100.0) (ModelParser.pd_Min d))
                          (default 100.0 (ModelParser.pd_Max d)))
   /\ get_parameter (load_parameter_definitions pm (before ++ d :: after)) id dflt
      = default 0.0 (ModelParser.pd_Default d))
  /\ (forall defs id',
        (forall e, e ∈ defs -> ~ registers e id') ->
        parameters (load_parameter_definitions pm defs) !! id' = parameters pm !! id'
        /\ parameter_definitions (load_parameter_definitions pm defs) !! id'
           = parameter_definitions pm !! id')
  /\ (forall defs,
        (forall e, e ∈ defs ->
           ModelParser.pd_Id e = None \/ ModelParser.pd_Id e = Some "") ->
        load_parameter_definitions pm defs = pm).
Proof.
  intros Hd Hafter. split; [apply load_parameter_definitions_last_wins; assumption|].
  split.
  - intros defs id' H. apply load_parameter_definitions_other. exact H.
  - intros defs H. apply load_parameter_definitions_nameless. exact H.
Qed.

Lemma load_parameter_definitions_registers_the_named_entries_witness :
  (parameter_definitions
     (load_parameter_definitions ParameterManager.init
        ([ModelParser.mkParameterDef None (Some 5) None None;
          ModelParser.mkParameterDef (Some "ParamAngleX") (Some 1) None None]
         ++ ModelParser.mkParameterDef (Some "ParamAngleX") None (Some (-30)) (Some 30)
            :: [ModelParser.mkParameterDef (Some "") None None None]))
     !! "ParamAngleX"
   = Some (mkDefinition (default 0.0 None) (default (-100.0) (Some (-30)))
                        (default 100.0 (Some 30)))
   /\ get_parameter
        (load_parameter_definitions ParameterManager.init
           ([ModelParser.mkParameterDef None (Some 5) None None;
             ModelParser.mkParameterDef (Some "ParamAngleX") (Some 1) None None]
            ++ ModelParser.mkParameterDef (Some "ParamAngleX") None (Some (-30)) (Some 30)
               :: [ModelParser.mkParameterDef (Some "") None None None]))
        "ParamAngleX" 7
      = default 0.0 None)
  /\ (forall defs id',
        (forall e, e ∈ defs -> ~ registers e id') ->
        parameters (load_parameter_definitions ParameterManager.init defs) !! id'
          = parameters ParameterManager.init !! id'
        /\ parameter_definitions (load_parameter_definitions ParameterManager.init defs)
             !! id'
           = parameter_definitions ParameterManager.init !! id')
  /\ (forall defs,
        (forall e, e ∈ defs ->
           ModelParser.pd_Id e = None \/ ModelParser.pd_Id e = Some "") ->
        load_parameter_definitions ParameterManager.init defs = ParameterManager.init).
Proof.
  apply (load_parameter_definitions_registers_the_named_entries ParameterManager.init
           [ModelParser.mkParameterDef None (Some 5) None None;
            ModelParser.mkParameterDef (Some "ParamAngleX") (Some 1) None None]
           [ModelParser.mkParameterDef (Some "") None None None]
           (ModelParser.mkParameterDef (Some "ParamAngleX") None (Some (-30)) (Some 30))
           "ParamAngleX" 7).
  - split; [reflexivity|discriminate].
  - intros e He. apply list_elem_of_singleton in He as ->. intros [H _]. discriminate.
Defined.

End ParameterDefinitionsProperties.

(** ** Bezier curves: the direct evaluation and the cache at any precision *)

Section BezierProperties.
Import BezierCalculator.

Lemma bernstein_weights (t : R) :
  0 <= t <= 1 ->
  0 <= (1 - t) * (1 - t) * (1 - t)
  /\ 0 <= 3 * ((1 - t) * (1 - t)) * t
  /\ 0 <= 3 * (1 - t) * (t * t)
  /\ 0 <= t * t * t.
Proof.
  intros [H0 H1].
  assert (0 <= 1 - t) by lra.
  assert (0 <= (1 - t) * (1 - t)) by (apply Rmult_le_pos; assumption).
  assert (0 <= t * t) by (apply Rmult_le_pos; assumption).
  repeat split.
  - apply Rmult_le_pos; assumption.
  - apply Rmult_le_pos; [|assumption]. lra.
  - apply Rmult_le_pos; [|assumption]. lra.
  - apply Rmult_le_pos; assumption.
Qed.

Lemma calculate_point_hull (p0 p1 p2 p3 t lo hi : R) :
  0 <= t <= 1 ->
  lo <= p0 <= hi -> lo <= p1 <= hi -> lo <= p2 <= hi -> lo <= p3 <= hi ->
  lo <= calculate_point p0 p1 p2 p3 t <= hi.
Proof.
  intros Ht H0 H1 H2 H3.
  destruct (bernstein_weights t Ht) as (W0 & W1 & W2 & W3).
  unfold calculate_point.
  set (w0 := (1 - t) * (1 - t) * (1 - t)) in *.
  set (w1 := 3 * ((1 - t) * (1 - t)) * t) in *.
  set (w2 := 3 * (1 - t) * (t * t)) in *.
  set (w3 := t * t * t) in *.
  assert (Hsum : w0 + w1 + w2 + w3 = 1) by (unfold w0, w1, w2, w3; ring).
  assert (Hlo : lo = w0 * lo + w1 * lo + w2 * lo + w3 * lo)
    by (transitivity ((w0 + w1 + w2 + w3) * lo); [rewrite Hsum; ring|ring]).
  assert (Hhi : hi = w0 * hi + w1 * hi + w2 * hi + w3 * hi)
    by (transitivity ((w0 + w1 + w2 + w3) * hi); [rewrite Hsum; ring|ring]).
  pose proof (Rmult_le_compat_l w0 lo p0 W0 (proj1 H0)).
  pose proof (Rmult_le_compat_l w1 lo p1 W1 (proj1 H1)).
  pose proof (Rmult_le_compat_l w2 lo p2 W2 (proj1 H2)).
  pose proof (Rmult_le_compat_l w3 lo p3 W3 (proj1 H3)).
  pose proof (Rmult_le_compat_l w0 p0 hi W0 (proj2 H0)).
  pose proof (Rmult_le_compat_l w1 p1 hi W1 (proj2 H1)).
  pose proof (Rmult_le_compat_l w2 p2 hi W2 (proj2 H2)).
  pose proof (Rmult_le_compat_l w3 p3 hi W3 (proj2 H3)).
  lra.
Qed.

(** X8. For [t] in [0, 1], [calculate_point] stays between the smallest
    and the largest of the four control values; it starts at [p0], ends at
    [p3], and reversing the control values reverses the curve. *)
Theorem calculate_point_stays_between_control_values
    (p0 p1 p2 p3 t lo hi : R) :
  0 <= t <= 1 ->
  lo <= p0 <= hi -> lo <= p1 <= hi -> lo <= p2 <= hi -> lo <= p3 <= hi ->
  lo <= calculate_point p0 p1 p2 p3 t <= hi
  /\ calculate_point p0 p1 p2 p3 0 = p0
  /\ calculate_point p0 p1 p2 p3 1 = p3
  /\ calculate_point p3 p2 p1 p0 (1 - t) = calculate_point p0 p1 p2 p3 t.
Proof.
  intros Ht H0 H1 H2 H3. split; [apply calculate_point_hull; assumption|].
  unfold calculate_point. repeat split; ring.
Qed.

Lemma calculate_point_stays_between_control_values_witness :
  0 <= calculate_point 0 0 1 1 (1/2) <= 1
  /\ calculate_point 0 0 1 1 0 = 0
  /\ calculate_point 0 0 1 1 1 = 1
  /\ calculate_point 1 1 0 0 (1 - 1/2) = calculate_point 0 0 1 1 (1/2).
Proof.
  apply calculate_point_stays_between_control_values; lra.
Defined.

Lemma sample_in_unit (N i : Z) :
  (0 < N)%Z -> (0 <= i <= N)%Z -> 0 <= IZR i / IZR N <= 1.
Proof.
  intros HN [Hi0 HiN]. apply IZR_lt in HN. apply IZR_le in Hi0, HiN.
  split.
  - apply div_nonneg; lra.
  - apply Rmult_le_reg_r with (IZR N); [lra|].
    unfold Rdiv. rewrite Rmult_assoc, Rinv_l by lra. lra.
Qed.

(** The four ways [evaluate_cached] answers on a table built at precision
    [N > 0]: the first sample, the last sample, a sample hit exactly, or the
    chord between two neighbouring samples. *)
Lemma evaluate_cached_cases (bc : BezierCalculator.t) (id : string)
    (N : Z) (p0 p1 p2 p3 t : R) :
  (0 < N)%Z ->
  curve_cache bc !! id = Some (cache_data N p0 p1 p2 p3) ->
  let f := calculate_point p0 p1 p2 p3 in
  (t <= 0 /\ evaluate_cached bc id t = inr (f 0))
  \/ (1 <= t /\ evaluate_cached bc id t = inr (f 1))
  \/ (exists i, (0 <= i <= N)%Z /\ IZR i / IZR N = t
                /\ evaluate_cached bc id t = inr (f t))
  \/ (exists r, (0 <= r < N)%Z
                /\ IZR r / IZR N < t < IZR (r + 1) / IZR N
                /\ evaluate_cached bc id t
                   = inr (f (IZR r / IZR N)
                          + (t - IZR r / IZR N) / (IZR (r + 1) / IZR N - IZR r / IZR N)
                            * (f (IZR (r + 1) / IZR N) - f (IZR r / IZR N)))).
Proof.
  intros HN Hc f.
  assert (HNR : 0 < IZR N) by (apply IZR_lt in HN; exact HN).
  pose proof (getitem_cache_data N p0 p1 p2 p3) as Hget. fold f in Hget.
  pose proof (getitem_cache_data_last N p0 p1 p2 p3 HN) as Hlast. fold f in Hlast.
  pose proof (Hget 0%Z ltac:(lia)) as Hfirst.
  replace (IZR 0 / IZR N) with 0 in Hfirst by (unfold Rdiv; ring).
  unfold evaluate_cached. rewrite Hc, Hfirst. cbn [Py.bind fst snd].
  destruct (Rle_dec t 0) as [Hle|Hgt0]; [left; auto|].
  rewrite Hlast. cbn [Py.bind fst snd].
  destruct (Rge_dec t 1) as [Hge|Hlt1]; [right; left; split; [lra|reflexivity]|].
  right. right.
  rewrite cache_data_length.
  replace (Z.of_nat (Z.to_nat (N + 1)) - 1)%Z with N by lia.
  assert (H1 : IZR N / IZR N = 1) by (field; lra).
  pose proof (binary_search_invariant (cache_data N p0 p1 p2 p3) N
                (fun i => IZR i / IZR N) (fun i => f (IZR i / IZR N)) t
                Hget
                (fun i j _ Hij _ => sample_time_mono N i j HN Hij)
                ltac:(cbv beta; rewrite H1; unfold Rdiv; rewrite Rmult_0_l; lra)
                0 N ltac:(lia) ltac:(lia) ltac:(lia)
                ltac:(intros; lia) ltac:(intros; lia)) as Hpost.
  destruct (binary_search (cache_data N p0 p1 p2 p3) t 0 N)
    as [v|right_ left_|e]; cbn [search_post] in Hpost.
  - destruct Hpost as (i & Hi & Hti & ->). left. exists i.
    split; [exact Hi|]. split; [exact Hti|]. rewrite Hti. reflexivity.
  - destruct Hpost as (Hr & -> & Hl & Hlow & Hhigh). right. exists right_.
    split; [lia|]. split; [split; assumption|].
    unfold interpolate. rewrite (Hget right_) by lia.
    rewrite (Hget (right_ + 1)%Z) by lia. cbn [Py.bind].
    destruct (Req_dec_T (IZR (right_ + 1) / IZR N) (IZR right_ / IZR N)) as [Heq|Hne];
      [lra|reflexivity].
  - contradiction.
Qed.

(** X9. On a curve cached at any precision of at least 1,
    [evaluate_cached] returns a value for every [t], inside or outside
    [0, 1], without raising, and that value lies between the smallest and
    the largest control value. *)
Theorem evaluate_cached_never_raises_and_stays_in_range
    (bc bc' : BezierCalculator.t) (id : string) (p0 p1 p2 p3 t lo hi : R) :
  (0 < precision bc)%Z ->
  create_curve_cache bc id p0 p1 p2 p3 = inr bc' ->
  lo <= p0 <= hi -> lo <= p1 <= hi -> lo <= p2 <= hi -> lo <= p3 <= hi ->
  exists v, evaluate_cached bc' id t = inr v /\ lo <= v <= hi.
Proof.
  intros HN Hc H0 H1 H2 H3.
  apply create_curve_cache_lookup in Hc as [_ Hc].
  assert (Hf : forall s, 0 <= s <= 1 -> lo <= calculate_point p0 p1 p2 p3 s <= hi).
  { intros s Hs. apply calculate_point_hull; assumption. }
  destruct (evaluate_cached_cases bc' id (precision bc) p0 p1 p2 p3 t HN Hc)
    as [[_ ->]|[[_ ->]|[(i & Hi & Hti & ->)|(r & Hr & Hbr & ->)]]].
  - eexists. split; [reflexivity|]. apply Hf. lra.
  - eexists. split; [reflexivity|]. apply Hf. lra.
  - eexists. split; [reflexivity|]. apply Hf. rewrite <- Hti.
    apply sample_in_unit; assumption.
  - eexists. split; [reflexivity|].
    pose proof (Hf _ (sample_in_unit (precision bc) r HN ltac:(lia))) as Ha.
    pose proof (Hf _ (sample_in_unit (precision bc) (r + 1) HN ltac:(lia))) as Hb.
    set (a := IZR r / IZR (precision bc)) in *.
    set (b := IZR (r + 1) / IZR (precision bc)) in *.
    set (fa := calculate_point p0 p1 p2 p3 a) in *.
    set (fb := calculate_point p0 p1 p2 p3 b) in *.
    assert (Hq : 0 <= (t - a) / (b - a) <= 1).
    { split.
      - apply div_nonneg; lra.
      - apply Rmult_le_reg_r with (b - a); [lra|].
        unfold Rdiv. rewrite Rmult_assoc, Rinv_l by lra. lra. }
    set (q := (t - a) / (b - a)) in *.
    destruct Hq as [Hq0 Hq1].
    replace (fa + q * (fb - fa)) with ((1 - q) * fa + q * fb) by ring.
    assert (0 <= 1 - q) by lra.
    pose proof (Rmult_le_compat_l (1 - q) lo fa ltac:(lra) (proj1 Ha)).
    pose proof (Rmult_le_compat_l (1 - q) fa hi ltac:(lra) (proj2 Ha)).
    pose proof (Rmult_le_compat_l q lo fb Hq0 (proj1 Hb)).
    pose proof (Rmult_le_compat_l q fb hi Hq0 (proj2 Hb)).
    lra.
Qed.

Lemma evaluate_cached_never_raises_and_stays_in_range_witness :
  exists v,
    evaluate_cached
      {| curve_cache := <["ParamAngleX_0" := cache_data 200 0 1 2 0]> ∅;
         precision := 200 |} "ParamAngleX_0" (1 / 3) = inr v
    /\ 0 <= v <= 2.
Proof.
  apply (evaluate_cached_never_raises_and_stays_in_range BezierCalculator.init _
           "ParamAngleX_0" 0 1 2 0 (1 / 3) 0 2).
  - reflexivity.
  - reflexivity.
  - lra.
  - lra.
  - lra.
  - lra.
Defined.

(** X10. At each of the sample times [i / precision] the cached evaluation
    is the direct one: [evaluate_cached] returns [calculate_point] at that
    time, with no interpolation error. *)
Theorem evaluate_cached_exact_at_samples
    (bc bc' : BezierCalculator.t) (id : string) (p0 p1 p2 p3 : R) (i : Z) :
  (0 < precision bc)%Z ->
  create_curve_cache bc id p0 p1 p2 p3 = inr bc' ->
  (0 <= i <= precision bc)%Z ->
  evaluate_cached bc' id (IZR i / IZR (precision bc))
    = inr (calculate_point p0 p1 p2 p3 (IZR i / IZR (precision bc))).
Proof.
  intros HN Hc Hi.
  apply create_curve_cache_lookup in Hc as [_ Hc].
  set (N := precision bc) in *.
  assert (HNR : 0 < IZR N) by (apply IZR_lt in HN; exact HN).
  pose proof (sample_in_unit N i HN Hi) as Hu.
  destruct (evaluate_cached_cases bc' id N p0 p1 p2 p3 (IZR i / IZR N) HN Hc)
    as [[Ht ->]|[[Ht ->]|[(j & Hj & Htj & ->)|(r & Hr & [Hlo Hhi] & _)]]].
  - do 2 f_equal. lra.
  - do 2 f_equal. lra.
  - reflexivity.
  - exfalso.
    assert (r < i)%Z.
    { apply lt_IZR. apply Rmult_lt_reg_r with (/ IZR N);
        [apply Rinv_0_lt_compat; exact HNR|exact Hlo]. }
    assert (i < r + 1)%Z.
    { apply lt_IZR. apply Rmult_lt_reg_r with (/ IZR N);
        [apply Rinv_0_lt_compat; exact HNR|exact Hhi]. }
    lia.
Qed.

Lemma evaluate_cached_exact_at_samples_witness :
  evaluate_cached
    {| curve_cache := <["ParamAngleX_0" := cache_data 200 0 1 2 0]> ∅;
       precision := 200 |} "ParamAngleX_0" (IZR 50 / IZR 200)
  = inr (calculate_point 0 1 2 0 (IZR 50 / IZR 200)).
Proof.
  apply (evaluate_cached_exact_at_samples BezierCalculator.init _
           "ParamAngleX_0" 0 1 2 0 50).
  - reflexivity.
  - reflexivity.
  - cbn. lia.
Defined.

End BezierProperties.

(** ** Segments and curves of a motion *)

Section SegmentProperties.
Import BezierCalculator SegmentEvaluator.

(** X11. Once a segment id has a cached curve, [evaluate_segment] answers
    a Bezier segment under that id from the cache and never looks at the
    control values it is given: two segments with the same start and end
    time evaluate alike under the same id, whatever their values. *)
Theorem evaluate_segment_reuses_cached_curve (se : SegmentEvaluator.t)
    (sid : string) (c : list (R * R))
    (time d0 d1 d2 d3 d4 d5 e1 e2 e3 e5 : R) (rest rest' : list R) :
  sid <> "" ->
  curve_cache (bezier_calculator se) !! sid = Some c ->
  evaluate_segment se 1 time (d0 :: d1 :: d2 :: d3 :: d4 :: d5 :: rest) (Some sid)
    = evaluate_segment se 1 time (d0 :: e1 :: e2 :: e3 :: d4 :: e5 :: rest') (Some sid).
Proof.
  intros Hsid Hc. unfold evaluate_segment.
  destruct (Req_dec_T 1 0) as [E|_]; [lra|].
  destruct (Req_dec_T 1 1) as [_|E]; [|lra].
  destruct (Rge_dec time d0); [|reflexivity].
  destruct (Rle_dec time d4); [|reflexivity].
  destruct (String.eqb_spec sid "") as [E|_]; [contradiction|].
  rewrite Hc. reflexivity.
Qed.

Lemma evaluate_segment_reuses_cached_curve_witness :
  evaluate_segment
    {| bezier_calculator :=
         {| curve_cache := <["ParamAngleX_0" := cache_data 200 0 1 2 0]> ∅;
            precision := 200 |} |}
    1 (1/2) [0; 0; 1/3; 1; 1; 2] (Some "ParamAngleX_0")
  = evaluate_segment
      {| bezier_calculator :=
           {| curve_cache := <["ParamAngleX_0" := cache_data 200 0 1 2 0]> ∅;
              precision := 200 |} |}
      1 (1/2) [0; 50; 1/3; 60; 1; 70] (Some "ParamAngleX_0").
Proof.
  apply (evaluate_segment_reuses_cached_curve _ "ParamAngleX_0"
           (cache_data 200 0 1 2 0)).
  - discriminate.
  - cbn [bezier_calculator curve_cache]. apply lookup_insert_eq.
Defined.

Lemma evaluate_cached_well_formed (bc : BezierCalculator.t) (sid : string)
    (c : list (R * R)) (t : R) :
  well_formed_cache bc ->
  curve_cache bc !! sid = Some c ->
  exists v, evaluate_cached bc sid t = inr v.
Proof.
  intros [HN Hwf] Hc. destruct (Hwf sid c Hc) as (p0 & p1 & p2 & p3 & ->).
  destruct (evaluate_cached_cases bc sid (precision bc) p0 p1 p2 p3 t HN Hc)
    as [[_ ->]|[[_ ->]|[(i & _ & _ & ->)|(r & _ & _ & ->)]]]; eauto.
Qed.

Lemma create_curve_cache_well_formed (bc : BezierCalculator.t) (sid : string)
    (p0 p1 p2 p3 : R) :
  well_formed_cache bc ->
  exists bc', create_curve_cache bc sid p0 p1 p2 p3 = inr bc'
              /\ well_formed_cache bc'
              /\ curve_cache bc' !! sid = Some (cache_data (precision bc) p0 p1 p2 p3).
Proof.
  intros [HN Hwf]. unfold create_curve_cache.
  destruct (Z.eqb_spec (precision bc) 0) as [E|_]; [lia|].
  eexists. split; [reflexivity|]. cbn [precision curve_cache].
  split; [split; [exact HN|]|apply lookup_insert_eq].
  intros k c. cbn [precision curve_cache].
  destruct (decide (k = sid)) as [->|Hne].
  - rewrite lookup_insert_eq. intros [= <-]. eauto.
  - rewrite lookup_insert_ne by congruence. apply Hwf.
Qed.

(** [evaluate_segment] never raises on a well-formed evaluator, and leaves it
    well-formed. *)
Lemma evaluate_segment_well_formed (se : SegmentEvaluator.t)
    (segment_type time : R) (segment_data : list R) (segment_id : option string) :
  well_formed_cache (bezier_calculator se) ->
  exists r se', evaluate_segment se segment_type time segment_data segment_id
                  = (inr r, se')
                /\ well_formed_cache (bezier_calculator se').
Proof.
  intros Hwf. unfold evaluate_segment.
  destruct (Req_dec_T segment_type 0).
  { destruct segment_data as [|t0 [|v0 ?]]; eauto.
    destruct (Rle_dec time t0); eauto. }
  destruct (Req_dec_T segment_type 1); [|eauto].
  destruct segment_data as [|d0 [|d1 [|d2 [|d3 [|d4 [|d5 ?]]]]]]; eauto.
  destruct (Rge_dec time d0); [|eauto].
  destruct (Rle_dec time d4); [|eauto].
  destruct segment_id as [sid|]; [|eauto].
  destruct (String.eqb sid ""); [eauto|].
  set (t := if Rgt_dec d4 d0 then _ else _).
  destruct (curve_cache (bezier_calculator se) !! sid) as [c|] eqn:Hc.
  - destruct (evaluate_cached_well_formed _ sid c t Hwf Hc) as [v ->].
    cbn [Py.bind]. destruct se as [bc]. eauto.
  - destruct (create_curve_cache_well_formed (bezier_calculator se) sid d1 d3 d5 d1 Hwf)
      as (bc' & -> & Hwf' & Hc').
    destruct (evaluate_cached_well_formed _ sid _ t Hwf' Hc') as [v ->].
    cbn [Py.bind]. eauto.
Qed.

(** X12. A Bezier segment is evaluated with its start value as end value
    ([p3 = p0]): at its start time and at its end time [evaluate_segment]
    returns [segment_data[1]], both when it computes the point directly
    (no segment id) and when it caches the curve first (an id with no cached
    curve yet). *)
Theorem bezier_segment_ends_where_it_starts (se : SegmentEvaluator.t)
    (sid : string) (d0 d1 d2 d3 d4 d5 : R) (rest : list R) :
  d0 < d4 ->
  well_formed_cache (bezier_calculator se) ->
  sid <> "" ->
  let segment_data := d0 :: d1 :: d2 :: d3 :: d4 :: d5 :: rest in
  fst (evaluate_segment se 1 d0 segment_data None) = inr (Some d1)
  /\ fst (evaluate_segment se 1 d4 segment_data None) = inr (Some d1)
  /\ (curve_cache (bezier_calculator se) !! sid = None ->
      fst (evaluate_segment se 1 d0 segment_data (Some sid)) = inr (Some d1)
      /\ fst (evaluate_segment se 1 d4 segment_data (Some sid)) = inr (Some d1)).
Proof.
  intros Hlt Hwf Hsid segment_data. unfold segment_data, evaluate_segment.
  destruct (Req_dec_T 1 0) as [E|_]; [lra|].
  destruct (Req_dec_T 1 1) as [_|E]; [|lra].
  destruct (Rge_dec d0 d0) as [_|E]; [|lra].
  destruct (Rle_dec d0 d4) as [_|E]; [|lra].
  destruct (Rge_dec d4 d0) as [_|E]; [|lra].
  destruct (Rle_dec d4 d4) as [_|E]; [|lra].
  destruct (Rgt_dec d4 d0) as [_|E]; [|lra].
  assert (Hs : (d0 - d0) / (d4 - d0) = 0) by (unfold Rdiv; ring).
  assert (He : (d4 - d0) / (d4 - d0) = 1) by (field; lra).
  rewrite Hs, He.
  assert (Hf0 : calculate_point d1 d3 d5 d1 0 = d1) by (unfold calculate_point; ring).
  assert (Hf1 : calculate_point d1 d3 d5 d1 1 = d1) by (unfold calculate_point; ring).
  cbn [fst]. rewrite Hf0, Hf1. split; [reflexivity|]. split; [reflexivity|].
  intros Hc. destruct (String.eqb_spec sid "") as [E|_]; [contradiction|].
  rewrite Hc.
  destruct (create_curve_cache_well_formed (bezier_calculator se) sid d1 d3 d5 d1 Hwf)
    as (bc' & -> & _ & Hc').
  pose proof (proj1 Hwf) as HN.
  assert (HNR : 0 < IZR (precision (bezier_calculator se)))
    by (apply IZR_lt in HN; exact HN).
  split.
  - destruct (evaluate_cached_cases bc' sid _ d1 d3 d5 d1 0 HN Hc')
      as [[_ ->]|[[H1 _]|[(i & _ & _ & ->)|(r & [Hr0 _] & [Hlo _] & _)]]];
      cbn [Py.bind fst]; rewrite ?Hf0; try reflexivity; try lra.
    exfalso. apply IZR_le in Hr0.
    assert (0 <= IZR r / IZR (precision (bezier_calculator se)))
      by (apply div_nonneg; lra).
    lra.
  - destruct (evaluate_cached_cases bc' sid _ d1 d3 d5 d1 1 HN Hc')
      as [[H0 _]|[[_ ->]|[(i & _ & _ & ->)|(r & [Hr0 Hr1] & [_ Hhi] & _)]]];
      cbn [Py.bind fst]; rewrite ?Hf1; try reflexivity; try lra.
    exfalso.
    pose proof (sample_in_unit _ (r + 1) HN ltac:(lia)). lra.
Qed.

Lemma evaluator_init_well_formed :
  well_formed_cache (bezier_calculator SegmentEvaluator.init).
Proof.
  split; [reflexivity|]. intros sid c. cbn. rewrite lookup_empty. discriminate.
Qed.

Lemma bezier_segment_ends_where_it_starts_witness :
  fst (evaluate_segment SegmentEvaluator.init 1 0 [0; 10; 1/3; 20; 1; 30] None)
    = inr (Some 10)
  /\ fst (evaluate_segment SegmentEvaluator.init 1 1 [0; 10; 1/3; 20; 1; 30] None)
     = inr (Some 10)
  /\ (curve_cache (bezier_calculator SegmentEvaluator.init) !! "ParamAngleX_0" = None ->
      fst (evaluate_segment SegmentEvaluator.init 1 0 [0; 10; 1/3; 20; 1; 30]
             (Some "ParamAngleX_0")) = inr (Some 10)
      /\ fst (evaluate_segment SegmentEvaluator.init 1 1 [0; 10; 1/3; 20; 1; 30]
                (Some "ParamAngleX_0")) = inr (Some 10)).
Proof.
  apply (bezier_segment_ends_where_it_starts SegmentEvaluator.init "ParamAngleX_0"
           0 10 (1/3) 20 1 30 []).
  - lra.
  - exact evaluator_init_well_formed.
  - discriminate.
Defined.

End SegmentProperties.

Section CurveProperties.
Import BezierCalculator SegmentEvaluator MotionParser.

Lemma evaluate_one_well_formed (se : SegmentEvaluator.t) (cid : string)
    (segments : list R) (time segment_type : R) (i n : nat) (value : option R) :
  well_formed_cache (bezier_calculator se) ->
  exists value' se',
    evaluate_one se (Some cid) segments time segment_type i n value
      = Continue (i + n) value' se'
    /\ well_formed_cache (bezier_calculator se').
Proof.
  intros Hwf. unfold evaluate_one.
  destruct (evaluate_segment_well_formed se segment_type time
              (firstn n (skipn i segments))
              (Some (cid +:+ "_" +:+ pretty (Z.of_nat (i + n) - Z.of_nat n - 1)%Z))
              Hwf) as (r & se' & -> & Hwf').
  destruct r; eauto.
Qed.

Lemma loop_body_well_formed (se : SegmentEvaluator.t) (cid : string)
    (segments : list R) (time segment_type : R) (i : nat) (value : option R) :
  well_formed_cache (bezier_calculator se) ->
  exists i' value' se',
    loop_body se (Some cid) segments time segment_type i value
      = Continue i' value' se'
    /\ well_formed_cache (bezier_calculator se').
Proof.
  intros Hwf. unfold loop_body.
  destruct (Req_dec_T segment_type 0).
  { destruct (_ <? _)%nat; [|eauto].
    destruct (evaluate_one_well_formed se cid segments time segment_type (S i) 2 value Hwf)
      as (v' & se' & -> & Hwf'). eauto. }
  destruct (Req_dec_T segment_type 1); [|eauto].
  destruct (_ <? _)%nat; [|eauto].
  destruct (evaluate_one_well_formed se cid segments time segment_type (S i) 6 value Hwf)
    as (v' & se' & -> & Hwf'). eauto.
Qed.

Lemma segments_loop_well_formed (cid : string) (segments : list R) (time : R)
    (fuel : nat) :
  forall (se : SegmentEvaluator.t) (i : nat) (value : option R),
  well_formed_cache (bezier_calculator se) ->
  exists r se',
    segments_loop fuel se (Some cid) segments time i value = (inr r, se')
    /\ well_formed_cache (bezier_calculator se').
Proof.
  induction fuel as [|fuel IH]; intros se i value Hwf; cbn [segments_loop]; [eauto|].
  destruct (segments !! i) as [segment_type|]; [|eauto].
  destruct (loop_body_well_formed se cid segments time segment_type i value Hwf)
    as (i' & v' & se' & -> & Hwf').
  apply IH. exact Hwf'.
Qed.

(** X13. On a parser whose curve cache was filled by the evaluator itself
    (as it is from [MotionParser()] on), [evaluate_curve] returns a value
    for every curve that has an ["Id"], at every time, without raising; it
    leaves the motion cache alone and the curve cache as sound as it found
    it. A curve without segments evaluates to 0.0 and touches nothing. *)
Theorem evaluate_curve_never_raises (mp : MotionParser.t)
    (curve : MotionParser.curve) (cid : string) (time : R) :
  well_formed_cache (bezier_calculator (segment_evaluator mp)) ->
  Id curve = Some cid ->
  (exists v mp',
     evaluate_curve mp curve time = (inr v, mp')
     /\ well_formed_cache (bezier_calculator (segment_evaluator mp'))
     /\ motion_cache mp' = motion_cache mp)
  /\ (Segments curve = None \/ Segments curve = Some [] ->
      evaluate_curve mp curve time = (inr 0.0, mp)).
Proof.
  intros Hwf Hid. split.
  - unfold evaluate_curve. destruct (default [] (Segments curve)) as [|s0 rest] eqn:Hs.
    + eauto.
    + rewrite Hid.
      destruct (segments_loop_well_formed cid (s0 :: rest) time
                  (length (s0 :: rest)) (segment_evaluator mp) 0 None Hwf)
        as (r & se' & -> & Hwf').
      cbn [Py.bind]. eauto.
  - intros [Hs|Hs]; unfold evaluate_curve; rewrite Hs; reflexivity.
Qed.

Lemma init_well_formed :
  well_formed_cache (bezier_calculator (segment_evaluator MotionParser.init)).
Proof.
  split; [reflexivity|]. intros sid c. cbn. rewrite lookup_empty. discriminate.
Qed.

Lemma evaluate_curve_never_raises_witness :
  (exists v mp',
     evaluate_curve MotionParser.init
       (mkCurve (Some "Parameter") (Some "ParamAngleX")
                (Some [0; 0; 0; 1; 1/3; 0; 2/3; 30; 1; 30])) (1/2)
       = (inr v, mp')
     /\ well_formed_cache (bezier_calculator (segment_evaluator mp'))
     /\ motion_cache mp' = motion_cache MotionParser.init)
  /\ (Segments (mkCurve (Some "Parameter") (Some "ParamAngleX")
                  (Some [0; 0; 0; 1; 1/3; 0; 2/3; 30; 1; 30])) = None
      \/ Segments (mkCurve (Some "Parameter") (Some "ParamAngleX")
                     (Some [0; 0; 0; 1; 1/3; 0; 2/3; 30; 1; 30])) = Some [] ->
      evaluate_curve MotionParser.init
        (mkCurve (Some "Parameter") (Some "ParamAngleX")
                 (Some [0; 0; 0; 1; 1/3; 0; 2/3; 30; 1; 30])) (1/2)
        = (inr 0.0, MotionParser.init)).
Proof.
  apply (evaluate_curve_never_raises MotionParser.init _ "ParamAngleX" (1/2)).
  - exact init_well_formed.
  - reflexivity.
Defined.

End CurveProperties.

(** ** Paths and motion names *)

Section PathProperties.
Import OsPath.

Lemma list_ascii_app (a b : string) :
  list_ascii_of_string (a +:+ b) = list_ascii_of_string a ++ list_ascii_of_string b.
Proof.
  induction a as [|x a IH]; [reflexivity|].
  change (String x a +:+ b) with (String x (a +:+ b)).
  cbn [list_ascii_of_string app]. rewrite IH. reflexivity.
Qed.

Lemma list_ascii_rev_app (s acc : string) :
  list_ascii_of_string (String.rev_app s acc)
    = rev (list_ascii_of_string s) ++ list_ascii_of_string acc.
Proof.
  revert acc. induction s as [|x s IH]; intros acc; cbn; [reflexivity|].
  rewrite IH. cbn. rewrite <- app_assoc. reflexivity.
Qed.

Lemma rfind_succ_sep (c : ascii) (x y : list ascii) :
  rfind_succ c (x ++ c :: y) = (length x + S (rfind_succ c y))%nat.
Proof.
  induction x as [|a x IH]; cbn.
  - destruct (rfind_succ c y); [|reflexivity]. rewrite Ascii.eqb_refl. reflexivity.
  - rewrite IH. rewrite Nat.add_succ_r. reflexivity.
Qed.

Lemma rfind_succ_absent (c : ascii) (l : list ascii) :
  Forall (fun x => x <> c) l -> rfind_succ c l = 0%nat.
Proof.
  induction 1 as [|a l Ha _ IH]; cbn; [reflexivity|].
  rewrite IH. destruct (Ascii.eqb_spec a c); [contradiction|reflexivity].
Qed.

Lemma skipn_rfind_succ_sep (c : ascii) (x y : list ascii) :
  skipn (rfind_succ c (x ++ c :: y)) (x ++ c :: y) = skipn (rfind_succ c y) y.
Proof.
  rewrite rfind_succ_sep.
  replace (length x + S (rfind_succ c y))%nat
    with (length (x ++ [c]) + rfind_succ c y)%nat
    by (rewrite length_app; cbn; lia).
  change (x ++ c :: y) with (x ++ [c] ++ y). rewrite app_assoc.
  rewrite skipn_app. rewrite skipn_all2 by lia. cbn [app].
  f_equal. lia.
Qed.

Lemma endswith_sep (a : string) :
  endswith a "/" = true ->
  exists x, list_ascii_of_string a = x ++ ["/"%char].
Proof.
  unfold endswith, String.rev. intros H.
  pose proof (list_ascii_rev_app a "") as Hl. cbn in Hl. rewrite app_nil_r in Hl.
  change (String.rev_app "/" "") with "/" in H.
  destruct (String.rev_app a "") as [|c s] eqn:Hr; cbn [String.prefix] in H;
    [discriminate|].
  destruct (ascii_dec "/" c) as [<-|]; [|discriminate H].
  cbn in Hl. exists (rev (list_ascii_of_string s)).
  rewrite <- (rev_involutive (list_ascii_of_string a)), <- Hl. reflexivity.
Qed.

Lemma basename_join (a b : string) : basename (join a b) = basename b.
Proof.
  unfold join. destruct (String.prefix "/" b); [reflexivity|].
  destruct (String.eqb_spec a "") as [->|Ha]; [reflexivity|]. cbn [orb].
  unfold basename.
  destruct (endswith a "/") eqn:He.
  - rewrite list_ascii_app. destruct (endswith_sep a He) as [x ->].
    rewrite <- app_assoc. cbn [app]. rewrite skipn_rfind_succ_sep. reflexivity.
  - rewrite !list_ascii_app. cbn [list_ascii_of_string app].
    rewrite skipn_rfind_succ_sep. reflexivity.
Qed.

Lemma basename_plain (s : string) :
  Forall (fun x => x <> "/"%char) (list_ascii_of_string s) -> basename s = s.
Proof.
  intros H. unfold basename. rewrite rfind_succ_absent by exact H.
  cbn. apply string_of_list_ascii_of_string.
Qed.

Lemma splitext_root_motion3 (stem : string) :
  plain_name stem ->
  splitext_root (stem +:+ ".motion3.json") = stem +:+ ".motion3".
Proof.
  intros Hp. unfold splitext_root.
  set (l := list_ascii_of_string (stem +:+ ".motion3.json")).
  set (x := list_ascii_of_string (stem +:+ ".motion3")).
  assert (Hl : l = x ++ "."%char :: list_ascii_of_string "json").
  { unfold l, x. rewrite !list_ascii_app. rewrite <- app_assoc. reflexivity. }
  assert (Hx : x = list_ascii_of_string stem ++ list_ascii_of_string ".motion3").
  { unfold x. apply list_ascii_app. }
  assert (Hslash : rfind_succ "/" l = 0%nat).
  { apply rfind_succ_absent. rewrite Hl, Hx.
    apply Forall_app. split; [apply Forall_app; split|].
    - eapply Forall_impl; [exact Hp|]. cbn. tauto.
    - cbn. repeat constructor; discriminate.
    - cbn. repeat constructor; discriminate. }
  assert (Hdot : rfind_succ "." l = S (length x)).
  { rewrite Hl, rfind_succ_sep. cbn. lia. }
  rewrite Hslash, Hdot.
  replace (0 <? S (length x))%nat with true by (symmetry; apply Nat.ltb_lt; lia).
  cbn [skipn]. replace (S (length x) - 1 - 0)%nat with (length x) by lia.
  replace (S (length x) - 1)%nat with (length x) by lia.
  assert (Hfirst : firstn (length x) l = x).
  { rewrite Hl. rewrite firstn_app, firstn_all, Nat.sub_diag. cbn. apply app_nil_r. }
  assert (Hnd : forallb (fun c => Ascii.eqb c ".") x = false).
  { rewrite Hx, forallb_app. apply andb_false_iff. right. reflexivity. }
  change (drop 0 l) with l. rewrite Hfirst, Hnd. unfold x. apply string_of_list_ascii_of_string.
Qed.

End PathProperties.

(** ** Loading and starting motions *)

Section MotionLoading.
Import MotionParser.

Lemma idle_parse :
  parse_motion_file 1 idle_files MotionParser.init empty_heap idle_path
    = (Some idle_motion, idle_parser, idle_heap).
Proof. vm_compute. reflexivity. Qed.

(** X14. A motion that [parse_motion_file] returned is in the cache under
    its path: every later call with that path returns the same [Motion]
    without reading the file again (whatever the disk holds by then) and
    without allocating. A call that returns [None] leaves the parser and the
    store as they were. *)
Theorem parse_motion_file_answers_from_cache (memory : nat)
    (fs : gmap string file) (self self' : MotionParser.t) (h h' : heap)
    (motion_path : string) (r : option Motion) :
  parse_motion_file memory fs self h motion_path = (r, self', h') ->
  match r with
  | Some motion =>
      forall memory' fs' h'',
        parse_motion_file memory' fs' self' h'' motion_path
          = (Some motion, self', h'')
  | None => self' = self /\ h' = h
  end.
Proof.
  unfold parse_motion_file.
  destruct (motion_cache self !! motion_path) as [cached|] eqn:Hcache.
  - intros [= <- <- <-]. intros memory' fs' h''. rewrite Hcache. reflexivity.
  - unfold parse_and_cache.
    destruct (fs !! motion_path) as [[doc|v|]|]; try (intros [= <- <- <-]; auto).
    destruct (json_load doc h) as [motion_data h1].
    destruct (from_dict _ motion_data h1) as [motion0 h2].
    destruct (get_curves motion_data h2) as [curves h3].
    destruct (append_curves memory h3 curves _ 0) as [e|h4]; cbn [Py.bind];
      intros [= <- <- <-]; [auto|].
    intros memory' fs' h''. cbn [motion_cache].
    rewrite lookup_insert_eq. reflexivity.
Qed.

Lemma parse_motion_file_answers_from_cache_witness :
  parse_motion_file 0 ∅ idle_parser empty_heap idle_path
    = (Some idle_motion, idle_parser, empty_heap).
Proof.
  exact (parse_motion_file_answers_from_cache 1 idle_files MotionParser.init
           idle_parser empty_heap idle_heap idle_path (Some idle_motion) idle_parse
           0%nat ∅ empty_heap).
Defined.

End MotionLoading.

Section MotionStarting.
Import MotionManager.

Lemma idle_load :
  load_motion 1 idle_files (init ParameterManager.init) MotionParser.empty_heap idle_path
    = (Some "idle_01.motion3", idle_manager, idle_heap).
Proof. vm_compute. reflexivity. Qed.

Lemma load_motion_result (memory : nat) (fs : gmap string MotionParser.file)
    (mm mm' : MotionManager.t) (h h' : MotionParser.heap) (motion_path : string)
    (r : option string) :
  load_motion memory fs mm h motion_path = (r, mm', h') ->
  current_motion mm' = current_motion mm
  /\ fade_out_motion mm' = fade_out_motion mm
  /\ parameter_manager mm' = parameter_manager mm
  /\ match r with
     | Some motion_id =>
         motion_id = OsPath.splitext_root (OsPath.basename motion_path)
         /\ exists m, motions mm' = <[motion_id := MotionObject m]> (motions mm)
     | None => motions mm' = motions mm
     end.
Proof.
  unfold load_motion. destruct (fs !! motion_path); [|intros [= <- <- <-]; auto].
  destruct (MotionParser.parse_motion_file memory fs (motion_parser mm) h motion_path)
    as [[[motion|] mp] h1].
  - intros [= <- <- <-]. cbn. repeat split; eauto.
  - intros [= <- <- <-]. cbn. auto.
Qed.

(** X15. When [load_motion] returns an id, the id is the file name of the
    path without its last extension, the motion is stored under it as a
    [Motion] object ([has_motion] answers [True]) and every other entry of
    [motions] is as before; when it returns [None], [motions] is as before.
    The motion being played is not touched either way. *)
Theorem load_motion_registers_under_the_file_name (memory : nat)
    (fs : gmap string MotionParser.file) (mm mm' : MotionManager.t)
    (h h' : MotionParser.heap) (motion_path : string) (r : option string) :
  load_motion memory fs mm h motion_path = (r, mm', h') ->
  match r with
  | Some motion_id =>
      motion_id = OsPath.splitext_root (OsPath.basename motion_path)
      /\ has_motion mm' motion_id = true
      /\ (exists m, motions mm' !! motion_id = Some (MotionObject m))
      /\ (forall k, k <> motion_id -> motions mm' !! k = motions mm !! k)
  | None => motions mm' = motions mm
  end
  /\ current_motion mm' = current_motion mm.
Proof.
  intros H. destruct (load_motion_result _ _ _ _ _ _ _ _ H) as (Hc & _ & _ & Hr).
  split; [|exact Hc]. destruct r as [motion_id|]; [|exact Hr].
  destruct Hr as [Hid [m Hm]]. split; [exact Hid|]. rewrite Hm.
  split; [|split].
  - unfold has_motion. rewrite Hm, lookup_insert_eq. apply bool_decide_eq_true. eauto.
  - exists m. apply lookup_insert_eq.
  - intros k Hk. apply lookup_insert_ne. congruence.
Qed.

Lemma load_motion_registers_under_the_file_name_witness :
  ("idle_01.motion3" = OsPath.splitext_root (OsPath.basename idle_path)
   /\ has_motion idle_manager "idle_01.motion3" = true
   /\ (exists m, motions idle_manager !! "idle_01.motion3" = Some (MotionObject m))
   /\ (forall k, k <> "idle_01.motion3" ->
         motions idle_manager !! k = motions (init ParameterManager.init) !! k))
  /\ current_motion idle_manager = current_motion (init ParameterManager.init).
Proof.
  exact (load_motion_registers_under_the_file_name 1 idle_files
           (init ParameterManager.init) idle_manager MotionParser.empty_heap idle_heap
           idle_path (Some "idle_01.motion3") idle_load).
Defined.

Lemma string_length_app (a b : string) :
  String.length (a +:+ b) = (String.length a + String.length b)%nat.
Proof.
  induction a as [|x a IH]; [reflexivity|].
  change (String x a +:+ b) with (String x (a +:+ b)). cbn. rewrite IH. reflexivity.
Qed.

Lemma plain_name_no_slash (s : string) :
  plain_name s -> Forall (fun x => x <> "/"%char) (list_ascii_of_string s).
Proof. intros H. eapply Forall_impl; [exact H|]. cbn. tauto. Qed.

(** X16. Only the last extension is cut from the file name: loading
    [<dir>/<stem>.motion3.json] into a manager without motions registers
    the motion as [<stem>.motion3], so [has_motion(<stem>)] is [False]
    afterwards. *)
Theorem motion3_files_keep_a_suffix_in_their_name (memory : nat)
    (fs : gmap string MotionParser.file) (mm mm' : MotionManager.t)
    (h h' : MotionParser.heap) (motion_dir stem motion_id : string) :
  plain_name stem ->
  motions mm = ∅ ->
  load_motion memory fs mm h (OsPath.join motion_dir (stem +:+ ".motion3.json"))
    = (Some motion_id, mm', h') ->
  motion_id = stem +:+ ".motion3"
  /\ has_motion mm' (stem +:+ ".motion3") = true
  /\ has_motion mm' stem = false.
Proof.
  intros Hp Hempty H.
  destruct (load_motion_result _ _ _ _ _ _ _ _ H) as (_ & _ & _ & Hid & m & Hm).
  rewrite basename_join in Hid.
  rewrite basename_plain in Hid.
  2:{ rewrite list_ascii_app. apply Forall_app. split.
      - apply plain_name_no_slash. exact Hp.
      - cbn. repeat constructor; discriminate. }
  rewrite (splitext_root_motion3 stem Hp) in Hid. subst motion_id.
  split; [reflexivity|]. unfold has_motion. rewrite Hm, Hempty. split.
  - rewrite lookup_insert_eq. apply bool_decide_eq_true. eauto.
  - apply bool_decide_eq_false. intros [o Ho].
    rewrite lookup_insert_ne, lookup_empty in Ho; [discriminate|].
    intros Heq. apply (f_equal String.length) in Heq.
    rewrite string_length_app in Heq. cbn in Heq. lia.
Qed.

Lemma motion3_files_keep_a_suffix_in_their_name_witness :
  "idle_01.motion3" = "idle_01" +:+ ".motion3"
  /\ has_motion idle_manager ("idle_01" +:+ ".motion3") = true
  /\ has_motion idle_manager "idle_01" = false.
Proof.
  apply (motion3_files_keep_a_suffix_in_their_name 1 idle_files
           (init ParameterManager.init) idle_manager MotionParser.empty_heap idle_heap
           "motions" "idle_01" "idle_01.motion3").
  - unfold plain_name. cbn. repeat constructor; discriminate.
  - reflexivity.
  - exact idle_load.
Defined.


Lemma play_motion_on_loaded_objects (mm : MotionManager.t) (motion_name : string)
    (m : MotionParser.Motion) (loop : option bool) (fade_in_time : option R) :
  loaded_objects mm ->
  motions mm !! motion_name = Some (MotionObject m) ->
  exists mm',
    play_motion mm motion_name loop fade_in_time = (mm', inr true)
    /\ current_motion mm'
       = Some {| name := motion_name; time := 0.0;
                 loop := default (MotionParser.loop m) loop;
                 fade_in_time := default (MotionParser.fade_in_time m) fade_in_time |}
    /\ motions mm' = motions mm
    /\ parameter_manager mm' = parameter_manager mm.
Proof.
  intros [Hobj Hcur] Hm. unfold play_motion. rewrite Hm.
  assert (Hl : match loop with Some b => inr b | None => attr_loop (MotionObject m) end
               = inr (default (MotionParser.loop m) loop)) by (destruct loop; reflexivity).
  assert (Hf : match fade_in_time with
               | Some x => inr x
               | None => attr_fade_in_time (MotionObject m)
               end = inr (default (MotionParser.fade_in_time m) fade_in_time))
    by (destruct fade_in_time; reflexivity).
  rewrite Hl, Hf. cbn [Py.bind].
  destruct (current_motion mm) as [cm|] eqn:Hcm.
  - destruct (Hcur cm eq_refl) as [o Ho]. rewrite Ho.
    destruct (Hobj _ _ Ho) as [m0 ->]. cbn. eexists. repeat split.
  - cbn. eexists. repeat split.
Qed.

Lemma reachable_manager_loaded_objects (mm : MotionManager.t) :
  reachable_manager mm -> loaded_objects mm.
Proof.
  induction 1 as [pm|memory fs mm mm' h h' path r _ IH Hload
                  |mm motion_name loop fade _ IH|mm h dt _ IH|mm pm _ IH].
  - split; cbn.
    + intros k o. rewrite lookup_empty. discriminate.
    + discriminate.
  - destruct IH as [Hobj Hcur].
    destruct (load_motion_result _ _ _ _ _ _ _ _ Hload) as (Hc & _ & _ & Hr).
    destruct r as [motion_id|].
    + destruct Hr as [_ [m Hm]]. split.
      * intros k o. rewrite Hm. destruct (decide (k = motion_id)) as [->|Hne].
        -- rewrite lookup_insert_eq. intros [= <-]. eauto.
        -- rewrite lookup_insert_ne by congruence. apply Hobj.
      * intros cm. rewrite Hc, Hm. intros Hcm.
        destruct (decide (name cm = motion_id)) as [->|Hne].
        -- rewrite lookup_insert_eq. eauto.
        -- rewrite lookup_insert_ne by congruence. apply Hcur. exact Hcm.
    + split.
      * rewrite Hr. exact Hobj.
      * rewrite Hc, Hr. exact Hcur.
  - destruct (motions mm !! motion_name) as [o|] eqn:Ho.
    + destruct (proj1 IH _ _ Ho) as [m ->].
      destruct (play_motion_on_loaded_objects mm motion_name m loop fade IH Ho)
        as (mm' & -> & Hcm & Hms & _).
      cbn [fst]. split.
      * rewrite Hms. apply IH.
      * rewrite Hcm, Hms. intros cm [= <-]. cbn. eauto.
    + unfold play_motion. rewrite Ho. exact IH.
  - unfold update. destruct (current_motion mm) as [cm|] eqn:Hcm; [|exact IH].
    destruct IH as [Hobj Hcur]. destruct (Hcur cm Hcm) as [o Ho].
    destruct (Hobj _ _ Ho) as [m ->].
    cbn [with_current with_current_time motions name].
    rewrite Ho. cbn [meta_duration Py.state_of]. split; cbn.
    + exact Hobj.
    + intros cm' [= <-]. cbn. eauto.
  - exact IH.
Qed.

(** X17. In every state a manager reaches through [load_motion],
    [play_motion] and [update], [play_motion] on a name [has_motion] accepts
    returns [True] without raising: the motion becomes the current one at
    time 0.0, and neither [motions] nor the parameter store changes. *)
Theorem play_motion_starts_any_loaded_motion (mm : MotionManager.t)
    (motion_name : string) (loop : option bool) (fade_in_time : option R) :
  reachable_manager mm ->
  has_motion mm motion_name = true ->
  exists mm' cm,
    play_motion mm motion_name loop fade_in_time = (mm', inr true)
    /\ current_motion mm' = Some cm
    /\ name cm = motion_name /\ time cm = 0.0
    /\ motions mm' = motions mm
    /\ parameter_manager mm' = parameter_manager mm.
Proof.
  intros Hr Hhas. pose proof (reachable_manager_loaded_objects mm Hr) as Hinv.
  unfold has_motion in Hhas. apply bool_decide_eq_true in Hhas as [o Ho].
  destruct (proj1 Hinv _ _ Ho) as [m ->].
  destruct (play_motion_on_loaded_objects mm motion_name m loop fade_in_time Hinv Ho)
    as (mm' & Hplay & Hcm & Hms & Hpm).
  eexists _, _. split; [exact Hplay|]. split; [exact Hcm|]. cbn. auto.
Qed.

Lemma idle_manager_reachable : reachable_manager idle_manager.
Proof.
  apply (reach_manager_load 1 idle_files (init ParameterManager.init) idle_manager
           MotionParser.empty_heap idle_heap idle_path (Some "idle_01.motion3")).
  - apply reach_manager_init.
  - exact idle_load.
Qed.

Lemma play_motion_starts_any_loaded_motion_witness :
  exists mm' cm,
    play_motion idle_manager "idle_01.motion3" None (Some 0.5) = (mm', inr true)
    /\ current_motion mm' = Some cm
    /\ name cm = "idle_01.motion3" /\ time cm = 0.0
    /\ motions mm' = motions idle_manager
    /\ parameter_manager mm' = parameter_manager idle_manager.
Proof.
  apply (play_motion_starts_any_loaded_motion idle_manager "idle_01.motion3"
           None (Some 0.5)).
  - exact idle_manager_reachable.
  - vm_compute. reflexivity.
Defined.

End MotionStarting.

Section PetMotions.
Import MotionManager.

(** X18. [PetManager.play_motion] computes the motion name from the
    configured file name exactly as [load_motion] computed the id from the
    path: after [load_motion(join(motion_dir, file))] returned an id,
    [play_motion(type)] for a type configured as [file] starts that very
    motion, whatever [motion_dir] is. *)
Theorem pet_play_motion_finds_what_load_motion_stored
    (config_manager : ConfigManager.t) (table : gmap string string)
    (motion_type motion_dir motion_file motion_id : string)
    (memory : nat) (fs : gmap string MotionParser.file)
    (mm mm' : MotionManager.t) (h h' : MotionParser.heap) :
  ConfigManager.config config_manager !! "motions"
    = Some (ConfigManager.Motions table) ->
  table !! motion_type = Some motion_file ->
  motion_file <> "" ->
  reachable_manager mm ->
  load_motion memory fs mm h (OsPath.join motion_dir motion_file)
    = (Some motion_id, mm', h') ->
  motion_id = OsPath.splitext_root (OsPath.basename motion_file)
  /\ exists mm'' cm,
       PetManager.play_motion config_manager mm' motion_type = (mm'', inr tt)
       /\ current_motion mm'' = Some cm
       /\ name cm = motion_id /\ time cm = 0.0.
Proof.
  intros Hcfg Htable Hfile Hr Hload.
  assert (Hr' : reachable_manager mm') by (eapply reach_manager_load; eassumption).
  destruct (load_motion_result _ _ _ _ _ _ _ _ Hload) as (_ & _ & _ & Hid & m & Hm).
  rewrite basename_join in Hid. split; [exact Hid|].
  assert (Hstored : motions mm' !! motion_id = Some (MotionObject m))
    by (rewrite Hm; apply lookup_insert_eq).
  destruct (play_motion_on_loaded_objects mm' motion_id m None None
              (reachable_manager_loaded_objects mm' Hr') Hstored)
    as (mm'' & Hplay & Hcm & _).
  eexists mm'', _. unfold PetManager.play_motion, ConfigManager.get.
  rewrite Hcfg, Htable. cbn [default from_option Datatypes.id].
  destruct (String.eqb_spec motion_file "") as [E|_]; [contradiction|].
  rewrite <- Hid, Hplay. cbn [Py.bind]. split; [reflexivity|].
  split; [exact Hcm|]. split; reflexivity.
Qed.

Lemma pet_play_motion_finds_what_load_motion_stored_witness :
  "idle_01.motion3" = OsPath.splitext_root (OsPath.basename "idle_01.motion3.json")
  /\ exists mm'' cm,
       PetManager.play_motion default_configuration idle_manager "idle" = (mm'', inr tt)
       /\ current_motion mm'' = Some cm
       /\ name cm = "idle_01.motion3" /\ time cm = 0.0.
Proof.
  apply (pet_play_motion_finds_what_load_motion_stored default_configuration
           (list_to_map [("idle", "idle_01.motion3.json");
                         ("idle2", "idle_02.motion3.json");
                         ("talk", "m_01.motion3.json");
                         ("expression", "m_02.motion3.json")])
           "idle" "motions" "idle_01.motion3.json" "idle_01.motion3"
           1 idle_files (init ParameterManager.init) idle_manager
           MotionParser.empty_heap idle_heap).
  - vm_compute. reflexivity.
  - vm_compute. reflexivity.
  - discriminate.
  - apply reach_manager_init.
  - exact idle_load.
Defined.

End PetMotions.

(** ** Physics: what a step keeps *)

Section PhysicsFrame.
Import Physics.

Lemma same_body_refl (p : PhysicsPoint) : same_body p p.
Proof. repeat split. Qed.

Lemma same_body_trans (p q r : PhysicsPoint) :
  same_body p q -> same_body q r -> same_body p r.
Proof.
  intros (Hm1 & Hf1 & He1) (Hm2 & Hf2 & He2). repeat split; try congruence.
  intros Hf. rewrite He2, He1; congruence.
Qed.

Lemma same_bodies_refl (pts : list PhysicsPoint) : same_bodies pts pts.
Proof. split; [reflexivity|]. intros j p Hj. exists p. split; [exact Hj|apply same_body_refl]. Qed.

Lemma same_bodies_trans (a b c : list PhysicsPoint) :
  same_bodies a b -> same_bodies b c -> same_bodies a c.
Proof.
  intros [Hl1 H1] [Hl2 H2]. split; [congruence|].
  intros j p Hj. destruct (H1 j p Hj) as (q & Hq & Hpq).
  destruct (H2 j q Hq) as (r & Hr & Hqr). exists r. split; [exact Hr|].
  eapply same_body_trans; eassumption.
Qed.

Lemma same_bodies_map (f : PhysicsPoint -> PhysicsPoint) (pts : list PhysicsPoint) :
  (forall p, same_body p (f p)) -> same_bodies pts (map f pts).
Proof.
  intros Hf. split; [apply length_map|].
  intros j p Hj. exists (f p). split; [|apply Hf].
  change (map f pts) with (f <$> pts). rewrite list_lookup_fmap, Hj. reflexivity.
Qed.

Lemma same_bodies_insert (pts : list PhysicsPoint) (i : nat) (q q' : PhysicsPoint) :
  pts !! i = Some q -> same_body q q' -> same_bodies pts (<[i := q']> pts).
Proof.
  intros Hi Hq. split; [apply length_insert|].
  intros j p Hj. destruct (decide (i = j)) as [->|Hne].
  - exists q'. rewrite Hi in Hj. injection Hj as <-. split; [|exact Hq].
    apply list_lookup_insert_eq. apply lookup_lt_Some in Hi. exact Hi.
  - exists p. rewrite list_lookup_insert_ne by exact Hne.
    split; [exact Hj|apply same_body_refl].
Qed.

Lemma apply_forces_same_body (gravity : vec2) (air_resistance input_value dt : R)
    (p : PhysicsPoint) :
  same_body p (apply_forces_to_point gravity air_resistance input_value dt p).
Proof.
  unfold apply_forces_to_point. destruct (fixed p) eqn:Hf; [apply same_body_refl|].
  repeat split; cbn; congruence.
Qed.

Lemma update_point_same_body (dt : R) (p : PhysicsPoint) :
  same_body p (update_point dt p).
Proof.
  unfold update_point. destruct (fixed p) eqn:Hf; [apply same_body_refl|].
  repeat split; cbn; congruence.
Qed.

Lemma solve_spring_same_bodies (pts pts' : list PhysicsPoint) (spring : PhysicsSpring) :
  solve_spring pts spring = inr pts' -> same_bodies pts pts'.
Proof.
  unfold solve_spring.
  destruct (_ || _)%bool; [intros [= <-]; apply same_bodies_refl|].
  destruct (Py.index_of (length pts) (point1_idx spring)) as [e|i1] eqn:Hi1;
    [discriminate|]. cbn [Py.bind].
  destruct (Py.getitem pts (point1_idx spring)) as [e|point1] eqn:Hg1;
    [discriminate|]. cbn [Py.bind].
  destruct (Py.index_of (length pts) (point2_idx spring)) as [e|i2] eqn:Hi2;
    [discriminate|]. cbn [Py.bind].
  destruct (Py.getitem pts (point2_idx spring)) as [e|point2] eqn:Hg2;
    [discriminate|]. cbn [Py.bind].
  destruct (Rlt_dec _ _); [intros [= <-]; apply same_bodies_refl|].
  destruct (rest_length spring) as [rest|]; [|discriminate].
  intros [= <-].
  pose proof (getitem_lookup _ _ _ _ Hi1 Hg1) as Hp1.
  set (correction := vscale _ (stiffness spring)).
  set (pts1 := if fixed point1 then pts else _).
  assert (H1 : same_bodies pts pts1).
  { unfold pts1. destruct (fixed point1) eqn:Hf1; [apply same_bodies_refl|].
    apply same_bodies_insert with point1; [exact Hp1|].
    repeat split; cbn; congruence. }
  destruct (fixed point2) eqn:Hf2; [exact H1|].
  destruct (pts1 !! i2) as [q|] eqn:Hq; [|exact H1].
  eapply same_bodies_trans; [exact H1|].
  apply same_bodies_insert with q; [exact Hq|].
  assert (Hfq : fixed q = false).
  { pose proof (getitem_lookup _ _ _ _ Hi2 Hg2) as Hp2.
    destruct H1 as [_ H1]. destruct (H1 i2 point2 Hp2) as (q' & Hq' & _ & Hfq & _).
    rewrite Hq in Hq'. injection Hq' as <-. congruence. }
  repeat split; cbn; congruence.
Qed.

Lemma solve_springs_same_bodies (sprs : list PhysicsSpring) :
  forall pts, same_bodies pts (Py.state_of (solve_springs pts sprs)).
Proof.
  induction sprs as [|spring rest IH]; intros pts; cbn [solve_springs].
  - apply same_bodies_refl.
  - destruct (solve_spring pts spring) as [e|pts'] eqn:Hs; cbn.
    + apply same_bodies_refl.
    + eapply same_bodies_trans; [|apply IH].
      eapply solve_spring_same_bodies. exact Hs.
Qed.

Lemma relax_same_bodies (sprs : list PhysicsSpring) (n : nat) :
  forall pts, same_bodies pts (Py.state_of (relax n pts sprs)).
Proof.
  induction n as [|n IH]; intros pts; cbn [relax].
  - apply same_bodies_refl.
  - pose proof (solve_springs_same_bodies sprs pts) as Hstep.
    destruct (solve_springs pts sprs) as [pts'|e pts']; cbn in *.
    + eapply same_bodies_trans; [exact Hstep|apply IH].
    + exact Hstep.
Qed.

Lemma update_group_same_frame (sys : PhysicsSystem) (dt : R)
    (pm : ParameterManager.t) (group : PhysicsGroup) :
  same_frame group (snd (Py.state_of (update_group sys dt pm group))).
Proof.
  unfold update_group.
  set (g1 := apply_external_forces sys group _ dt).
  set (g2 := update_points g1 dt).
  assert (H2 : same_bodies (points group) (points g2)).
  { eapply same_bodies_trans; [apply same_bodies_map; intros; apply apply_forces_same_body|].
    apply same_bodies_map. intros. apply update_point_same_body. }
  unfold solve_constraints.
  pose proof (relax_same_bodies (springs g2) 3 (points g2)) as H3.
  destruct (relax 3 (points g2) (springs g2)) as [pts|e pts]; cbn in *;
    (repeat split; try reflexivity;
     [eapply eq_trans; [apply H3|apply H2]
     |intros j p Hj; eapply same_bodies_trans; [exact H2|exact H3|exact Hj] ]).
Qed.


Lemma same_frame_refl (g : PhysicsGroup) : same_frame g g.
Proof. repeat split. intros j p Hj. exists p. split; [exact Hj|apply same_body_refl]. Qed.

Lemma update_groups_same_frame (sys : PhysicsSystem) (dt : R)
    (todo : list PhysicsGroup) :
  forall (pm : ParameterManager.t) (done0 done : list PhysicsGroup),
  Forall2 same_frame done0 done ->
  let sys' := Py.state_of (update_groups sys dt pm done todo) in
  Forall2 same_frame (done0 ++ todo) (groups sys')
  /\ gravity sys' = gravity sys
  /\ air_resistance sys' = air_resistance sys
  /\ last_update_time sys' = last_update_time sys.
Proof.
  induction todo as [|group rest IH]; intros pm done0 done Hdone; cbn [update_groups].
  - cbn. rewrite app_nil_r. auto.
  - pose proof (update_group_same_frame sys dt pm group) as Hg.
    destruct (update_group sys dt pm group) as [[pm' g']|e [pm' g']]; cbn in Hg.
    + replace (done0 ++ group :: rest) with ((done0 ++ [group]) ++ rest)
        by (rewrite <- app_assoc; reflexivity).
      apply IH. apply Forall2_app; [exact Hdone|]. constructor; [exact Hg|constructor].
    + cbn. repeat split. apply Forall2_app; [exact Hdone|].
      constructor; [exact Hg|]. clear. induction rest; constructor; auto.
      apply same_frame_refl.
Qed.

(** X19. [PhysicsSystem.update] changes positions and velocities only:
    whether it returns or raises, the system has the same groups in the
    same order, each with its id, its parameters, its springs and as many
    points as before, every point has kept its mass and its [fixed] flag, a
    fixed point is unchanged in every field, and gravity, air resistance
    and [last_update_time] are as they were. *)
Theorem update_keeps_the_shape_of_the_system (sys : PhysicsSystem) (delta_time : R) :
  let sys' := Py.state_of (update sys delta_time) in
  Forall2 same_frame (groups sys) (groups sys')
  /\ gravity sys' = gravity sys
  /\ air_resistance sys' = air_resistance sys
  /\ last_update_time sys' = last_update_time sys.
Proof.
  unfold update.
  exact (update_groups_same_frame sys (clamped_delta_time delta_time) (groups sys)
           (parameter_manager sys) [] [] (List.Forall2_nil _)).
Qed.

End PhysicsFrame.

Section PhysicsSprings.
Import Physics.

Lemma index_of_in_range (n : nat) (i : Z) :
  (- Z.of_nat n <= i < Z.of_nat n)%Z ->
  exists j, Py.index_of n i = inr j /\ (j < n)%nat.
Proof.
  intros Hi. unfold Py.index_of.
  destruct (Z.ltb_spec i 0).
  - replace (i + Z.of_nat n <? 0)%Z with false by (symmetry; apply Z.ltb_ge; lia).
    replace (Z.of_nat n <=? i + Z.of_nat n)%Z with false
      by (symmetry; apply Z.leb_gt; lia).
    cbn. eexists. split; [reflexivity|]. lia.
  - replace (i <? 0)%Z with false by (symmetry; apply Z.ltb_ge; lia).
    replace (Z.of_nat n <=? i)%Z with false by (symmetry; apply Z.leb_gt; lia).
    cbn. eexists. split; [reflexivity|]. lia.
Qed.

Lemma getitem_in_range {A : Type} (l : list A) (i : Z) :
  (- Z.of_nat (length l) <= i < Z.of_nat (length l))%Z ->
  exists j x, Py.index_of (length l) i = inr j /\ l !! j = Some x
              /\ Py.getitem l i = inr x.
Proof.
  intros Hi. destruct (index_of_in_range _ _ Hi) as (j & Hj & Hlt).
  destruct (lookup_lt_is_Some_2 l j Hlt) as [x Hx].
  exists j, x. split; [exact Hj|]. split; [exact Hx|].
  unfold Py.getitem. rewrite Hj. cbn. rewrite nth_error_lookup_eq, Hx. reflexivity.
Qed.

(** X20. [add_spring] without a length, between two points the group
    has (indices from [-n] to [n - 1]), stores the current distance of the
    two points as rest length, so the spring is at rest: a pass of
    [solve_constraints] over it right away moves no point. *)
Theorem a_spring_added_without_length_is_at_rest (group : PhysicsGroup)
    (point1_idx point2_idx : Z) (stiffness : R) :
  (- Z.of_nat (length (points group)) <= point1_idx < Z.of_nat (length (points group)))%Z ->
  (- Z.of_nat (length (points group)) <= point2_idx < Z.of_nat (length (points group)))%Z ->
  exists point1 point2 spring,
    Py.getitem (points group) point1_idx = inr point1
    /\ Py.getitem (points group) point2_idx = inr point2
    /\ spring = mkPhysicsSpring point1_idx point2_idx
                  (Some (norm (vsub (position point2) (position point1)))) stiffness
    /\ add_spring group point1_idx point2_idx None stiffness
       = inr {| id := id group; influence_parameter := influence_parameter group;
                input_parameter := input_parameter group; points := points group;
                springs := springs group ++ [spring] |}
    /\ solve_spring (points group) spring = inr (points group).
Proof.
  intros H1 H2.
  destruct (getitem_in_range (points group) point1_idx H1) as (j1 & p1 & Hj1 & Hp1 & Hg1).
  destruct (getitem_in_range (points group) point2_idx H2) as (j2 & p2 & Hj2 & Hp2 & Hg2).
  exists p1, p2. eexists. split; [exact Hg1|]. split; [exact Hg2|].
  split; [reflexivity|]. split.
  - unfold add_spring.
    replace (point1_idx <? Z.of_nat (length (points group)))%Z with true
      by (symmetry; apply Z.ltb_lt; lia).
    replace (point2_idx <? Z.of_nat (length (points group)))%Z with true
      by (symmetry; apply Z.ltb_lt; lia).
    cbn [andb]. rewrite Hg1, Hg2. reflexivity.
  - unfold solve_spring.
    cbn [Physics.point1_idx Physics.point2_idx Physics.rest_length Physics.stiffness].
    replace (Z.of_nat (length (points group)) <=? point1_idx)%Z with false
      by (symmetry; apply Z.leb_gt; lia).
    replace (Z.of_nat (length (points group)) <=? point2_idx)%Z with false
      by (symmetry; apply Z.leb_gt; lia).
    cbn [orb]. rewrite Hj1, Hg1, Hj2, Hg2. cbn [Py.bind].
    destruct (Rlt_dec _ _); [reflexivity|].
    set (d := norm (vsub (position p2) (position p1))).
    set (delta := vsub (position p2) (position p1)).
    assert (Hc : vscale (vscale (vscale delta ((d - d) / d)) 0.5) stiffness = (0, 0)).
    { unfold vscale. cbn [fst snd]. f_equal; unfold Rdiv; ring. }
    rewrite Hc.
    assert (Hsame1 : with_position p1 (vsub (position p1) (0, 0)) = p1).
    { destruct p1 as [[x y] ? ? ? ?]. unfold with_position, vsub. cbn.
      f_equal. f_equal; ring. }
    rewrite Hsame1.
    assert (Hpts1 : (if fixed p1 then points group else <[j1 := p1]> (points group))
                    = points group).
    { destruct (fixed p1); [reflexivity|]. apply list_insert_id. exact Hp1. }
    rewrite Hpts1. rewrite Hp2.
    assert (Hsame2 : with_position p2 (vadd (position p2) (0, 0)) = p2).
    { destruct p2 as [[x y] ? ? ? ?]. unfold with_position, vadd. cbn.
      f_equal. f_equal; ring. }
    rewrite Hsame2.
    destruct (fixed p2); [reflexivity|]. rewrite list_insert_id by exact Hp2.
    reflexivity.
Qed.

Lemma a_spring_added_without_length_is_at_rest_witness :
  exists point1 point2 spring,
    Py.getitem (points hair_chain) 0 = inr point1
    /\ Py.getitem (points hair_chain) (-1) = inr point2
    /\ spring = mkPhysicsSpring 0 (-1)
                  (Some (norm (vsub (position point2) (position point1)))) 1
    /\ add_spring hair_chain 0 (-1) None 1
       = inr {| id := id hair_chain;
                influence_parameter := influence_parameter hair_chain;
                input_parameter := input_parameter hair_chain;
                points := points hair_chain;
                springs := springs hair_chain ++ [spring] |}
    /\ solve_spring (points hair_chain) spring = inr (points hair_chain).
Proof.
  apply (a_spring_added_without_length_is_at_rest hair_chain 0 (-1) 1); cbn; lia.
Defined.

Lemma solve_spring_ok (pts : list PhysicsPoint) (spring : PhysicsSpring) :
  spring_ok (length pts) spring ->
  exists pts', solve_spring pts spring = inr pts' /\ length pts' = length pts.
Proof.
  intros (H1 & H2 & [rest Hrest]). unfold solve_spring.
  destruct (Z.leb_spec (Z.of_nat (length pts)) (point1_idx spring)); [eauto|].
  destruct (Z.leb_spec (Z.of_nat (length pts)) (point2_idx spring)); [eauto|].
  cbn [orb].
  destruct (getitem_in_range pts (point1_idx spring) ltac:(lia)) as (j1 & p1 & Hj1 & Hp1 & Hg1).
  destruct (getitem_in_range pts (point2_idx spring) ltac:(lia)) as (j2 & p2 & Hj2 & Hp2 & Hg2).
  rewrite Hj1, Hg1, Hj2, Hg2. cbn [Py.bind].
  destruct (Rlt_dec _ _); [eauto|]. rewrite Hrest.
  eexists. split; [reflexivity|].
  pose proof (solve_spring_fixed pts) as Hlen.
  match goal with |- length ?r = _ =>
    assert (Hs : solve_spring pts spring = inr r) end.
  { unfold solve_spring.
    replace (Z.of_nat (length pts) <=? point1_idx spring)%Z with false
      by (symmetry; apply Z.leb_gt; lia).
    replace (Z.of_nat (length pts) <=? point2_idx spring)%Z with false
      by (symmetry; apply Z.leb_gt; lia).
    cbn [orb]. rewrite Hj1, Hg1, Hj2, Hg2. cbn [Py.bind].
    destruct (Rlt_dec _ _); [contradiction|]. rewrite Hrest. reflexivity. }
  apply (Hlen _ _ Hs).
Qed.

Lemma solve_springs_ok (sprs : list PhysicsSpring) :
  forall pts, Forall (spring_ok (length pts)) sprs ->
  exists pts', solve_springs pts sprs = Py.Normal pts' /\ length pts' = length pts.
Proof.
  induction sprs as [|spring rest IH]; intros pts Hok; cbn [solve_springs]; [eauto|].
  apply Forall_cons in Hok as [Hs Hrest].
  destruct (solve_spring_ok pts spring Hs) as (pts1 & -> & Hlen1).
  destruct (IH pts1) as (pts2 & -> & Hlen2); [rewrite Hlen1; exact Hrest|].
  exists pts2. split; [reflexivity|congruence].
Qed.

Lemma relax_ok (sprs : list PhysicsSpring) (n : nat) :
  forall pts, Forall (spring_ok (length pts)) sprs ->
  exists pts', relax n pts sprs = Py.Normal pts' /\ length pts' = length pts.
Proof.
  induction n as [|n IH]; intros pts Hok; cbn [relax]; [eauto|].
  destruct (solve_springs_ok sprs pts Hok) as (pts1 & -> & Hlen1). cbn [Py.and_then].
  destruct (IH pts1) as (pts2 & -> & Hlen2); [rewrite Hlen1; exact Hok|].
  exists pts2. split; [reflexivity|congruence].
Qed.

Lemma update_group_ok (sys : PhysicsSystem) (dt : R) (pm : ParameterManager.t)
    (group : PhysicsGroup) :
  Forall (spring_ok (length (points group))) (springs group) ->
  exists pm' g', update_group sys dt pm group = Py.Normal (pm', g').
Proof.
  intros Hok. unfold update_group, solve_constraints.
  set (g2 := update_points _ dt).
  assert (Hlen : length (points g2) = length (points group)).
  { unfold g2, update_points, apply_external_forces. cbn. rewrite !length_map. reflexivity. }
  destruct (relax_ok (springs g2) 3 (points g2)) as (pts & -> & _).
  { rewrite Hlen. exact Hok. }
  eauto.
Qed.

(** X21. [update] returns normally when, in every group, each spring has
    a rest length and no index below [-len(points)]; an index at or beyond
    [len(points)] is harmless, the spring being skipped. *)
Theorem update_returns_when_every_spring_has_a_length (sys : PhysicsSystem)
    (delta_time : R) :
  Forall (fun g => Forall (spring_ok (length (points g))) (springs g)) (groups sys) ->
  exists sys', update sys delta_time = Py.Normal sys'.
Proof.
  unfold update. generalize (clamped_delta_time delta_time) as dt.
  generalize (parameter_manager sys) as pm. generalize (@nil PhysicsGroup) as done.
  induction (groups sys) as [|group rest IH]; intros done pm dt Hok; cbn [update_groups].
  - eauto.
  - apply Forall_cons in Hok as [Hg Hrest].
    destruct (update_group_ok sys dt pm group Hg) as (pm' & g' & ->).
    apply IH. exact Hrest.
Qed.

Lemma update_returns_when_every_spring_has_a_length_witness :
  exists sys', update hair_system (1 / 60) = Py.Normal sys'.
Proof.
  apply (update_returns_when_every_spring_has_a_length hair_system (1 / 60)).
  repeat constructor; cbn; try lia; eauto.
Defined.

End PhysicsSprings.

(** ** Physics: chains hanging straight *)

Section PhysicsUpright.
Import Physics.

Lemma apply_forces_upright (gravity : vec2) (air_resistance dt x0 : R)
    (p : PhysicsPoint) :
  fst gravity = 0 -> upright x0 p ->
  upright x0 (apply_forces_to_point gravity air_resistance 0 dt p).
Proof.
  intros Hg (Hp & Hq & Hv). unfold apply_forces_to_point.
  destruct (fixed p); [repeat split; assumption|].
  repeat split; cbn; try assumption. rewrite Hv, Hg. ring.
Qed.

Lemma update_point_upright (dt x0 : R) (p : PhysicsPoint) :
  upright x0 p -> upright x0 (update_point dt p).
Proof.
  intros (Hp & Hq & Hv). unfold update_point.
  destruct (fixed p); [repeat split; assumption|].
  repeat split; cbn.
  - rewrite Hp, Hq, Hv. ring.
  - exact Hp.
  - rewrite Hp, Hq, Hv. unfold Rdiv. ring.
Qed.

Lemma solve_spring_upright (x0 : R) (pts pts' : list PhysicsPoint)
    (spring : PhysicsSpring) :
  solve_spring pts spring = inr pts' ->
  Forall (upright x0) pts -> Forall (upright x0) pts'.
Proof.
  unfold solve_spring. intros Hs Hup.
  destruct (_ || _)%bool; [injection Hs as <-; exact Hup|].
  destruct (Py.index_of (length pts) (point1_idx spring)) as [e|i1] eqn:Hi1;
    [discriminate|]. cbn [Py.bind] in Hs.
  destruct (Py.getitem pts (point1_idx spring)) as [e|point1] eqn:Hg1;
    [discriminate|]. cbn [Py.bind] in Hs.
  destruct (Py.index_of (length pts) (point2_idx spring)) as [e|i2] eqn:Hi2;
    [discriminate|]. cbn [Py.bind] in Hs.
  destruct (Py.getitem pts (point2_idx spring)) as [e|point2] eqn:Hg2;
    [discriminate|]. cbn [Py.bind] in Hs.
  destruct (Rlt_dec _ _); [injection Hs as <-; exact Hup|].
  destruct (rest_length spring) as [rest|]; [|discriminate].
  injection Hs as <-.
  pose proof (getitem_lookup _ _ _ _ Hi1 Hg1) as Hp1.
  pose proof (getitem_lookup _ _ _ _ Hi2 Hg2) as Hp2.
  pose proof (proj1 (Forall_lookup _ _) Hup _ _ Hp1) as (H1p & H1q & H1v).
  pose proof (proj1 (Forall_lookup _ _) Hup _ _ Hp2) as (H2p & H2q & H2v).
  set (correction := vscale _ (stiffness spring)).
  assert (Hc : fst correction = 0).
  { unfold correction, vscale, vsub. cbn [fst snd]. rewrite H1p, H2p. ring. }
  clearbody correction.
  set (pts1 := if fixed point1 then pts else _).
  assert (Hup1 : Forall (upright x0) pts1).
  { unfold pts1. destruct (fixed point1); [exact Hup|].
    apply Forall_insert; [exact Hup|].
    repeat split; cbn; try assumption. rewrite H1p, Hc. ring. }
  destruct (fixed point2); [exact Hup1|].
  destruct (pts1 !! i2) as [q|] eqn:Hq; [|exact Hup1].
  pose proof (proj1 (Forall_lookup _ _) Hup1 _ _ Hq) as (Hqp & Hqq & Hqv).
  apply Forall_insert; [exact Hup1|].
  repeat split; cbn; try assumption. rewrite Hqp, Hc. ring.
Qed.

Lemma solve_springs_upright (x0 : R) (sprs : list PhysicsSpring) :
  forall pts, Forall (upright x0) pts ->
  Forall (upright x0) (Py.state_of (solve_springs pts sprs)).
Proof.
  induction sprs as [|spring rest IH]; intros pts Hup; cbn [solve_springs]; [exact Hup|].
  destruct (solve_spring pts spring) as [e|pts'] eqn:Hs; cbn; [exact Hup|].
  apply IH. eapply solve_spring_upright; eassumption.
Qed.

Lemma relax_upright (x0 : R) (sprs : list PhysicsSpring) (n : nat) :
  forall pts, Forall (upright x0) pts ->
  Forall (upright x0) (Py.state_of (relax n pts sprs)).
Proof.
  induction n as [|n IH]; intros pts Hup; cbn [relax]; [exact Hup|].
  pose proof (solve_springs_upright x0 sprs pts Hup) as Hstep.
  destruct (solve_springs pts sprs) as [pts'|e pts']; cbn in *; [apply IH|]; exact Hstep.
Qed.

Lemma calculate_result_upright (x0 : R) (group : PhysicsGroup) :
  Forall (upright x0) (points group) -> calculate_result group = 0.
Proof.
  intros Hup. unfold calculate_result.
  destruct (points group) as [|start_point rest] eqn:Hpts; [lra|].
  destruct (last (start_point :: rest)) as [end_point|] eqn:Hlast; [|lra].
  apply last_Some in Hlast as [front Hfront].
  assert (He : upright x0 end_point).
  { rewrite Hfront in Hup. apply Forall_app in Hup as [_ Hup].
    apply Forall_cons in Hup as [He _]. exact He. }
  apply Forall_cons in Hup as [(Hs & _) _]. destruct He as (He & _).
  rewrite Hs, He. lra.
Qed.

Lemma update_group_upright (sys : PhysicsSystem) (dt : R) (pm : ParameterManager.t)
    (group : PhysicsGroup) (x0 : R) :
  fst (gravity sys) = 0 ->
  ParameterManager.get_parameter pm (input_parameter group) 0.0 = 0 ->
  Forall (upright x0) (points group) ->
  let o := update_group sys dt pm group in
  Forall (upright x0) (points (snd (Py.state_of o)))
  /\ calculate_result (snd (Py.state_of o)) = 0
  /\ (fst (Py.state_of o) = pm
      \/ fst (Py.state_of o)
         = ParameterManager.set_parameter pm (influence_parameter group) 0).
Proof.
  intros Hg Hin Hup. unfold update_group. rewrite Hin.
  set (g1 := apply_external_forces sys group 0 dt).
  set (g2 := update_points g1 dt).
  assert (H2 : Forall (upright x0) (points g2)).
  { unfold g2, update_points, g1, apply_external_forces. cbn [points with_points].
    change (map ?f ?l) with (f <$> l). rewrite !Forall_fmap.
    eapply Forall_impl; [exact Hup|]. intros p Hp. cbn.
    apply update_point_upright, apply_forces_upright; assumption. }
  unfold solve_constraints.
  pose proof (relax_upright x0 (springs g2) 3 (points g2) H2) as H3.
  destruct (relax 3 (points g2) (springs g2)) as [pts|e pts]; cbn in *.
  - split; [exact H3|].
    assert (Hr : calculate_result (with_points g2 pts) = 0)
      by (apply (calculate_result_upright x0); exact H3).
    split; [exact Hr|]. right. rewrite Hr. reflexivity.
  - split; [exact H3|]. split; [|left; reflexivity].
    apply (calculate_result_upright x0). exact H3.
Qed.


Lemma update_groups_upright (sys : PhysicsSystem) (dt : R) (todo : list PhysicsGroup) :
  fst (gravity sys) = 0 ->
  forall (pm : ParameterManager.t) (done : list PhysicsGroup),
  (forall g, g ∈ done -> exists x0, Forall (upright x0) (points g)) ->
  (forall g, g ∈ todo -> exists x0, Forall (upright x0) (points g)) ->
  (forall g, g ∈ todo ->
     ParameterManager.get_parameter pm (input_parameter g) 0.0 = 0) ->
  (forall g g', g ∈ todo -> g' ∈ todo -> input_parameter g <> influence_parameter g') ->
  forall g', g' ∈ groups (Py.state_of (update_groups sys dt pm done todo)) ->
  exists x0, Forall (upright x0) (points g').
Proof.
  intros Hg. induction todo as [|group rest IH]; intros pm done Hdone Hup Hin Hne;
    cbn [update_groups].
  - cbn. exact Hdone.
  - destruct (Hup group ltac:(apply elem_of_cons; auto)) as [x0 Hx0].
    pose proof (update_group_upright sys dt pm group x0 Hg
                  (Hin group ltac:(apply elem_of_cons; auto)) Hx0) as (Hu & _ & Hpm).
    destruct (update_group sys dt pm group) as [[pm' g1]|e [pm' g1]]; cbn in Hu, Hpm.
    + apply IH.
      * intros g Hgd. apply elem_of_app in Hgd as [Hgd|Hgd]; [apply Hdone; exact Hgd|].
        apply list_elem_of_singleton in Hgd as ->. eauto.
      * intros g Hgr. apply Hup. apply elem_of_cons. auto.
      * intros g Hgr.
        destruct Hpm as [->| ->]; [apply Hin; apply elem_of_cons; auto|].
        unfold ParameterManager.get_parameter.
        destruct (set_parameter_other pm (influence_parameter group)
                    (input_parameter g) 0) as [-> _].
        { apply Hne; apply elem_of_cons; auto. }
        apply (Hin g). apply elem_of_cons. auto.
      * intros g g' Hgr Hgr'. apply Hne; apply elem_of_cons; auto.
    + cbn. intros g' Hg'. apply elem_of_app in Hg' as [Hg'|Hg']; [apply Hdone; exact Hg'|].
      apply elem_of_cons in Hg' as [->|Hg']; [eauto|].
      apply Hup. apply elem_of_cons. auto.
Qed.

(** X22. With a vertical gravity, groups whose points lie on a vertical
    line with no sideways velocity, and input parameters that read 0 and are
    no group's output, [update] (for a time step other than 0, where the
    velocity would be 0 / 0) leaves every group on its vertical line with no
    sideways velocity, and the value it computes for the output parameter of
    each group is 0. *)
Theorem upright_chains_without_input_stay_upright (sys : PhysicsSystem)
    (delta_time : R) :
  fst (gravity sys) = 0 ->
  delta_time <> 0 ->
  (forall g, g ∈ groups sys -> exists x0, Forall (upright x0) (points g)) ->
  (forall g, g ∈ groups sys ->
     ParameterManager.get_parameter (parameter_manager sys) (input_parameter g) 0.0 = 0) ->
  (forall g g', g ∈ groups sys -> g' ∈ groups sys ->
     input_parameter g <> influence_parameter g') ->
  forall g', g' ∈ groups (Py.state_of (update sys delta_time)) ->
  (exists x0, Forall (upright x0) (points g')) /\ calculate_result g' = 0.
Proof.
  intros Hg _ Hup Hin Hne g' Hg'.
  destruct (update_groups_upright sys (clamped_delta_time delta_time) (groups sys) Hg
              (parameter_manager sys) []
              ltac:(intros g H; apply elem_of_nil in H; contradiction)
              Hup Hin Hne g' Hg') as [x0 Hx0].
  split; [eauto|]. apply (calculate_result_upright x0). exact Hx0.
Qed.

Lemma upright_chains_without_input_stay_upright_witness :
  Forall (fun g' => (exists x0, Forall (upright x0) (points g'))
                    /\ calculate_result g' = 0)
         (groups (Py.state_of (update hair_system (1 / 60)))).
Proof.
  apply Forall_forall. intros g' Hg'.
  apply (upright_chains_without_input_stay_upright hair_system (1 / 60)).
  - reflexivity.
  - lra.
  - intros g Hg. apply list_elem_of_singleton in Hg as ->. exists 0.
    repeat constructor.
  - intros g Hg. apply list_elem_of_singleton in Hg as ->.
    unfold ParameterManager.get_parameter. cbn. rewrite lookup_empty. lra.
  - intros g g0 Hg Hg0. apply list_elem_of_singleton in Hg as ->.
    apply list_elem_of_singleton in Hg0 as ->. discriminate.
  - exact Hg'.
Defined.

End PhysicsUpright.

Section PetPhysics.
Import Physics.

Lemma norm_vertical (y : R) : 0 <= y -> norm (0.0 - 0.0, - y) = y.
Proof.
  intros Hy. unfold norm. cbn [fst snd].
  replace ((0.0 - 0.0) * (0.0 - 0.0) + - y * - y) with (y * y) by lra.
  apply sqrt_square. exact Hy.
Qed.

(** X23. [PetManager.setup_physics] never raises and appends one group,
    ["hair"], driving PARAM_HAIR_FRONT from PARAM_ANGLE_X: three points of
    mass 1 at heights 0, -5 and -10, the top one fixed, joined by two
    springs of stiffness 0.8 and 0.7 whose rest lengths are the distances
    of the points, 5 and 5; the chain hangs on the line [x = 0] and none of
    its springs can make [update] raise. *)
Theorem setup_physics_hangs_a_chain_of_three_points (sys : PhysicsSystem) :
  exists hair length1 length2,
    PetManager.setup_physics sys = inr (with_groups sys (groups sys ++ [hair]))
    /\ id hair = "hair"
    /\ influence_parameter hair = "PARAM_HAIR_FRONT"
    /\ input_parameter hair = "PARAM_ANGLE_X"
    /\ points hair = [new_point 0.0 0.0 1.0 true;
                      new_point 0.0 (-5.0) 1.0 false;
                      new_point 0.0 (-10.0) 1.0 false]
    /\ springs hair = [mkPhysicsSpring 0 1 (Some length1) 0.8;
                       mkPhysicsSpring 1 2 (Some length2) 0.7]
    /\ length1 = 5 /\ length2 = 5
    /\ Forall (upright 0) (points hair)
    /\ Forall (spring_ok (length (points hair))) (springs hair).
Proof.
  exists {| id := "hair"; influence_parameter := "PARAM_HAIR_FRONT";
            input_parameter := "PARAM_ANGLE_X";
            points := [new_point 0.0 0.0 1.0 true;
                       new_point 0.0 (-5.0) 1.0 false;
                       new_point 0.0 (-10.0) 1.0 false];
            springs :=
              [mkPhysicsSpring 0 1
                 (Some (norm (vsub (0.0, -5.0) (0.0, 0.0)))) 0.8;
               mkPhysicsSpring 1 2
                 (Some (norm (vsub (0.0, -10.0) (0.0, -5.0)))) 0.7] |}.
  exists (norm (vsub (0.0, -5.0) (0.0, 0.0))).
  exists (norm (vsub (0.0, -10.0) (0.0, -5.0))).
  split.
  - unfold PetManager.setup_physics, create_group. cbn [with_groups groups].
    rewrite lookup_app_r by lia. rewrite Nat.sub_diag.
    cbn [lookup list_lookup default from_option Datatypes.id].
    match goal with |- _ = inr (with_groups _ (_ ++ [?hair])) =>
      transitivity
        (@inr Py.exn _
           (with_groups
              (with_groups sys
                 (groups sys ++ [new_group "hair" "PARAM_HAIR_FRONT" "PARAM_ANGLE_X"]))
              (<[length (groups sys) := hair]>
                 (groups sys ++ [new_group "hair" "PARAM_HAIR_FRONT" "PARAM_ANGLE_X"]))))
    end; [reflexivity|].
    rewrite insert_app_r_alt by lia. rewrite Nat.sub_diag. reflexivity.
  - cbn [id influence_parameter input_parameter points springs].
    repeat (split; [reflexivity|]).
    assert (H1 : norm (vsub (0.0, -5.0) (0.0, 0.0)) = 5).
    { unfold vsub. cbn [fst snd]. replace (-5.0 - 0.0) with (- 5) by lra.
      apply norm_vertical. lra. }
    assert (H2 : norm (vsub (0.0, -10.0) (0.0, -5.0)) = 5).
    { unfold vsub. cbn [fst snd]. replace (-10.0 - -5.0) with (- 5) by lra.
      apply norm_vertical. lra. }
    split; [exact H1|]. split; [exact H2|]. split.
    + repeat constructor; cbn; lra.
    + repeat constructor; cbn; try lia; eauto.
Qed.

End PetPhysics.

(** ** Dicts in insertion order *)

Section DictProperties.
Context {V : Type}.
Implicit Types (d : list (string * V)) (k : string) (v : V).

Lemma dict_get_set_eq d k v : Py.dict_get (Py.dict_set d k v) k = Some v.
Proof.
  induction d as [|[k' v'] d IH]; cbn.
  - rewrite String.eqb_refl. reflexivity.
  - destruct (String.eqb_spec k' k) as [->|Hne]; cbn.
    + rewrite String.eqb_refl. reflexivity.
    + destruct (String.eqb_spec k' k); [contradiction|]. exact IH.
Qed.

Lemma dict_get_set_ne d k k' v :
  k' <> k -> Py.dict_get (Py.dict_set d k v) k' = Py.dict_get d k'.
Proof.
  intros Hne. induction d as [|[k0 v0] d IH]; cbn.
  - destruct (String.eqb_spec k k'); [congruence|reflexivity].
  - destruct (String.eqb_spec k0 k) as [->|Hk]; cbn.
    + destruct (String.eqb_spec k k'); [congruence|reflexivity].
    + destruct (String.eqb_spec k0 k'); [reflexivity|exact IH].
Qed.

Lemma dict_get_None d k : Py.dict_get d k = None <-> k ∉ d.*1.
Proof.
  induction d as [|[k' v'] d IH]; cbn.
  - split; [intros _; apply not_elem_of_nil|reflexivity].
  - destruct (String.eqb_spec k' k) as [->|Hne].
    + split; [discriminate|]. intros H. exfalso. apply H. apply elem_of_cons. auto.
    + rewrite IH. rewrite not_elem_of_cons. split; [intros; split; congruence|tauto].
Qed.

Lemma dict_get_Some_elem d k v : Py.dict_get d k = Some v -> (k, v) ∈ d.
Proof.
  induction d as [|[k' v'] d IH]; cbn; [discriminate|].
  destruct (String.eqb_spec k' k) as [->|Hne].
  - intros [= ->]. apply elem_of_cons. auto.
  - intros H. apply elem_of_cons. right. apply IH. exact H.
Qed.

Lemma dict_get_elem d k v : NoDup d.*1 -> (k, v) ∈ d -> Py.dict_get d k = Some v.
Proof.
  induction d as [|[k' v'] d IH]; cbn; intros Hnd Hin.
  - apply elem_of_nil in Hin. contradiction.
  - apply NoDup_cons in Hnd as [Hk Hnd].
    apply elem_of_cons in Hin as [[= <- <-]|Hin].
    + rewrite String.eqb_refl. reflexivity.
    + destruct (String.eqb_spec k' k) as [->|Hne].
      * exfalso. apply Hk. apply list_elem_of_fmap. exists (k, v). auto.
      * apply IH; assumption.
Qed.

Lemma keys_dict_set d k v :
  (Py.dict_set d k v).*1
    = match Py.dict_get d k with
      | Some _ => d.*1
      | None => d.*1 ++ [k]
      end.
Proof.
  induction d as [|[k' v'] d IH]; cbn; [reflexivity|].
  destruct (String.eqb_spec k' k) as [->|Hne]; cbn; [reflexivity|].
  rewrite IH. destruct (Py.dict_get d k); reflexivity.
Qed.

Lemma NoDup_dict_set d k v : NoDup d.*1 -> NoDup (Py.dict_set d k v).*1.
Proof.
  intros Hnd. rewrite keys_dict_set.
  destruct (Py.dict_get d k) eqn:Hg; [exact Hnd|].
  apply dict_get_None in Hg. apply NoDup_app. split; [exact Hnd|].
  split; [|apply NoDup_singleton].
  intros x Hx Hx'. apply list_elem_of_singleton in Hx' as ->. contradiction.
Qed.

Lemma length_dict_set d k v :
  (length (Py.dict_set d k v) <= S (length d))%nat.
Proof.
  rewrite <- (length_fmap fst (Py.dict_set d k v)), keys_dict_set.
  destruct (Py.dict_get d k); rewrite ?length_app, length_fmap; cbn; lia.
Qed.

Lemma keys_dict_del d k :
  (Py.dict_del d k).*1 = List.filter (fun x => negb (String.eqb x k)) d.*1.
Proof.
  unfold Py.dict_del. induction d as [|[k' v'] d IH]; cbn; [reflexivity|].
  destruct (String.eqb k' k); cbn; rewrite IH; reflexivity.
Qed.

Lemma length_dict_del d k : (length (Py.dict_del d k) <= length d)%nat.
Proof. unfold Py.dict_del. apply List.filter_length_le. Qed.

Lemma length_dict_del_present d k x :
  Py.dict_get d k = Some x -> (length (Py.dict_del d k) < length d)%nat.
Proof.
  unfold Py.dict_del. induction d as [|[k' v'] d IH]; cbn; [discriminate|].
  destruct (String.eqb k' k); cbn.
  - intros _. pose proof (List.filter_length_le (fun kv => negb (String.eqb kv.1 k)) d).
    lia.
  - intros H. specialize (IH H). lia.
Qed.

Lemma NoDup_dict_del d k : NoDup d.*1 -> NoDup (Py.dict_del d k).*1.
Proof.
  rewrite keys_dict_del. intros H. induction H as [|x l Hx Hl IH]; cbn; [constructor|].
  destruct (negb (String.eqb x k)); [|exact IH].
  constructor; [|exact IH]. intros Hin. apply Hx.
  apply list_elem_of_In in Hin. apply List.filter_In in Hin as [Hin _].
  apply list_elem_of_In. exact Hin.
Qed.

End DictProperties.

(** ** The texture cache *)

Section TextureProperties.
Import TextureManager.

Lemma clean_least_used_textures_ind (P : TextureManager.t -> Prop)
    (tm : TextureManager.t) :
  P tm ->
  (forall acc k x, P acc -> Py.dict_get (textures acc) k = Some x ->
     P {| textures := Py.dict_del (textures acc) k; quality := quality acc;
          max_textures := max_textures acc;
          texture_usage := Py.dict_del (texture_usage acc) k;
          next_id := next_id acc |}) ->
  P (clean_least_used_textures tm).
Proof.
  intros H0 Hstep. unfold clean_least_used_textures.
  destruct (textures tm) eqn:Ht; [exact H0|]. clear Ht.
  generalize (firstn (Z.to_nat (Z.max 1 (Z.of_nat (length (Py.sorted snd (texture_usage tm))) / 10)))
                (Py.sorted snd (texture_usage tm))).
  intros todo. revert H0. generalize tm. clear tm.
  induction todo as [|kv todo IH]; intros acc Hacc; cbn [fold_left]; [exact Hacc|].
  apply IH. destruct (Py.dict_get (textures acc) kv.1) eqn:Hg; [|exact Hacc].
  eapply Hstep; eassumption.
Qed.

Lemma clean_least_used_textures_fields (tm : TextureManager.t) :
  quality (clean_least_used_textures tm) = quality tm
  /\ max_textures (clean_least_used_textures tm) = max_textures tm
  /\ next_id (clean_least_used_textures tm) = next_id tm.
Proof.
  apply (clean_least_used_textures_ind
           (fun acc => quality acc = quality tm
                       /\ max_textures acc = max_textures tm
                       /\ next_id acc = next_id tm)); [auto|].
  intros acc k x H _. exact H.
Qed.

(** X24. A texture [load_texture] returned is cached under the path and
    the current quality: the next [load_texture] of the path (the file
    still existing) returns the same texture without decoding the image or
    taking a new GL name, and adds 1 to the usage count of the entry. *)
Theorem load_texture_answers_from_the_cache (w w' : world) (tm tm1 : TextureManager.t)
    (path : string) (force_reload : bool) (tex : Texture) :
  load_texture w tm path force_reload = (Some tex, tm1) ->
  file_exists w' path = true ->
  exists n,
    Py.dict_get (texture_usage tm1) (path +:+ "_" +:+ quality tm1) = Some n
    /\ load_texture w' tm1 path false
       = (Some tex,
          {| textures := textures tm1; quality := quality tm1;
             max_textures := max_textures tm1;
             texture_usage :=
               Py.dict_set (texture_usage tm1) (path +:+ "_" +:+ quality tm1) (n + 1)%Z;
             next_id := next_id tm1 |}).
Proof.
  intros Hload Hex'.
  assert (Hshape : path <> ""
                   /\ exists n,
                        Py.dict_get (textures tm1) (path +:+ "_" +:+ quality tm1) = Some tex
                        /\ Py.dict_get (texture_usage tm1) (path +:+ "_" +:+ quality tm1)
                           = Some n).
  { unfold load_texture in Hload.
    destruct (String.eqb_spec path "") as [->|Hp]; [discriminate|]. split; [exact Hp|].
    cbn [orb] in Hload. destruct (negb (file_exists w path)); [discriminate|].
    destruct (if force_reload then None
              else Py.dict_get (textures tm) (path +:+ "_" +:+ quality tm))
      as [texture|] eqn:Hhit.
    - injection Hload as <- <-. cbn [textures quality texture_usage].
      eexists. split; [|apply dict_get_set_eq].
      destruct force_reload; [discriminate|exact Hhit].
    - set (self1 := if (max_textures tm <=? _)%Z then _ else tm) in *.
      assert (Hq : quality self1 = quality tm).
      { unfold self1. destruct (_ <=? _)%Z; [|reflexivity].
        apply clean_least_used_textures_fields. }
      destruct (image_size w path) as [[iw ih]|]; [|discriminate].
      destruct (if String.eqb (quality self1) "medium" then _ else _) as [width height].
      injection Hload as <- <-. cbn [textures quality texture_usage]. rewrite Hq.
      exists 1%Z. split; apply dict_get_set_eq. }
  destruct Hshape as (Hp & n & Ht & Hu). exists n. split; [exact Hu|].
  unfold load_texture.
  destruct (String.eqb_spec path "") as [E|_]; [contradiction|].
  rewrite Hex'. cbn [orb negb]. rewrite Ht, Hu. reflexivity.
Qed.


Lemma clean_least_used_textures_in_step (tm : TextureManager.t) :
  max_textures tm = 50%Z /\ (textures tm).*1 = (texture_usage tm).*1
  /\ NoDup (textures tm).*1 ->
  max_textures (clean_least_used_textures tm) = 50%Z
  /\ (textures (clean_least_used_textures tm)).*1
     = (texture_usage (clean_least_used_textures tm)).*1
  /\ NoDup (textures (clean_least_used_textures tm)).*1.
Proof.
  intros H. apply (clean_least_used_textures_ind
                     (fun acc => max_textures acc = 50%Z
                                 /\ (textures acc).*1 = (texture_usage acc).*1
                                 /\ NoDup (textures acc).*1)); [exact H|].
  intros acc k x (Hm & Hk & Hnd) _. cbn. split; [exact Hm|]. split.
  - rewrite !keys_dict_del, Hk. reflexivity.
  - apply NoDup_dict_del. exact Hnd.
Qed.

Lemma clean_fold_length (todo : list (string * Z)) :
  forall acc : TextureManager.t,
  (length (textures
     (fold_left
        (fun acc kv =>
           match Py.dict_get (textures acc) (fst kv) with
           | Some _ =>
               {| textures := Py.dict_del (textures acc) (fst kv);
                  quality := quality acc; max_textures := max_textures acc;
                  texture_usage := Py.dict_del (texture_usage acc) (fst kv);
                  next_id := next_id acc |}
           | None => acc
           end)
        todo acc))
   <= length (textures acc))%nat.
Proof.
  induction todo as [|kv todo IH]; intros acc; cbn [fold_left]; [lia|].
  etransitivity; [apply IH|].
  destruct (Py.dict_get (textures acc) kv.1); [|lia].
  cbn. apply length_dict_del.
Qed.

Lemma clean_least_used_textures_frees_a_slot (tm : TextureManager.t) :
  (textures tm).*1 = (texture_usage tm).*1 ->
  textures tm <> [] ->
  (length (textures (clean_least_used_textures tm)) < length (textures tm))%nat.
Proof.
  intros Hk Hne. unfold clean_least_used_textures.
  destruct (textures tm) as [|t0 ts] eqn:Ht; [contradiction|].
  rewrite <- Ht in Hk |- *.
  pose proof (sorted_permutation snd (texture_usage tm)) as Hperm.
  destruct (Py.sorted snd (texture_usage tm)) as [|h rest] eqn:Hs.
  { apply Permutation_nil in Hperm. rewrite Hperm, Ht in Hk. discriminate. }
  assert (Hn : exists n, Z.to_nat (Z.max 1 (Z.of_nat (length (h :: rest)) / 10)) = S n).
  { exists (Z.to_nat (Z.max 1 (Z.of_nat (length (h :: rest)) / 10)) - 1)%nat. lia. }
  destruct Hn as [n ->]. cbn [firstn fold_left].
  assert (Hin : h.1 ∈ (textures tm).*1).
  { rewrite Hk. apply list_elem_of_fmap. exists h. split; [reflexivity|].
    rewrite <- Hperm. apply elem_of_cons. auto. }
  destruct (Py.dict_get (textures tm) h.1) as [x|] eqn:Hg.
  - eapply Nat.le_lt_trans; [apply clean_fold_length|]. cbn.
    eapply length_dict_del_present. exact Hg.
  - apply dict_get_None in Hg. contradiction.
Qed.

Lemma load_texture_in_step (w : world) (tm : TextureManager.t) (path : string)
    (force_reload : bool) :
  cache_in_step tm -> cache_in_step (snd (load_texture w tm path force_reload)).
Proof.
  intros (Hm & Hk & Hnd & Hlen). unfold load_texture.
  destruct (_ || _)%bool; [unfold cache_in_step; cbn [snd]; repeat split; assumption|].
  set (cache_key := path +:+ "_" +:+ quality tm).
  destruct (if force_reload then None else Py.dict_get (textures tm) cache_key)
    as [texture|] eqn:Hhit.
  - unfold cache_in_step. cbn [snd textures texture_usage max_textures].
    repeat split; try assumption.
    rewrite keys_dict_set.
    assert (Hin : Py.dict_get (texture_usage tm) cache_key <> None).
    { rewrite dict_get_None, <- Hk, <- dict_get_None.
      destruct force_reload; [discriminate|]. congruence. }
    destruct (Py.dict_get (texture_usage tm) cache_key); [exact Hk|contradiction].
  - set (self1 := if (max_textures tm <=? _)%Z then _ else tm).
    assert (H1 : max_textures self1 = 50%Z
                 /\ (textures self1).*1 = (texture_usage self1).*1
                 /\ NoDup (textures self1).*1
                 /\ (length (textures self1) < 50)%nat).
    { unfold self1. rewrite Hm.
      destruct (Z.leb_spec 50 (Z.of_nat (length (textures tm)))) as [Hfull|Hroom].
      - destruct (clean_least_used_textures_in_step tm) as (Hm' & Hk' & Hnd'); [auto|].
        repeat split; try assumption.
        eapply Nat.lt_le_trans; [apply clean_least_used_textures_frees_a_slot|exact Hlen].
        + exact Hk.
        + intros E. rewrite E in Hfull. cbn in Hfull. lia.
      - repeat split; try assumption. lia. }
    clearbody self1. destruct H1 as (Hm1 & Hk1 & Hnd1 & Hlen1).
    destruct (image_size w path) as [[iw ih]|];
      [|unfold cache_in_step; cbn [snd]; repeat split; try assumption; lia].
    destruct (if String.eqb (quality self1) "medium" then _ else _) as [width height].
    unfold cache_in_step. cbn [snd textures texture_usage max_textures].
    split; [exact Hm1|]. split; [|split].
    + rewrite !keys_dict_set.
      destruct (Py.dict_get (textures self1) cache_key) eqn:Hg.
      * assert (Hin : Py.dict_get (texture_usage self1) cache_key <> None).
        { rewrite dict_get_None, <- Hk1, <- dict_get_None. congruence. }
        destruct (Py.dict_get (texture_usage self1) cache_key); [exact Hk1|contradiction].
      * assert (Hout : Py.dict_get (texture_usage self1) cache_key = None).
        { rewrite dict_get_None, <- Hk1, <- dict_get_None. exact Hg. }
        rewrite Hout, Hk1. reflexivity.
    + apply NoDup_dict_set. exact Hnd1.
    + pose proof (length_dict_set (textures self1) cache_key
                    {| id := next_id self1; width := width; height := height |}).
      lia.
Qed.

(** X25. Whatever sequence of [load_texture], [set_quality] and
    [clear_cache] a new texture manager goes through, its cache never holds
    more than [max_textures] = 50 textures, and the cache and the usage
    counts keep the same keys, each once: a full cache loses at least its
    least used entry before a new texture is added. *)
Theorem the_texture_cache_stays_within_its_limit (tm : TextureManager.t) :
  reachable_textures tm ->
  (length (textures tm) <= 50)%nat
  /\ (textures tm).*1 = (texture_usage tm).*1
  /\ NoDup (textures tm).*1.
Proof.
  intros Hr. enough (H : cache_in_step tm) by (destruct H as (_ & ? & ? & ?); auto).
  induction Hr as [|w tm path force_reload _ IH|tm q _ IH|tm _ IH].
  - repeat split; cbn; try lia. constructor.
  - apply load_texture_in_step. exact IH.
  - unfold set_quality. destruct (_ && _)%bool; [|exact IH].
    destruct IH as (Hm & _). repeat split; cbn; try assumption; try lia. constructor.
  - destruct IH as (Hm & _). repeat split; cbn; try assumption; try lia. constructor.
Qed.

Lemma the_texture_cache_stays_within_its_limit_witness :
  (length (textures
     (snd (load_texture
             {| file_exists := fun _ => true; image_size := fun _ => Some (64, 64)%Z |}
             (set_quality TextureManager.init "low") "face.png" false))) <= 50)%nat
  /\ (textures
        (snd (load_texture
                {| file_exists := fun _ => true; image_size := fun _ => Some (64, 64)%Z |}
                (set_quality TextureManager.init "low") "face.png" false))).*1
     = (texture_usage
          (snd (load_texture
                  {| file_exists := fun _ => true; image_size := fun _ => Some (64, 64)%Z |}
                  (set_quality TextureManager.init "low") "face.png" false))).*1
  /\ NoDup (textures
              (snd (load_texture
                      {| file_exists := fun _ => true;
                         image_size := fun _ => Some (64, 64)%Z |}
                      (set_quality TextureManager.init "low") "face.png" false))).*1.
Proof.
  apply the_texture_cache_stays_within_its_limit.
  apply reach_textures_load, reach_textures_quality, reach_textures_init.
Defined.

Lemma load_texture_answers_from_the_cache_witness :
  exists n,
    Py.dict_get
      (texture_usage
         (snd (load_texture
                 {| file_exists := fun _ => true;
                    image_size := fun _ => Some (64, 64)%Z |}
                 TextureManager.init "face.png" false)))
      ("face.png" +:+ "_" +:+ "high") = Some n
    /\ load_texture
         {| file_exists := fun _ => true; image_size := fun _ => None |}
         (snd (load_texture
                 {| file_exists := fun _ => true;
                    image_size := fun _ => Some (64, 64)%Z |}
                 TextureManager.init "face.png" false))
         "face.png" false
       = (Some (mkTexture 1 64 64),
          {| textures := [("face.png_high", mkTexture 1 64 64)];
             quality := "high"; max_textures := 50;
             texture_usage :=
               Py.dict_set [("face.png_high", 1%Z)] ("face.png" +:+ "_" +:+ "high")
                           (n + 1)%Z;
             next_id := 2 |}).
Proof.
  exact (load_texture_answers_from_the_cache
           {| file_exists := fun _ => true; image_size := fun _ => Some (64, 64)%Z |}
           {| file_exists := fun _ => true; image_size := fun _ => None |}
           TextureManager.init
           {| textures := [("face.png_high", mkTexture 1 64 64)];
              quality := "high"; max_textures := 50;
              texture_usage := [("face.png_high", 1%Z)]; next_id := 2 |}
           "face.png" false (mkTexture 1 64 64) eq_refl eq_refl).
Defined.

End TextureProperties.

(** ** The renderer: what a model leaves in it, and what a frame sends *)

Section RendererProperties.
Import Renderer.

Lemma elem_of_dict_set {V : Type} (d : list (string * V)) (k k' : string) (v v' : V) :
  (k', v') ∈ Py.dict_set d k v -> (k', v') = (k, v) \/ (k', v') ∈ d.
Proof.
  induction d as [|[k0 v0] d IH]; cbn.
  - intros H. apply list_elem_of_singleton in H. auto.
  - destruct (String.eqb k0 k).
    + intros H. apply elem_of_cons in H as [H|H]; [auto|].
      right. apply elem_of_cons. auto.
    + intros H. apply elem_of_cons in H as [H|H].
      * right. apply elem_of_cons. auto.
      * destruct (IH H) as [?|?]; [auto|]. right. apply elem_of_cons. auto.
Qed.

Lemma keys_dict_set_elem {V : Type} (d : list (string * V)) (k k' : string) (v : V) :
  k' ∈ (Py.dict_set d k v).*1 <-> k' = k \/ k' ∈ d.*1.
Proof.
  rewrite keys_dict_set. destruct (Py.dict_get d k) as [x|] eqn:Hg.
  - split; [auto|]. intros [->|H]; [|exact H].
    destruct (decide (k ∈ d.*1)) as [Hin|Hout]; [exact Hin|].
    apply dict_get_None in Hout. congruence.
  - rewrite elem_of_app, list_elem_of_singleton. tauto.
Qed.

Lemma load_parts_spec (w : TextureManager.world) (l : list ModelParser.part) :
  forall (tm0 : TextureManager.t) (ps0 : list (string * part)),
  NoDup ps0.*1 ->
  (forall k p, (k, p) ∈ ps0 -> id p = Some k /\ visible p = true /\ opacity p = 1.0) ->
  let ps := snd (fold_left (load_part w) l (tm0, ps0)) in
  NoDup ps.*1
  /\ (forall k, k ∈ ps.*1 <->
        k ∈ ps0.*1 \/ (k <> "" /\ exists p, p ∈ l /\ ModelParser.Id p = Some k))
  /\ (forall k p, (k, p) ∈ ps -> id p = Some k /\ visible p = true /\ opacity p = 1.0).
Proof.
  induction l as [|part_data l IH]; intros tm0 ps0 Hnd Hgood; cbn [fold_left].
  - cbn. split; [exact Hnd|]. split; [|exact Hgood].
    intros k. split; [auto|]. intros [H|(_ & p & Hp & _)]; [exact H|].
    apply elem_of_nil in Hp. contradiction.
  - destruct (String.eqb_spec (default "" (ModelParser.Id part_data)) "") as [He|Hne].
    + assert (E : load_part w (tm0, ps0) part_data = (tm0, ps0)).
      { unfold load_part. rewrite He. reflexivity. }
      rewrite E.
      destruct (IH tm0 ps0 Hnd Hgood) as (H1 & H2 & H3).
      split; [exact H1|]. split; [|exact H3].
      intros k. rewrite H2. split.
      * intros [H|(Hk & p & Hp & Hid)]; [auto|]. right. split; [exact Hk|].
        exists p. split; [apply elem_of_cons; auto|exact Hid].
      * intros [H|(Hk & p & Hp & Hid)]; [auto|].
        apply elem_of_cons in Hp as [->|Hp].
        -- rewrite Hid in He. cbn in He. contradiction.
        -- right. eauto.
    + set (part_id := default "" (ModelParser.Id part_data)) in *.
      assert (E : exists tm' new_part,
                load_part w (tm0, ps0) part_data
                  = (tm', Py.dict_set ps0 part_id new_part)
                /\ id new_part = Some part_id /\ visible new_part = true
                /\ opacity new_part = 1.0).
      { unfold load_part. fold part_id.
        destruct (String.eqb_spec part_id "") as [E|_]; [contradiction|].
        destruct (if String.eqb (default "" (ModelParser.TexturePath part_data)) ""
                  then (None, tm0)
                  else TextureManager.load_texture w tm0
                         (default "" (ModelParser.TexturePath part_data)) false)
          as [texture tm'].
        eexists _, _. split; [reflexivity|]. repeat split. }
      destruct E as (tm' & new_part & -> & Hnid & Hnv & Hno).
      destruct (IH tm' (Py.dict_set ps0 part_id new_part)) as (H1 & H2 & H3).
      { apply NoDup_dict_set. exact Hnd. }
      { intros k p Hin. apply elem_of_dict_set in Hin as [[= -> ->]|Hin].
        - repeat split; assumption.
        - apply Hgood. exact Hin. }
      split; [exact H1|]. split; [|exact H3].
      assert (Hid : ModelParser.Id part_data = Some part_id).
      { unfold part_id in *. destruct (ModelParser.Id part_data); [reflexivity|].
        cbn in Hne. contradiction. }
      intros k. rewrite H2, keys_dict_set_elem. split.
      * intros [[->|H]|(Hk & p & Hp & Hp')].
        -- right. split; [exact Hne|]. exists part_data.
           split; [apply elem_of_cons; auto|exact Hid].
        -- auto.
        -- right. split; [exact Hk|]. exists p. split; [apply elem_of_cons; auto|exact Hp'].
      * intros [H|(Hk & p & Hp & Hp')]; [auto|].
        apply elem_of_cons in Hp as [->|Hp].
        -- left. left. congruence.
        -- right. eauto.
Qed.

(** X26. After [load_model] the renderer holds one part for each distinct
    non-empty ["Id"] of the model's parts and nothing else (what it held
    before, the debug quad included, is gone): parts without id or with an
    empty one are dropped, every part kept is visible with opacity 1.0 and
    carries its key as id; [initialized] and the cached draw order are not
    touched. *)
Theorem load_model_keeps_the_parts_with_an_id (w : TextureManager.world)
    (r : Renderer.t) (m : ModelParser.model) :
  let r' := load_model w r m in
  NoDup (parts r').*1
  /\ (forall k, k ∈ (parts r').*1 <->
        k <> "" /\ exists p, p ∈ ModelParser.m_Parts m /\ ModelParser.Id p = Some k)
  /\ (forall k p, (k, p) ∈ parts r' ->
        id p = Some k /\ visible p = true /\ opacity p = 1.0)
  /\ initialized r' = initialized r
  /\ sorted_parts r' = sorted_parts r.
Proof.
  cbv zeta. unfold load_model.
  destruct (load_parts_spec w (ModelParser.m_Parts m) (texture_manager r) [])
    as (H1 & H2 & H3).
  { constructor. }
  { intros k p H. apply elem_of_nil in H. contradiction. }
  destruct (fold_left (load_part w) (ModelParser.m_Parts m) (texture_manager r, []))
    as [tm ps]. cbn in *.
  split; [exact H1|]. split; [|auto].
  intros k. rewrite H2. split; [|auto].
  intros [H|H]; [apply elem_of_nil in H; contradiction|exact H].
Qed.

Lemma part_alpha_range (pm : ParameterManager.t) (p : part) :
  0 <= part_alpha pm p <= 1.
Proof.
  unfold part_alpha, Py.max, Py.min.
  repeat destruct (Rlt_dec _ _); lra.
Qed.

(** X27. Every alpha [render] sends to the shader lies in [0, 1],
    whatever the opacity deformers and the parameter values are. *)
Theorem every_alpha_sent_to_the_shader_is_in_range (r : Renderer.t)
    (pm : ParameterManager.t) (alpha : R) :
  glUniform1f alpha ∈ snd (render r pm) -> 0 <= alpha <= 1.
Proof.
  unfold render. destruct (negb (initialized r)).
  { cbn. intros H. apply elem_of_nil in H. contradiction. }
  destruct (parts r) as [|p0 ps] eqn:Hp.
  { cbn. intros H. apply elem_of_nil in H. contradiction. }
  cbn [snd]. generalize (refreshed_order r). intros order H.
  apply elem_of_app in H as [H|H].
  { repeat (apply elem_of_cons in H as [H|H]; [discriminate|]).
    apply elem_of_nil in H. contradiction. }
  apply elem_of_app in H as [H|H].
  2:{ repeat (apply elem_of_cons in H as [H|H]; [discriminate|]).
      apply elem_of_nil in H. contradiction. }
  apply list_elem_of_In in H. apply in_flat_map in H as (p & _ & Hc).
  apply list_elem_of_In in Hc.
  unfold part_calls in Hc. destruct (visible p).
  2:{ apply elem_of_nil in Hc. contradiction. }
  apply elem_of_app in Hc as [Hc|Hc].
  - apply elem_of_cons in Hc as [[= ->]|Hc]; [apply part_alpha_range|].
    apply elem_of_cons in Hc as [Hc|Hc]; [discriminate|].
    apply elem_of_nil in Hc. contradiction.
  - destruct (texture p).
    + repeat (apply elem_of_cons in Hc as [Hc|Hc]; [discriminate|]).
      apply elem_of_nil in Hc. contradiction.
    + apply elem_of_nil in Hc. contradiction.
Qed.

Lemma every_alpha_sent_to_the_shader_is_in_range_witness :
  0 <= part_alpha ParameterManager.init plain_part <= 1.
Proof.
  apply (every_alpha_sent_to_the_shader_is_in_range plain_renderer
           ParameterManager.init).
  apply list_elem_of_In. cbn -[part_alpha]. auto 10.
Defined.

(** [Renderer.set_quality] empties the texture cache when the quality
    changes, and leaves the parts with the textures they loaded: the next
    frame issues the same calls. *)
Lemma set_quality_leaves_the_parts_their_textures (r : Renderer.t)
    (pm : ParameterManager.t) (quality : string) :
  parts (set_quality r quality) = parts r
  /\ snd (render (set_quality r quality) pm) = snd (render r pm)
  /\ (quality <> TextureManager.quality (texture_manager r) ->
      quality = "high" \/ quality = "medium" \/ quality = "low" ->
      TextureManager.textures (texture_manager (set_quality r quality)) = []
      /\ TextureManager.quality (texture_manager (set_quality r quality)) = quality).
Proof.
  split; [reflexivity|]. split.
  { unfold render, refreshed_order, set_quality.
    cbn [initialized parts sorted_parts shader_program vao].
    destruct (negb (initialized r)); [reflexivity|].
    destruct (parts r); reflexivity. }
  intros Hne Hq. unfold set_quality, TextureManager.set_quality.
  cbn [texture_manager].
  assert (Hv : (String.eqb quality "high" || String.eqb quality "medium"
                || String.eqb quality "low")%bool = true).
  { destruct Hq as [->|[->| ->]]; reflexivity. }
  rewrite Hv. destruct (String.eqb_spec quality (TextureManager.quality (texture_manager r)));
    [contradiction|]. cbn. auto.
Qed.

End RendererProperties.

Section PetModel.
Import Renderer.

(** X28. [PetManager.is_valid_model] accepts a document exactly when
    ["Parts"] is present, not empty, and every part has an ["Id"] key; the
    id may be empty. [Renderer.load_model] drops parts with an empty id, so
    a valid document whose ids are all empty leaves the renderer without
    parts, and [render] then issues no GL call at all. *)
Theorem a_model_can_be_valid_and_leave_nothing_to_draw
    (model_data : ModelParser.document) (w : TextureManager.world)
    (r : Renderer.t) (pm : ParameterManager.t) :
  (PetManager.is_valid_model model_data = true <->
     exists parts, ModelParser.Parts model_data = Some parts /\ parts <> []
                   /\ Forall (fun p => is_Some (ModelParser.Id p)) parts)
  /\ (PetManager.is_valid_model model_data = true ->
      Forall (fun p => ModelParser.Id p = Some "")
             (default [] (ModelParser.Parts model_data)) ->
      parts (load_model w r (raw_model model_data)) = []
      /\ render (load_model w r (raw_model model_data)) pm
         = (load_model w r (raw_model model_data), [])).
Proof.
  split.
  - unfold PetManager.is_valid_model.
    destruct (ModelParser.Parts model_data) as [ps|].
    2:{ split; [discriminate|]. intros (? & [=] & _). }
    destruct ps as [|p0 ps]; cbn [length Nat.eqb].
    { split; [discriminate|]. intros (? & [= <-] & Hne & _). contradiction. }
    rewrite forallb_forall. split.
    + intros H. exists (p0 :: ps). split; [reflexivity|]. split; [discriminate|].
      apply Forall_forall. intros p Hp. apply list_elem_of_In in Hp.
      specialize (H p Hp). destruct (ModelParser.Id p); [eauto|discriminate].
    + intros (ps' & [= <-] & _ & Hall) p Hp. apply list_elem_of_In in Hp.
      destruct (proj1 (Forall_forall _ _) Hall p Hp) as [i ->]. reflexivity.
  - intros _ Hempty.
    assert (Hparts : parts (load_model w r (raw_model model_data)) = []).
    { unfold load_model.
      destruct (load_parts_spec w (ModelParser.m_Parts (raw_model model_data))
                  (texture_manager r) [])
        as (_ & Hkeys & _).
      { constructor. }
      { intros k p H. apply elem_of_nil in H. contradiction. }
      destruct (fold_left (load_part w) (ModelParser.m_Parts (raw_model model_data))
                  (texture_manager r, [])) as [tm [|[k p] ps]]; [reflexivity|].
      exfalso. cbn [snd parts] in Hkeys.
      destruct (proj1 (Hkeys k)) as [Hk|(Hk & q & Hq & Hid)].
      { cbn. apply elem_of_cons. auto. }
      { cbn in Hk. apply elem_of_nil in Hk. contradiction. }
      cbn in Hq. pose proof (proj1 (Forall_forall _ _) Hempty q Hq) as Hq'.
      congruence. }
    split; [exact Hparts|]. unfold render. rewrite Hparts.
    destruct (negb _); reflexivity.
Qed.

End PetModel.

(** ** The configuration *)

Section ConfigProperties.
Import ConfigManager.

Lemma load_items_lookup (items : list (string * value)) :
  forall (cfg : gmap string value) (k : string),
  let cfg' :=
    fold_left (fun cfg kv => match cfg !! fst kv with
                             | Some _ => <[fst kv := snd kv]> cfg
                             | None => cfg
                             end) items cfg in
  (is_Some (cfg' !! k) <-> is_Some (cfg !! k))
  /\ (k ∉ items.*1 -> cfg' !! k = cfg !! k)
  /\ (forall v, NoDup items.*1 -> (k, v) ∈ items -> is_Some (cfg !! k) ->
        cfg' !! k = Some v).
Proof.
  induction items as [|[k0 v0] items IH]; intros cfg k; cbn [fold_left fst snd].
  - cbn. split; [tauto|]. split; [auto|]. intros v _ H. apply elem_of_nil in H. contradiction.
  - set (cfg1 := match cfg !! k0 with Some _ => <[k0 := v0]> cfg | None => cfg end).
    destruct (IH cfg1 k) as (Hdom & Hout & Hin).
    assert (Hdom1 : forall j, is_Some (cfg1 !! j) <-> is_Some (cfg !! j)).
    { intros j. unfold cfg1. destruct (cfg !! k0) eqn:Hk0; [|tauto].
      destruct (decide (j = k0)) as [->|Hne].
      - rewrite lookup_insert_eq, Hk0. split; eauto.
      - rewrite lookup_insert_ne by congruence. tauto. }
    assert (Hne1 : forall j, j <> k0 -> cfg1 !! j = cfg !! j).
    { intros j Hj. unfold cfg1. destruct (cfg !! k0); [|reflexivity].
      apply lookup_insert_ne. congruence. }
    split; [rewrite Hdom; apply Hdom1|]. split.
    + intros Hk. cbn [fmap list_fmap fst] in Hk. apply not_elem_of_cons in Hk as [Hk0 Hk].
      rewrite (Hout Hk). apply Hne1. exact Hk0.
    + intros v Hnd Hkv Hsome. cbn [fmap list_fmap fst] in Hnd.
      apply NoDup_cons in Hnd as [Hk0 Hnd].
      apply elem_of_cons in Hkv as [[= -> ->]|Hkv].
      * rewrite (Hout Hk0). unfold cfg1. destruct Hsome as [x ->].
        apply lookup_insert_eq.
      * apply Hin; [exact Hnd|exact Hkv|]. apply Hdom1. exact Hsome.
Qed.

(** [load_config] replaces the values of keys the configuration has and
    drops the other keys of the file; without a readable file it changes
    nothing and returns [False]. *)
Lemma load_config_only_replaces_known_keys (self : ConfigManager.t)
    (loaded_config : list (string * value)) (k : string) :
  load_config Missing self = (self, false)
  /\ load_config Unreadable self = (self, false)
  /\ snd (load_config (Document loaded_config) self) = true
  /\ default_config (fst (load_config (Document loaded_config) self))
     = default_config self
  /\ (is_Some (config (fst (load_config (Document loaded_config) self)) !! k)
      <-> is_Some (config self !! k))
  /\ (k ∉ loaded_config.*1 ->
      config (fst (load_config (Document loaded_config) self)) !! k = config self !! k)
  /\ (forall v, NoDup loaded_config.*1 -> (k, v) ∈ loaded_config ->
        is_Some (config self !! k) ->
        config (fst (load_config (Document loaded_config) self)) !! k = Some v).
Proof.
  split; [reflexivity|]. split; [reflexivity|]. split; [reflexivity|].
  split; [reflexivity|]. cbn [load_config fst config with_config].
  apply load_items_lookup.
Qed.

(** X29. In every state a configuration manager reaches through
    [__init__] (on any host), [set], [load_config] and [reset], the default
    configuration is the built-in one and every key of it is configured:
    [get] returns the stored value for it, never the fallback. *)
Theorem every_default_key_stays_configured (self : ConfigManager.t) (key : string)
    (default : option value) :
  reachable_config self ->
  default_config self = defaults
  /\ (is_Some (defaults !! key) -> is_Some (get self key default)
                                   /\ get self key default = config self !! key).
Proof.
  intros Hr.
  enough (H : default_config self = defaults
              /\ forall k, is_Some (defaults !! k) -> is_Some (config self !! k)).
  { destruct H as [Hd Hk]. split; [exact Hd|]. intros Hkey.
    unfold get. destruct (Hk key Hkey) as [v ->]. eauto. }
  clear key default.
  induction Hr as [home disk path|self k v _ IH|self f _ IH|self _ IH].
  - unfold ConfigManager.init.
    match goal with |- context [load_config ?f ?s] =>
      destruct (load_config_only_replaces_known_keys s [] "") as (Hm & Hu & _);
      destruct f as [| |items] eqn:Hf
    end.
    + rewrite Hm. cbn. auto.
    + rewrite Hu. cbn. auto.
    + split; [reflexivity|]. intros k Hk.
      match goal with |- context [load_config ?f ?s] =>
        destruct (load_config_only_replaces_known_keys s items k) as (_ & _ & _ & _ & Hdom & _)
      end.
      apply Hdom. exact Hk.
  - destruct IH as [Hd Hk]. split; [exact Hd|]. intros j Hj. cbn.
    destruct (decide (j = k)) as [->|Hne].
    + rewrite lookup_insert_eq. eauto.
    + rewrite lookup_insert_ne by congruence. apply Hk. exact Hj.
  - destruct IH as [Hd Hk]. destruct f as [| |items]; cbn [load_config fst]; [auto..|].
    split; [exact Hd|]. intros j Hj.
    destruct (load_config_only_replaces_known_keys self items j)
      as (_ & _ & _ & _ & Hdom & _).
    apply Hdom. apply Hk. exact Hj.
  - destruct IH as [Hd Hk]. split; [exact Hd|]. intros j Hj. cbn. rewrite Hd. exact Hj.
Qed.

Lemma every_default_key_stays_configured_witness :
  default_config sample_configuration = defaults
  /\ (is_Some (defaults !! "quality") ->
      is_Some (get sample_configuration "quality" None)
      /\ get sample_configuration "quality" None
         = config sample_configuration !! "quality").
Proof.
  apply (every_default_key_stays_configured sample_configuration "quality" None).
  apply reach_config_reset, reach_config_set, reach_config_init.
Defined.

End ConfigProperties.

(** ** Resources *)

Section ResourceProperties.
Import ResourceManager.

Lemma collect_lookup (files : list string) :
  forall (motions : list (string * list string)) (g : string),
  NoDup motions.*1 ->
  NoDup (collect files motions).*1
  /\ Py.dict_get (collect files motions) g
     = match Py.dict_get motions g, motions_of_group g files with
       | None, [] => None
       | None, fs => Some fs
       | Some old, fs => Some (old ++ fs)
       end.
Proof.
  induction files as [|f files IH]; intros motions g Hnd.
  - cbn. split; [exact Hnd|]. destruct (Py.dict_get motions g); [|reflexivity].
    rewrite app_nil_r. reflexivity.
  - unfold collect in *. cbn [fold_left]. unfold motions_of_group in *. cbn [List.filter].
    destruct (OsPath.endswith f ".motion3.json"); [|apply IH; exact Hnd].
    cbn [andb].
    set (motions1 := match Py.dict_get motions (group_of f) with
                     | Some _ => motions
                     | None => Py.dict_set motions (group_of f) []
                     end).
    set (motions2 := Py.dict_set motions1 (group_of f)
                       (default [] (Py.dict_get motions1 (group_of f)) ++ [f])).
    assert (Hnd2 : NoDup motions2.*1).
    { unfold motions2, motions1. apply NoDup_dict_set.
      destruct (Py.dict_get motions (group_of f)); [exact Hnd|].
      apply NoDup_dict_set. exact Hnd. }
    destruct (IH motions2 g Hnd2) as [H1 H2]. split; [exact H1|]. rewrite H2.
    destruct (String.eqb_spec (group_of f) g) as [<-|Hne].
    + unfold motions2. rewrite dict_get_set_eq. unfold motions1.
      destruct (Py.dict_get motions (group_of f)) as [old|] eqn:Hold.
      * rewrite Hold. cbn. rewrite <- app_assoc. reflexivity.
      * rewrite dict_get_set_eq. cbn. reflexivity.
    + unfold motions2. rewrite dict_get_set_ne by congruence. unfold motions1.
      destruct (Py.dict_get motions (group_of f)); [reflexivity|].
      rewrite dict_get_set_ne by congruence. reflexivity.
Qed.

(** X30. [scan_motions] returns, for every group name, the files of the
    directory listing that end in [.motion3.json] and whose name up to the
    first underscore is the group (["default"] for a name without
    underscore), in the order of the listing; a group without such file has
    no entry, no group appears twice, and a missing or unreadable directory
    gives the empty dict. *)
Theorem scan_motions_groups_the_motion_files (path_exists : string -> bool)
    (listdir : string -> option (list string)) (self : ResourceManager.t)
    (motion_dir g : string) :
  (path_exists motion_dir = false \/ listdir motion_dir = None ->
   scan_motions path_exists listdir self motion_dir = [])
  /\ (forall files, path_exists motion_dir = true -> listdir motion_dir = Some files ->
      NoDup (scan_motions path_exists listdir self motion_dir).*1
      /\ Py.dict_get (scan_motions path_exists listdir self motion_dir) g
         = match motions_of_group g files with
           | [] => None
           | fs => Some fs
           end).
Proof.
  unfold scan_motions. split.
  - intros [-> | ->]; [reflexivity|]. destruct (negb _); reflexivity.
  - intros files -> ->. cbn [negb].
    destruct (collect_lookup files [] g) as [H1 H2]; [constructor|].
    split; [exact H1|]. rewrite H2. reflexivity.
Qed.

(** The paths [ResourceManager] builds end in the name they were given,
    and an absolute motion file name replaces the model directory. *)
Lemma resource_paths_end_in_the_file_name (self : ResourceManager.t)
    (model_name motion_file : string) :
  OsPath.basename (get_motion_path self model_name motion_file)
    = OsPath.basename motion_file
  /\ OsPath.basename (get_model_path self model_name) = OsPath.basename model_name
  /\ (String.prefix "/" motion_file = true ->
      get_motion_path self model_name motion_file = motion_file).
Proof.
  unfold get_motion_path, get_model_path. rewrite !basename_join.
  repeat split. intros H. unfold OsPath.join at 1. rewrite H. reflexivity.
Qed.

End ResourceProperties.
